(** * TK-Planes: pixel samplers and K-Planes model schedule

    A shallow embedding of [data/pixel_samplers.py] and of the pose
    correction and regularisation schedule of [kplanes/kplanes.py],
    with the properties of the specification stated over it.

    Conventions.
    - Python [int] is [Z]; [//] is floor division and raises on a zero
      divisor.
    - An integer tensor of shape [N] is a [list Z]; an integer tensor of
      shape [N, k] is an [int2d]: its [k] and its [N] rows.
    - A call either returns a value or raises: [result A].  Code that
      also updates state runs in [M S], which keeps the state reached
      when the exception was raised.
    - [random] and [torch.rand] draw from an entropy tape: every draw
      consumes the next number of the tape, so a property proved for
      every tape holds for every run.  A loop that waits for a draw the
      tape never makes does not end: the call [Hangs]. *)

From stdpp Require Import base numbers list option strings gmap sorting.
From Stdlib Require Import ZArith Lia Permutation Sorted QArith Qminmax Lqa Reals Lra.

#[local] Open Scope Z_scope.
#[local] Set Warnings "-clear-no-such-hyp".

(** ** Python outcomes *)

Module Py.

(** The ways a call can end without a value: a Python exception, or
    [Hangs], no exception at all: the call never returns. *)
Inductive exn : Type :=
| ZeroDivisionError
| ValueError
| IndexError
| RuntimeError
| TypeError
| KeyError
| NameError
| AttributeError
| AssertionError
| SystemExit (code : Z)
| Hangs.

Inductive result (A : Type) : Type :=
| Ok (a : A)
| Raise (e : exn).

Arguments Ok {A} a.
Arguments Raise {A} e.

Definition is_ok {A} (m : result A) : bool :=
  match m with Ok _ => true | Raise _ => false end.

(** State and exceptions: the state survives a raise. *)
Definition M (S A : Type) : Type := S -> result A * S.

Definition ret {S A} (a : A) : M S A := fun s => (Ok a, s).

Definition bind {S A B} (m : M S A) (k : A -> M S B) : M S B :=
  fun s =>
    match m s with
    | (Ok a, s') => k a s'
    | (Raise e, s') => (Raise e, s')
    end.

Definition raise {S A} (e : exn) : M S A := fun s => (Raise e, s).

Definition get {S} : M S S := fun s => (Ok s, s).
Definition put {S} (s : S) : M S unit := fun _ => (Ok tt, s).

(** A pure, fallible computation inside [M S]. *)
Definition lift {S A} (r : result A) : M S A := fun s => (r, s).

(** Run a computation on a component of the state. *)
Definition zoom {S T A} (proj : S -> T) (upd : T -> S -> S) (m : M T A) : M S A :=
  fun s => let '(r, t) := m (proj s) in (r, upd t s).

(** [a // b] *)
Definition floordiv (a b : Z) : result Z :=
  if Z.eqb b 0 then Raise ZeroDivisionError else Ok (a / b).

(** [exit(code)] *)
Definition exit {S A} (code : Z) : M S A := raise (SystemExit code).

(** [for x in xs: body], threading an accumulator. *)
Fixpoint for_each {S A B} (xs : list A) (acc : B) (body : A -> B -> M S B) : M S B :=
  match xs with
  | [] => ret acc
  | x :: xs' => bind (body x acc) (fun acc' => for_each xs' acc' body)
  end.

End Py.

Export Py.

#[global] Instance result_ret : MRet result := fun A a => Ok a.
#[global] Instance result_bind : MBind result :=
  fun A B k m => match m with Ok a => k a | Raise e => Raise e end.
#[global] Instance result_fmap : FMap result :=
  fun A B f m => match m with Ok a => Ok (f a) | Raise e => Raise e end.
#[global] Instance M_ret {S} : MRet (M S) := fun A a => Py.ret a.
#[global] Instance M_bind {S} : MBind (M S) := fun A B k m => Py.bind m k.

(** ** The [random] module over an entropy tape *)

Module Random.

Definition tape : Type := list nat.

(** [_randbelow(n)]: a number below [n], read off the tape; past the end
    of the tape every draw is 0. *)
Definition randbelow (n : nat) : M tape nat :=
  fun t =>
    match t with
    | [] => (Ok 0%nat, [])
    | x :: t' => (Ok (x mod n)%nat, t')
    end.

(** [random.randint(a, b)]: both ends included; an empty range raises. *)
Definition randint (a b : Z) : M tape Z :=
  if Z.ltb b a then raise ValueError
  else r ← randbelow (Z.to_nat (b - a + 1)); mret (a + Z.of_nat r).

(** [x[i], x[j] = x[j], x[i]] *)
Definition swap {A} (i j : nat) (l : list A) : list A :=
  match l !! i, l !! j with
  | Some xi, Some xj => <[j := xi]> (<[i := xj]> l)
  | _, _ => l
  end.

(** [random.shuffle(x)]:
    [for i in reversed(range(1, len(x))): j = randbelow(i + 1); swap]. *)
Fixpoint shuffle_from {A} (i : nat) (l : list A) : M tape (list A) :=
  match i with
  | O => mret l
  | S i' => j ← randbelow (S i); shuffle_from i' (swap i j l)
  end.

Definition shuffle {A} (l : list A) : M tape (list A) :=
  shuffle_from (length l - 1) l.

(** [random.sample(population, k)].  The size threshold
    [setsize = 21; if k > 5: setsize += 4 ** _ceil(_log(k * 3, 4))]:
    the power is the least power of 4 that is at least [3 k] (the float
    logarithm rounds to another integer only for [k] beyond [10 ^ 15]). *)
Definition setsize (k : Z) : Z :=
  if Z.ltb 5 k then 21 + 4 ^ ((Z.log2_up (k * 3) + 1) / 2) else 21.

(** [if n <= setsize]: the pool algorithm,
    [j = randbelow(n - i); result[i] = pool[j]; pool[j] = pool[n - i - 1]]. *)
Fixpoint sample_pool {A} (k : nat) (n : nat) (pool : list A) : M tape (list A) :=
  match k with
  | O => mret []
  | S k' =>
      j ← randbelow n;
      match pool !! j, pool !! (n - 1)%nat with
      | Some x, Some y =>
          r ← sample_pool k' (n - 1)%nat (<[j := y]> pool); mret (x :: r)
      | _, _ => raise IndexError
      end
  end.

(** [while j in selected: j = randbelow(n)].  Every turn takes the next
    number of the tape; past its end every draw is 0 (see [randbelow]), so
    that the loop never ends when 0 is selected. *)
Fixpoint redraw (n : nat) (selected : gset nat) (j : nat) (t : tape) : result nat * tape :=
  if decide (j ∈ selected)
  then match t with
       | [] => if decide (0%nat ∈ selected) then (Raise Hangs, []) else (Ok 0%nat, [])
       | x :: t' => redraw n selected (x mod n)%nat t'
       end
  else (Ok j, t).

(** [else]: the algorithm with the set of selected positions,
    [j = randbelow(n); while j in selected: j = randbelow(n);
     selected_add(j); result[i] = population[j]]. *)
Fixpoint sample_set {A} (k : nat) (n : nat) (population : list A) (selected : gset nat)
  : M tape (list A) :=
  match k with
  | O => mret []
  | S k' =>
      j ← randbelow n;
      j ← redraw n selected j;
      match population !! j with
      | Some x => r ← sample_set k' n population ({[j]} ∪ selected); mret (x :: r)
      | None => raise IndexError
      end
  end.

Definition sample {A} (population : list A) (k : Z) : M tape (list A) :=
  let n := length population in
  if negb (Z.leb 0 k && Z.leb k (Z.of_nat n)) then raise ValueError
  else if Z.leb (Z.of_nat n) (setsize k) then sample_pool (Z.to_nat k) n population
  else sample_set (Z.to_nat k) n population ∅.

(** The numbers that [randbelow(n)] can still return on a tape: those of
    the tape, and the 0 past its end. *)
Definition draws (n : nat) (t : tape) : gset nat :=
  list_to_set ((fun x => (x mod n)%nat) <$> t) ∪ {[0%nat]}.

End Random.

Export Random.

(** ** The torch operations the samplers use *)

Module Torch.

(** An integer tensor of shape [N, ncols]. *)
Record int2d : Type := Int2d { ncols : nat; rows : list (list Z) }.

(** A boolean tensor with its shape, data in row-major order. *)
Record mask_tensor : Type := MaskTensor { mshape : list nat; mdata : list bool }.

(** [torch.arange(0, n)]: the upper bound must not be below the lower one. *)
Definition arange (n : Z) : result (list Z) :=
  if Z.ltb n 0 then Raise RuntimeError else Ok (seqZ 0 n).

(** [t.repeat_interleave(k)]: every element [k] times in a row. *)
Definition repeat_interleave {A} (k : Z) (t : list A) : result (list A) :=
  if Z.ltb k 0 then Raise RuntimeError
  else Ok (mjoin ((fun x => replicate (Z.to_nat k) x) <$> t)).

(** [t.repeat(k)]: the whole tensor [k] times. *)
Definition repeat {A} (k : Z) (t : list A) : result (list A) :=
  if Z.ltb k 0 then Raise RuntimeError
  else Ok (mjoin (replicate (Z.to_nat k) t)).

Definition zip3 (a b c : list Z) : list (list Z) :=
  (fun p : Z * Z * Z => [p.1.1; p.1.2; p.2]) <$> zip (zip a b) c.

(** [torch.cat([a, b, c], dim=1)] of three [N, 1] columns: the sizes of
    dimension 0 must agree. *)
Definition cat_columns (a b c : list Z) : result int2d :=
  if Nat.eqb (length a) (length b) && Nat.eqb (length b) (length c)
  then Ok (Int2d 3 (zip3 a b c))
  else Raise RuntimeError.

(** The coordinates of flat position [k] in a tensor of shape [dims]. *)
Fixpoint unravel (dims : list nat) (k : nat) : list Z :=
  match dims with
  | [] => []
  | d :: dims' =>
      let inner := foldr Nat.mul 1%nat dims' in
      Z.of_nat ((k / inner) mod d) :: unravel dims' (k mod inner)
  end.

(** The flat position of coordinates [idx] in a tensor of shape [dims]. *)
Fixpoint ravel (dims : list nat) (idx : list Z) : option nat :=
  match dims, idx with
  | [], [] => Some 0%nat
  | d :: dims', i :: idx' =>
      if Z.leb 0 i && Z.ltb i (Z.of_nat d)
      then k ← ravel dims' idx';
           Some (Z.to_nat i * foldr Nat.mul 1%nat dims' + k)%nat
      else None
  | _, _ => None
  end.

Definition numel (dims : list nat) : nat := foldr Nat.mul 1%nat dims.

(** [mask[..., 0]]: the first entry along the last dimension. *)
Definition first_channel (mask : mask_tensor) : result mask_tensor :=
  match reverse (mshape mask) with
  | [] => Raise IndexError
  | c :: rev_outer =>
      if Nat.eqb c 0 then Raise IndexError
      else
        let outer := reverse rev_outer in
        Ok (MaskTensor outer
              ((fun k => default false (mdata mask !! (k * c)%nat))
                 <$> seq 0 (numel outer)))
  end.

(** [torch.nonzero(t, as_tuple=False)]: the coordinates of the true entries,
    in row-major order. *)
Definition nonzero (t : mask_tensor) : int2d :=
  Int2d (length (mshape t))
    (unravel (mshape t)
       <$> List.filter (fun k => default false (mdata t !! k))
             (seq 0 (length (mdata t)))).

(** [t[chosen]] for a list of row positions. *)
Definition index_rows (t : int2d) (chosen : list nat) : result int2d :=
  rs ← mapM (fun i => match rows t !! i with
                      | Some r => Ok r
                      | None => Raise IndexError
                      end) chosen;
  Ok (Int2d (ncols t) rs).

(** [t[select]] for a boolean tensor [select] over dimension 0. *)
Definition bool_index (t : int2d) (select : list bool) : result int2d :=
  if Nat.eqb (length select) (length (rows t))
  then Ok (Int2d (ncols t)
             (fst <$> List.filter (fun p : list Z * bool => p.2) (zip (rows t) select)))
  else Raise IndexError.

(** [t[:, j] += v]: [v] has one entry per row, or a single entry. *)
Definition add_col (j : nat) (v : list Z) (t : int2d) : result int2d :=
  if negb (Nat.ltb j (ncols t)) then Raise IndexError
  else if Nat.eqb (length v) (length (rows t))
  then Ok (Int2d (ncols t)
             ((fun p : list Z * Z => alter (Z.add p.2) j p.1) <$> zip (rows t) v))
  else match v with
       | [x] => Ok (Int2d (ncols t) (alter (Z.add x) j <$> rows t))
       | _ => Raise RuntimeError
       end.

(** [torch.ceil(t / 2).to(int)] *)
Definition ceil_half (t : list Z) : list Z := (fun x => (x + 1) / 2) <$> t.

(** [t.shape[1]] of a tensor built by [torch.tensor] from a list of lists. *)
Definition shape1 {A} (t : list (list A)) : result nat :=
  match t with
  | [] => Raise IndexError
  | r :: _ => Ok (length r)
  end.

(** [t[:, 0]] *)
Definition column0 {A} (t : list (list A)) : result (list A) :=
  match t with
  | [] => Raise IndexError
  | _ => mapM (fun r => match r with
                        | x :: _ => Ok x
                        | [] => Raise IndexError
                        end) t
  end.

(** [t[:, 1:]] *)
Definition drop_column0 {A} (t : list (list A)) : result (list (list A)) :=
  match t with
  | [] => Raise IndexError
  | _ => Ok (drop 1 <$> t)
  end.

(** [select = torch.zeros(n).to(bool); select[idxs] = True] *)
Definition one_hot (n : nat) (idxs : list Z) : result (list bool) :=
  foldr (fun i acc =>
           sel ← acc;
           if Z.leb (- Z.of_nat n) i && Z.ltb i (Z.of_nat n)
           then Ok (<[Z.to_nat (i `mod` Z.of_nat n) := true]> sel)
           else Raise IndexError)
        (Ok (replicate n false)) idxs.

End Torch.

Export Torch.

(** ** class PixelSampler *)

Module PixelSampler.

(** What a [sample_method] hands back: the base classes return one index
    tensor, the tiered sampler a five-tuple. *)
Inductive sample_out : Type :=
| OutIndices (indices : int2d)
| OutTiers (indices : list int2d) (dw_og dh_og : list Z)
           (select : list bool) (xy_dim : Z).

(** The branch for a mask tensor. *)
Definition sample_masked (batch_size : Z) (mask : mask_tensor) : M tape int2d :=
  chan ← lift (first_channel mask);
  let nonzero_indices := nonzero chan in
  chosen_indices ← Random.sample (seq 0 (length (rows nonzero_indices))) batch_size;
  lift (index_rows nonzero_indices chosen_indices).

(** The [all_pixels] branch. *)
Definition sample_all_pixels (batch_size num_images image_height image_width : Z)
  : result int2d :=
  interleave_num ← floordiv batch_size num_images;
  num_imgs ← arange num_images;
  num_imgs ← repeat_interleave interleave_num num_imgs;
  interleave_num ← floordiv batch_size (image_height * num_images);
  num_height ← arange image_height;
  num_height ← repeat_interleave interleave_num num_height;
  num_height ← Torch.repeat num_images num_height;
  interleave_num ← floordiv batch_size image_width;
  num_width ← arange image_width;
  num_width ← Torch.repeat interleave_num num_width;
  cat_columns num_imgs num_height num_width.

(** [floor(u * n)] for a uniform [u] in [[0, 1)], without the rounding of
    the float product: a number of the tape below [n] (for a negative [n],
    above [n] and at most 0). *)
Definition rand_scaled (n : Z) : M tape Z :=
  if Z.ltb 0 n then r ← randbelow (Z.to_nat n); mret (Z.of_nat r)
  else if Z.eqb n 0 then _ ← randbelow 1; mret 0
  else r ← randbelow (Z.to_nat (1 - n)); mret (- Z.of_nat r).

Fixpoint rand_rows (k : nat) (num_images image_height image_width : Z)
  : M tape (list (list Z)) :=
  match k with
  | O => mret []
  | S k' =>
      c ← rand_scaled num_images;
      y ← rand_scaled image_height;
      x ← rand_scaled image_width;
      rest ← rand_rows k' num_images image_height image_width;
      mret ([c; y; x] :: rest)
  end.

(** The default branch: [floor(torch.rand((batch_size, 3)) * [n, h, w])]. *)
Definition sample_uniform (batch_size num_images image_height image_width : Z)
  : M tape int2d :=
  if Z.ltb batch_size 0 then raise RuntimeError
  else rs ← rand_rows (Z.to_nat batch_size) num_images image_height image_width;
       mret (Int2d 3 rs).

Definition sample_method (batch_size num_images image_height image_width : Z)
    (mask : option mask_tensor) (all_pixels : bool) : M tape int2d :=
  match mask with
  | Some mask => sample_masked batch_size mask
  | None =>
      if all_pixels
      then lift (sample_all_pixels batch_size num_images image_height image_width)
      else sample_uniform batch_size num_images image_height image_width
  end.

(** The index space of [num_images] images of [image_height] rows and
    [image_width] columns: every [(image, row, column)] once, in
    lexicographic order. *)
Definition index_space (num_images image_height image_width : Z) : list (list Z) :=
  i ← seqZ 0 num_images;
  r ← seqZ 0 image_height;
  c ← seqZ 0 image_width;
  [[i; r; c]].

(** The lexicographic order of rows, and sorting by it. *)
Fixpoint lex_leb (a b : list Z) : bool :=
  match a, b with
  | [], _ => true
  | _ :: _, [] => false
  | x :: a', y :: b' => Z.ltb x y || (Z.eqb x y && lex_leb a' b')
  end.

Definition lex_le (a b : list Z) : Prop := lex_leb a b = true.

#[global] Instance lex_le_dec : RelDecision lex_le.
Proof. intros a b. unfold lex_le. apply _. Defined.

Definition sort_rows (l : list (list Z)) : list (list Z) := merge_sort lex_le l.

(** Where a mask tensor of rank 4 is true at an index triple, on its first
    channel. *)
Definition mask_true_at (mask : mask_tensor) (t : list Z) : Prop :=
  exists k, ravel (mshape mask) (t ++ [0]) = Some k /\ mdata mask !! k = Some true.

End PixelSampler.

(** ** class PatchPixelSampler *)

Module PatchPixelSampler.

Record t : Type := Make {
  patch_size : Z;
  num_rays_per_batch : Z;
  keep_full_image : bool;
}.

(** [__init__(num_rays_per_batch, keep_full_image, patch_size=...)] *)
Definition init (num_rays_per_batch : Z) (keep_full_image : bool) (patch_size : Z)
  : result t :=
  q ← floordiv num_rays_per_batch (patch_size ^ 2);
  let num_rays := q * (patch_size ^ 2) in
  Ok (Make patch_size num_rays keep_full_image).

Definition set_num_rays_per_batch (self : t) (num_rays_per_batch : Z) : result t :=
  q ← floordiv num_rays_per_batch (patch_size self ^ 2);
  Ok (Make (patch_size self) (q * (patch_size self ^ 2)) (keep_full_image self)).

(** [sample_method]: with a mask the base sampler's masked draw; without one
    the anchors are drawn and the call leaves by [exit(-1)] before the patch
    construction that follows in the source. *)
Definition sample_method (self : t) (batch_size num_images image_height image_width : Z)
    (mask : option mask_tensor) (all_pixels : bool) : M tape int2d :=
  match mask with
  | Some mask =>
      PixelSampler.sample_method batch_size num_images image_height image_width
        (Some mask) false
  | None =>
      sub_bs ← lift (floordiv batch_size (patch_size self ^ 2));
      indices ← PixelSampler.sample_uniform sub_bs num_images
                  (image_height - patch_size self) (image_width - patch_size self);
      exit (-1)
  end.

End PatchPixelSampler.

(** ** class EquirectangularPixelSampler *)

Module EquirectangularPixelSampler.

(** [sample_method]: with a mask the base sampler's masked draw; without one
    [floor([u, acos(1 - 2 v) / pi, w] * [n, h, w])].  [acos(1 - 2 v) / pi]
    ranges over [[0, 1)] as [v] does, so the rows range over the same
    indices as the uniform draw (with another density). *)
Definition sample_method (batch_size num_images image_height image_width : Z)
    (mask : option mask_tensor) : M tape int2d :=
  match mask with
  | Some mask =>
      PixelSampler.sample_method batch_size num_images image_height image_width
        (Some mask) false
  | None =>
      PixelSampler.sample_uniform batch_size num_images image_height image_width
  end.

End EquirectangularPixelSampler.

(** ** class TieredFeaturePatchPixelSampler *)

Module TieredFeaturePatchPixelSampler.

(** [self.num_to_select = 1] *)
Definition num_to_select : Z := 1.

Record t : Type := Make {
  patch_size : Z;
  num_tiers : Z;
  feature_patch_size : Z;
  select_idxs : list Z;
  indices : list int2d;
  dw_lst : list (list Z);
  dh_lst : list (list Z);
  num_rays_per_batch : Z;
  keep_full_image : bool;
}.

Definition set_select_idxs (v : list Z) (s : t) : t :=
  Make (patch_size s) (num_tiers s) (feature_patch_size s) v (indices s)
       (dw_lst s) (dh_lst s) (num_rays_per_batch s) (keep_full_image s).

Definition set_dw_lst (v : list (list Z)) (s : t) : t :=
  Make (patch_size s) (num_tiers s) (feature_patch_size s) (select_idxs s) (indices s)
       v (dh_lst s) (num_rays_per_batch s) (keep_full_image s).

Definition set_dh_lst (v : list (list Z)) (s : t) : t :=
  Make (patch_size s) (num_tiers s) (feature_patch_size s) (select_idxs s) (indices s)
       (dw_lst s) v (num_rays_per_batch s) (keep_full_image s).

Definition set_num_rays (v : Z) (s : t) : t :=
  Make (patch_size s) (num_tiers s) (feature_patch_size s) (select_idxs s) (indices s)
       (dw_lst s) (dh_lst s) v (keep_full_image s).

(** The anchor queue of one direction: per selected image a random phase
    [start] in [[0, patch_size - 1]], the starts
    [start + i * patch_size] for [i] in [range((extent // patch_size) - 1)],
    shuffled. *)
Fixpoint anchor_rows (k : nat) (extent patch_size : Z) : M tape (list (list Z)) :=
  match k with
  | O => mret []
  | S k' =>
      start ← randint 0 (patch_size - 1);
      cnt ← lift (floordiv extent patch_size);
      row ← shuffle ((fun i => start + i * patch_size) <$> seqZ 0 (cnt - 1));
      rest ← anchor_rows k' extent patch_size;
      mret (row :: rest)
  end.

(** The per-tier base grids: [for idx in range(k)], all pixels of 153 images
    of size [curr_dim x curr_dim], [curr_dim] halved from tier to tier. *)
Fixpoint tier_grids (k : nat) (curr_dim : Z) : M tape (list int2d) :=
  match k with
  | O => mret []
  | S k' =>
      let num_images := 153 in
      let batch_size := curr_dim ^ 2 * num_images in
      curr_indices ← PixelSampler.sample_method batch_size num_images curr_dim curr_dim
                       None true;
      rest ← tier_grids k' (curr_dim / 2);
      mret (curr_indices :: rest)
  end.

(** [__init__(num_rays_per_batch, keep_full_image, patch_size=..., num_tiers=...,
    feature_patch_size=...)] *)
Definition init (num_rays_per_batch : Z) (keep_full_image : bool)
    (patch_size num_tiers feature_patch_size : Z) : M tape t :=
  select_idxs ← shuffle (seqZ 0 153);
  q ← lift (floordiv num_rays_per_batch (patch_size ^ 2));
  let num_rays := q * patch_size ^ 2 in
  dh_lst ← anchor_rows (Z.to_nat num_to_select) 720 patch_size;
  dw_lst ← anchor_rows (Z.to_nat num_to_select) 1280 patch_size;
  indices ← tier_grids 4 patch_size;
  mret (Make patch_size num_tiers feature_patch_size select_idxs indices
          dw_lst dh_lst num_rays keep_full_image).

Definition set_num_rays_per_batch (self : t) (num_rays_per_batch : Z) : result t :=
  q ← floordiv num_rays_per_batch (patch_size self ^ 2);
  Ok (set_num_rays (q * patch_size self ^ 2) self).

(** The sampler object and the entropy it draws from. *)
Record world : Type := World { self : t; rng : tape }.

Definition rnd {A} (m : M tape A) : M world A :=
  zoom rng (fun r w => World (self w) r) m.

Definition get_self : M world t := fun w => (Ok (self w), w).

Definition modify_self (f : t -> t) : M world unit :=
  fun w => (Ok tt, World (f (self w)) (rng w)).

(** The loop state of [for index in self.indices]. *)
Record tier_acc : Type := TierAcc {
  curr_dim : Z;
  dw : list Z;
  dh : list Z;
  out : list int2d;
}.

(** One turn of [for index in self.indices]. *)
Definition tier_step (select : list bool) (index : int2d) (a : tier_acc)
  : result tier_acc :=
  curr_dw ← repeat_interleave (curr_dim a ^ 2) (dw a);
  curr_dh ← repeat_interleave (curr_dim a ^ 2) (dh a);
  curr_select ← repeat_interleave (curr_dim a ^ 2) select;
  curr_index ← bool_index index curr_select;
  curr_index ← add_col 1 curr_dh curr_index;
  curr_index ← add_col 2 curr_dw curr_index;
  Ok (TierAcc (curr_dim a / 2) (ceil_half (dw a)) (ceil_half (dh a))
        (out a ++ [curr_index])).

(** [if len(self.select_idxs) < self.num_to_select: ...]: a new shuffled
    rotation of the 153 images. *)
Definition refill_select_idxs : M world unit :=
  s ← get_self;
  if Z.ltb (Z.of_nat (length (select_idxs s))) num_to_select
  then l ← rnd (shuffle (seqZ 0 153)); modify_self (set_select_idxs l)
  else mret tt.

(** [curr_select_idxs = self.select_idxs[:self.num_to_select];
    self.select_idxs = self.select_idxs[self.num_to_select:]] *)
Definition take_select_idxs : M world (list Z) :=
  s ← get_self;
  _ ← modify_self (set_select_idxs (drop (Z.to_nat num_to_select) (select_idxs s)));
  mret (take (Z.to_nat num_to_select) (select_idxs s)).

(** [select = torch.zeros(153, device=self.indices[0].device).to(bool);
    select[curr_select_idxs] = True] *)
Definition make_select (curr_select_idxs : list Z) : M world (list bool) :=
  s ← get_self;
  _ ← lift (match indices s with [] => Raise IndexError | _ => Ok tt end);
  lift (one_hot 153 curr_select_idxs).

(** [if self.dw_lst.shape[1] == 0: ...]: a new column-anchor queue. *)
Definition refill_dw_lst : M world unit :=
  s ← get_self;
  n ← lift (shape1 (dw_lst s));
  if Nat.eqb n 0
  then l ← rnd (anchor_rows (Z.to_nat num_to_select) 1280 (patch_size s));
       modify_self (set_dw_lst l)
  else mret tt.

(** [if self.dh_lst.shape[1] == 0: ...]: a new row-anchor queue. *)
Definition refill_dh_lst : M world unit :=
  s ← get_self;
  n ← lift (shape1 (dh_lst s));
  if Nat.eqb n 0
  then l ← rnd (anchor_rows (Z.to_nat num_to_select) 720 (patch_size s));
       modify_self (set_dh_lst l)
  else mret tt.

(** [dw = self.dw_lst[:,0]; dh = self.dh_lst[:,0];
    self.dw_lst = self.dw_lst[:,1:]; self.dh_lst = self.dh_lst[:,1:]] *)
Definition pop_anchors : M world (list Z * list Z) :=
  s ← get_self;
  dw ← lift (column0 (dw_lst s));
  dh ← lift (column0 (dh_lst s));
  dw_rest ← lift (drop_column0 (dw_lst s));
  _ ← modify_self (set_dw_lst dw_rest);
  dh_rest ← lift (drop_column0 (dh_lst s));
  _ ← modify_self (set_dh_lst dh_rest);
  mret (dw, dh).

(** [for index in self.indices: ...] *)
Definition build_tiers (select : list bool) (dw dh : list Z) : M world (list int2d) :=
  s ← get_self;
  a ← for_each (indices s) (TierAcc (patch_size s) dw dh [])
        (fun index a => lift (tier_step select index a));
  mret (out a).

Definition sample_method (batch_size num_images image_height image_width : Z)
    (mask : option mask_tensor) (all_pixels : bool)
  : M world PixelSampler.sample_out :=
  match mask with
  | Some mask =>
      indices ← rnd (PixelSampler.sample_method batch_size num_images
                       image_height image_width (Some mask) false);
      exit (-1)
  | None =>
      _ ← refill_select_idxs;
      curr_select_idxs ← take_select_idxs;
      select ← make_select curr_select_idxs;
      _ ← refill_dw_lst;
      _ ← refill_dh_lst;
      '(dw_og, dh_og) ← pop_anchors;
      indices ← build_tiers select dw_og dh_og;
      s ← get_self;
      mret (PixelSampler.OutTiers indices dw_og dh_og select (patch_size s))
  end.



(** [k] calls of [sample_method] without a mask, one after the other, with
    what each returned. *)
Fixpoint sample_calls (k : nat) (batch_size num_images image_height image_width : Z)
  : M world (list PixelSampler.sample_out) :=
  match k with
  | O => mret []
  | S k' =>
      o ← sample_method batch_size num_images image_height image_width None false;
      rest ← sample_calls k' batch_size num_images image_height image_width;
      mret (o :: rest)
  end.

(** The row anchors [dh] that a run of calls handed back, in order. *)
Definition row_anchors (outs : list PixelSampler.sample_out) : list Z :=
  o ← outs;
  match o with
  | PixelSampler.OutTiers _ _ dh_og _ _ => dh_og
  | PixelSampler.OutIndices _ => []
  end.


End TieredFeaturePatchPixelSampler.

(** ** Objects: image batches as the samplers see them

    Dictionaries, lists and tensors are objects in a heap, held by
    reference, so that an update in place is seen through every reference
    to the object.  The element type [F] of float tensors and the torch
    operations that only compute a new tensor from float data are
    parameters ([TorchPrims]): they read their arguments and return a new
    tensor or raise. *)

Module Objects.

Section WithFloats.

Context {F : Type}.

Inductive tensor : Type :=
| TFloat (shape : list nat) (data : list F)
| TBool (shape : list nat) (data : list bool)
| TInt (shape : list nat) (data : list Z).

Definition tshape (t : tensor) : list nat :=
  match t with
  | TFloat s _ | TBool s _ | TInt s _ => s
  end.

#[warnings="-register-all"]
Inductive pyval : Type :=
| VNone
| VInt (z : Z)
| VStr (s : string)
| VRef (l : positive)
| VTuple (vs : list pyval).

Inductive obj : Type :=
| OTensor (t : tensor)
| OList (vs : list pyval)
| ODict (kvs : list (string * pyval)).

(** A tensor or an integer read through a value. *)
Inductive arg : Type :=
| AInt (z : Z)
| ATensor (t : tensor).

Class TorchPrims : Type := {
  (** whether a float counts as nonzero *)
  nonzero_f : F -> bool;
  (** [img[ys, xs]] *)
  image_at_pixels : tensor -> list Z -> list Z -> result tensor;
  (** [value[c, y, x]] *)
  value_at_triples : tensor -> list Z -> list Z -> list Z -> result tensor;
  (** [torch.cat(ts, dim=0)] *)
  cat_dim0 : list tensor -> result tensor;
  (** [image_idx[c]], as the integers written into an index column *)
  camera_ids : tensor -> list Z -> result (list Z);
  (** [image[select]] *)
  select_images : tensor -> tensor -> result tensor;
  (** [full[img_idx, dh[img_idx]:dh[img_idx]+xy_dim,
            dw[img_idx]:dw[img_idx]+xy_dim].unsqueeze(0)] *)
  crop_patch : tensor -> Z -> tensor -> tensor -> arg -> result tensor;
  (** the weights computed from the selected patches: reshape, means,
      distance to the mean over images, softmax *)
  patch_weights : tensor -> result tensor;
}.

Context {prims : TorchPrims}.

(** A sampler object of one of the four classes. *)
Inductive sampler : Type :=
| SPixel (num_rays_per_batch : Z) (keep_full_image : bool)
| SEquirectangular (num_rays_per_batch : Z) (keep_full_image : bool)
| SPatch (s : PatchPixelSampler.t)
| STiered (s : TieredFeaturePatchPixelSampler.t).

Definition num_rays_per_batch (s : sampler) : Z :=
  match s with
  | SPixel n _ | SEquirectangular n _ => n
  | SPatch p => PatchPixelSampler.num_rays_per_batch p
  | STiered t => TieredFeaturePatchPixelSampler.num_rays_per_batch t
  end.

Definition keep_full_image (s : sampler) : bool :=
  match s with
  | SPixel _ k | SEquirectangular _ k => k
  | SPatch p => PatchPixelSampler.keep_full_image p
  | STiered t => TieredFeaturePatchPixelSampler.keep_full_image t
  end.

Record world : Type := World {
  heap : gmap positive obj;
  self : sampler;
  rng : tape;
}.

Definition rnd {A} (m : M tape A) : M world A :=
  zoom rng (fun r w => World (heap w) (self w) r) m.

(** *** Heap access *)

Definition alloc (o : obj) : M world positive :=
  fun w =>
    let l := fresh (dom (heap w)) in
    (Ok l, World (<[l := o]> (heap w)) (self w) (rng w)).

(** A reference always points to an object; a dangling one, which no heap
    built by [alloc] has, raises. *)
Definition load (l : positive) : M world obj :=
  fun w =>
    match heap w !! l with
    | Some o => (Ok o, w)
    | None => (Raise RuntimeError, w)
    end.

Definition store (l : positive) (o : obj) : M world unit :=
  fun w => (Ok tt, World (<[l := o]> (heap w)) (self w) (rng w)).

Definition load_tensor (v : pyval) : M world tensor :=
  match v with
  | VRef l =>
      o ← load l;
      match o with
      | OTensor t => mret t
      | _ => raise TypeError
      end
  | _ => raise TypeError
  end.

(** [v.shape], [v.device]: attributes that only a tensor has. *)
Definition tensor_attr (v : pyval) : M world tensor :=
  match v with
  | VRef l =>
      o ← load l;
      match o with
      | OTensor t => mret t
      | _ => raise AttributeError
      end
  | _ => raise AttributeError
  end.

Definition load_arg (v : pyval) : M world arg :=
  match v with
  | VInt z => mret (AInt z)
  | _ => t ← load_tensor v; mret (ATensor t)
  end.

(** *** Dictionaries *)

Fixpoint assoc_lookup (k : string) (d : list (string * pyval)) : option pyval :=
  match d with
  | [] => None
  | (k', v) :: d' => if String.eqb k k' then Some v else assoc_lookup k d'
  end.

Fixpoint assoc_set (k : string) (v : pyval) (d : list (string * pyval))
  : list (string * pyval) :=
  match d with
  | [] => [(k, v)]
  | (k', v') :: d' =>
      if String.eqb k k' then (k, v) :: d' else (k', v') :: assoc_set k v d'
  end.

Definition load_dict (l : positive) : M world (list (string * pyval)) :=
  o ← load l;
  match o with
  | ODict kvs => mret kvs
  | _ => raise TypeError
  end.

(** [d[k]] *)
Definition dict_get (d : positive) (k : string) : M world pyval :=
  kvs ← load_dict d;
  match assoc_lookup k kvs with
  | Some v => mret v
  | None => raise KeyError
  end.

(** [k in d] *)
Definition dict_has (d : positive) (k : string) : M world bool :=
  kvs ← load_dict d;
  mret (bool_decide (is_Some (assoc_lookup k kvs))).

(** [d[k] = v] *)
Definition dict_set (d : positive) (k : string) (v : pyval) : M world unit :=
  kvs ← load_dict d;
  store d (ODict (assoc_set k v kvs)).

(** *** Index tensors as objects *)

Definition tensor_of_int2d (t : int2d) : tensor :=
  TInt [length (rows t); ncols t] (mjoin (rows t)).

Fixpoint chunks {A} (k : nat) (n : nat) (l : list A) : list (list A) :=
  match n with
  | O => []
  | S n' => take k l :: chunks k n' (drop k l)
  end.

(** Read an integer tensor of rank 2 back as rows. *)
Definition int2d_of_tensor (t : tensor) : result int2d :=
  match t with
  | TInt [n; k] data => Ok (Int2d k (chunks k n data))
  | _ => Raise TypeError
  end.

(** The truth values of a tensor used as a mask. *)
Definition mask_of_tensor (t : tensor) : mask_tensor :=
  match t with
  | TBool s d => MaskTensor s d
  | TInt s d => MaskTensor s ((fun z => negb (Z.eqb z 0)) <$> d)
  | TFloat s d => MaskTensor s (nonzero_f <$> d)
  end.

(** [isinstance(mask, torch.Tensor)], with the tensor when it is one. *)
Definition as_mask (v : pyval) : M world (option mask_tensor) :=
  match v with
  | VRef l =>
      o ← load l;
      match o with
      | OTensor t => mret (Some (mask_of_tensor t))
      | _ => mret None
      end
  | _ => mret None
  end.

(** *** self.sample_method: dispatch on the class of [self] *)

Definition alloc_tensor (t : tensor) : M world pyval :=
  l ← alloc (OTensor t); mret (VRef l).

Definition alloc_out (o : PixelSampler.sample_out) : M world pyval :=
  match o with
  | PixelSampler.OutIndices t => alloc_tensor (tensor_of_int2d t)
  | PixelSampler.OutTiers idx dw dh select xy_dim =>
      vs ← mapM (fun t => alloc_tensor (tensor_of_int2d t)) idx;
      l ← alloc (OList vs);
      vdw ← alloc_tensor (TInt [length dw] dw);
      vdh ← alloc_tensor (TInt [length dh] dh);
      vsel ← alloc_tensor (TBool [length select] select);
      mret (VTuple [VRef l; vdw; vdh; vsel; VInt xy_dim])
  end.

(** [all_pixels] is [None] when the call does not pass the keyword. *)
Definition sample_method (batch_size num_images image_height image_width : Z)
    (mask : option mask_tensor) (all_pixels : option bool) : M world pyval :=
  fun w =>
    match self w with
    | SPixel _ _ =>
        (t ← rnd (PixelSampler.sample_method batch_size num_images image_height
                    image_width mask (default false all_pixels));
         alloc_out (PixelSampler.OutIndices t)) w
    | SEquirectangular _ _ =>
        match all_pixels with
        | Some _ => (Raise TypeError, w)
        | None =>
            (t ← rnd (EquirectangularPixelSampler.sample_method batch_size num_images
                        image_height image_width mask);
             alloc_out (PixelSampler.OutIndices t)) w
        end
    | SPatch p =>
        (t ← rnd (PatchPixelSampler.sample_method p batch_size num_images image_height
                    image_width mask (default false all_pixels));
         alloc_out (PixelSampler.OutIndices t)) w
    | STiered s =>
        let '(r, tw) :=
          TieredFeaturePatchPixelSampler.sample_method batch_size num_images
            image_height image_width mask (default false all_pixels)
            (TieredFeaturePatchPixelSampler.World s (rng w)) in
        let w' := World (heap w) (STiered (TieredFeaturePatchPixelSampler.self tw))
                    (TieredFeaturePatchPixelSampler.rng tw) in
        match r with
        | Ok o => alloc_out o w'
        | Raise e => (Raise e, w')
        end
    end.

(** *** Unpacking and tensor access *)

(** The rows of a tensor, as iteration over it yields them. *)
Definition tensor_rows (t : tensor) : result (list tensor) :=
  match t with
  | TFloat (n :: s) d => Ok (TFloat s <$> chunks (numel s) n d)
  | TBool (n :: s) d => Ok (TBool s <$> chunks (numel s) n d)
  | TInt (n :: s) d => Ok (TInt s <$> chunks (numel s) n d)
  | _ => Raise TypeError
  end.

(** The items iteration over a value yields. *)
Definition iterate (v : pyval) : M world (list pyval) :=
  match v with
  | VTuple vs => mret vs
  | VRef l =>
      o ← load l;
      match o with
      | OTensor t => ts ← lift (tensor_rows t); mapM alloc_tensor ts
      | OList vs => mret vs
      | ODict kvs => mret ((fun kv : string * pyval => VStr kv.1) <$> kvs)
      end
  | _ => raise TypeError
  end.

(** [a, b, c, d, e = v] *)
Definition unpack5 (v : pyval) : M world (pyval * pyval * pyval * pyval * pyval) :=
  vs ← iterate v;
  match vs with
  | [a; b; c; d; e] => mret (a, b, c, d, e)
  | _ => raise ValueError
  end.

(** [t.shape[0]] *)
Definition shape0 (t : tensor) : result nat :=
  match tshape t with
  | n :: _ => Ok n
  | [] => Raise IndexError
  end.

(** [indices[:, j]] *)
Definition column (j : nat) (t : int2d) : result (list Z) :=
  if Nat.ltb j (ncols t) then Ok ((fun r => default 0 (r !! j)) <$> rows t)
  else Raise IndexError.

(** The tensor after [t[:, j] = v]. *)
Definition set_column (j : nat) (v : list Z) (t : int2d) : result int2d :=
  if negb (Nat.ltb j (ncols t)) then Raise IndexError
  else if Nat.eqb (length v) (length (rows t))
  then Ok (Int2d (ncols t)
             ((fun p : list Z * Z => <[j := p.2]> p.1) <$> zip (rows t) v))
  else match v with
       | [x] => Ok (Int2d (ncols t) (<[j := x]> <$> rows t))
       | _ => Raise RuntimeError
       end.

(** [indices[:, j] = v], in place on the object [indices]. *)
Definition set_column_inplace (indices : pyval) (j : nat) (v : list Z) : M world unit :=
  match indices with
  | VRef l =>
      o ← load l;
      match o with
      | OTensor t =>
          t2 ← lift (int2d_of_tensor t);
          t2' ← lift (set_column j v t2);
          store l (OTensor (tensor_of_int2d t2'))
      | _ => raise TypeError
      end
  | _ => raise TypeError
  end.

Definition load_int2d (v : pyval) : M world int2d :=
  t ← load_tensor v; lift (int2d_of_tensor t).

(** [torch.cat(ts, dim=0)] of index tensors. *)
Definition cat_rows (ts : list int2d) : result int2d :=
  match ts with
  | [] => Raise RuntimeError
  | t0 :: _ =>
      if forallb (fun t => Nat.eqb (ncols t) (ncols t0)) ts
      then Ok (Int2d (ncols t0) (mjoin (rows <$> ts)))
      else Raise RuntimeError
  end.

(** [x[i]] for a list object or a tensor. *)
Definition item (v : pyval) (i : nat) : M world pyval :=
  match v with
  | VRef l =>
      o ← load l;
      match o with
      | OList vs =>
          match vs !! i with
          | Some x => mret x
          | None => raise IndexError
          end
      | OTensor t =>
          ts ← lift (tensor_rows t);
          match ts !! i with
          | Some x => alloc_tensor x
          | None => raise IndexError
          end
      | ODict _ => raise KeyError
      end
  | VTuple vs =>
      match vs !! i with
      | Some x => mret x
      | None => raise IndexError
      end
  | _ => raise TypeError
  end.

(** [len(x)] *)
Definition len (v : pyval) : M world nat :=
  match v with
  | VRef l =>
      o ← load l;
      match o with
      | OList vs => mret (length vs)
      | OTensor t => lift (match shape0 t with Ok n => Ok n | Raise _ => Raise TypeError end)
      | ODict kvs => mret (length kvs)
      end
  | VTuple vs => mret (length vs)
  | VStr s => mret (String.length s)
  | _ => raise TypeError
  end.

(** *** PixelSampler.collate_image_dataset_batch *)

Definition shape4 (t : tensor) : result (nat * nat * nat * nat) :=
  match tshape t with
  | [a; b; c; d] => Ok (a, b, c, d)
  | _ => Raise ValueError
  end.

Definition shape3 (t : tensor) : result (nat * nat * nat) :=
  match tshape t with
  | [a; b; c] => Ok (a, b, c)
  | _ => Raise ValueError
  end.

(** The names bound by the five-way unpacking of the unmasked branch. *)
Record side_channel : Type := SideChannel {
  sc_dw : pyval;
  sc_dh : pyval;
  sc_select : pyval;
  sc_xy_dim : pyval;
}.

(** The body of [if keep_full_image:]. *)
Definition collate_full_image (batch collated_batch : positive) (sc : side_channel)
  : M world unit :=
  image ← dict_get batch "image";
  image ← load_tensor image;
  select ← load_tensor (sc_select sc);
  full ← lift (select_images image select);
  full ← alloc_tensor full;
  _ ← dict_set collated_batch "full_image" full;
  dh ← tensor_attr (sc_dh sc);
  n ← lift (shape0 dh);
  image_arr ← for_each (seq 0 n) []
    (fun img_idx image_arr =>
       full ← dict_get collated_batch "full_image";
       full ← load_tensor full;
       dw ← load_tensor (sc_dw sc);
       xy_dim ← load_arg (sc_xy_dim sc);
       patch ← lift (crop_patch full (Z.of_nat img_idx) dh dw xy_dim);
       mret (image_arr ++ [patch]));
  full ← lift (cat_dim0 image_arr);
  vfull ← alloc_tensor full;
  _ ← dict_set collated_batch "full_image" vfull;
  m ← lift (patch_weights full);
  vm ← alloc_tensor m;
  dict_set collated_batch "patch_weights" vm.

(** The sampling step: with a ["mask"] entry the masked draw, the result
    bound to [indices] alone; otherwise ([elif "time_mask" in batch and
    False] is never taken) the [all_pixels] call and its five-way unpacking. *)
Definition collate_sample (batch : positive)
    (num_rays_per_batch num_images image_height image_width : Z)
  : M world (pyval * option side_channel) :=
  has_mask ← dict_has batch "mask";
  if has_mask : bool
  then
    mask ← dict_get batch "mask";
    mask ← as_mask mask;
    indices ← sample_method num_rays_per_batch num_images image_height image_width
                mask None;
    mret (indices, None)
  else
    r ← sample_method num_rays_per_batch num_images image_height image_width
          None (Some true);
    '(indices, dw, dh, select, xy_dim) ← unpack5 r;
    mret (indices, Some (SideChannel dw dh select xy_dim)).

(** From [collated_batch = {}] to the end. *)
Definition collate_finish (batch : positive) (keep_full_image : bool)
    (indices : pyval) (sc : option side_channel) : M world pyval :=
  collated_batch ← alloc (ODict []);
  _ ← dict_set collated_batch "indices" indices;
  _ ← (if keep_full_image
       then match sc with
            | Some sc => collate_full_image batch collated_batch sc
            | None => raise NameError
            end
       else mret tt);
  mret (VRef collated_batch).

Definition collate_image_dataset_batch (batch : positive) (num_rays_per_batch : Z)
    (keep_full_image : bool) : M world pyval :=
  image ← dict_get batch "image";
  image ← tensor_attr image;
  '(num_images, image_height, image_width, _) ← lift (shape4 image);
  let num_rays_per_batch := Z.of_nat image_height * Z.of_nat image_width in
  '(indices, sc) ← collate_sample batch num_rays_per_batch (Z.of_nat num_images)
                     (Z.of_nat image_height) (Z.of_nat image_width);
  collate_finish batch keep_full_image indices sc.

(** *** PixelSampler.collate_image_dataset_batch_list *)

(** The loop state of [for i in range(num_images)]. *)
Record list_acc : Type := ListAcc {
  num_rays_in_batch : Z;
  all_indices : list pyval;
  all_images : list tensor;
}.

(** One turn of [for i in range(num_images)]; [has_mask] tells the branch. *)
Definition collate_list_step (batch : positive) (has_mask : bool)
    (num_rays_per_batch : Z) (num_images : nat) (i : nat) (a : list_acc)
  : M world list_acc :=
  images ← dict_get batch "image";
  img ← item images i;
  img ← tensor_attr img;
  '(image_height, image_width, _) ← lift (shape3 img);
  let num_rays_in_batch :=
    if Z.eqb (Z.of_nat i) (Z.of_nat num_images - 1)
    then num_rays_per_batch - (Z.of_nat num_images - 1) * num_rays_in_batch a
    else num_rays_in_batch a in
  mask ← (if has_mask
          then masks ← dict_get batch "mask";
               mask ← item masks i;
               as_mask mask
          else mret None);
  indices ← sample_method num_rays_in_batch 1 (Z.of_nat image_height)
              (Z.of_nat image_width) mask None;
  _ ← set_column_inplace indices 0 [Z.of_nat i];
  idx ← load_int2d indices;
  ys ← lift (column 1 idx);
  xs ← lift (column 2 idx);
  pixels ← lift (image_at_pixels img ys xs);
  mret (ListAcc num_rays_in_batch (all_indices a ++ [indices]) (all_images a ++ [pixels])).

(** The dictionary comprehension [{key: value[c, y, x] for key, value in
    batch.items() if ...}]. *)
Fixpoint collate_entries (kvs : list (string * pyval)) (c y x : list Z)
  : M world (list (string * pyval)) :=
  match kvs with
  | [] => mret []
  | (key, value) :: kvs' =>
      if negb (String.eqb key "image_idx") && negb (String.eqb key "image")
         && negb (String.eqb key "mask")
         && negb (match value with VNone => true | _ => false end)
      then
        t ← load_tensor value;
        r ← lift (value_at_triples t c y x);
        v ← alloc_tensor r;
        rest ← collate_entries kvs' c y x;
        mret ((key, v) :: rest)
      else collate_entries kvs' c y x
  end.

Definition collate_image_dataset_batch_list (batch : positive) (num_rays_per_batch : Z)
    (keep_full_image : bool) : M world pyval :=
  images ← dict_get batch "image";
  first ← item images 0;
  _ ← tensor_attr first;
  num_images ← len images;
  has_mask ← dict_has batch "mask";
  q ← lift (floordiv num_rays_per_batch (Z.of_nat num_images));
  a ← for_each (seq 0 num_images) (ListAcc q [] [])
        (collate_list_step batch has_mask num_rays_per_batch num_images);
  ts ← mapM load_int2d (all_indices a);
  indices ← lift (cat_rows ts);
  vindices ← alloc_tensor (tensor_of_int2d indices);
  '(c, y, x) ← lift (if Nat.eqb (ncols indices) 3
                     then c ← column 0 indices;
                          y ← column 1 indices;
                          x ← column 2 indices;
                          Ok (c, y, x)
                     else Raise ValueError);
  kvs ← load_dict batch;
  entries ← collate_entries kvs c y x;
  collated_batch ← alloc (ODict entries);
  image ← lift (cat_dim0 (all_images a));
  vimage ← alloc_tensor image;
  _ ← dict_set collated_batch "image" vimage;
  n ← lift (shape0 image);
  _ ← (if Z.eqb (Z.of_nat n) num_rays_per_batch then mret tt else raise AssertionError);
  image_idx ← dict_get batch "image_idx";
  image_idx ← load_tensor image_idx;
  ids ← lift (camera_ids image_idx c);
  _ ← set_column_inplace vindices 0 ids;
  _ ← dict_set collated_batch "indices" vindices;
  _ ← (if keep_full_image
       then images ← dict_get batch "image";
            dict_set collated_batch "full_image" images
       else mret tt);
  mret (VRef collated_batch).

(** *** PixelSampler.sample *)

(** The runtime type of a value, as [isinstance] tells it. *)
Inductive kind : Type := KList | KTensor | KOther.

Definition kind_of (v : pyval) : M world kind :=
  match v with
  | VRef l =>
      o ← load l;
      match o with
      | OList _ => mret KList
      | OTensor _ => mret KTensor
      | ODict _ => mret KOther
      end
  | _ => mret KOther
  end.

Definition get_self : M world sampler := fun w => (Ok (self w), w).

Definition sample (image_batch : positive) : M world pyval :=
  image ← dict_get image_batch "image";
  k ← kind_of image;
  s ← get_self;
  match k with
  | KList =>
      kvs ← load_dict image_batch;
      image_batch ← alloc (ODict kvs);
      collate_image_dataset_batch_list image_batch (num_rays_per_batch s)
        (keep_full_image s)
  | KTensor =>
      collate_image_dataset_batch image_batch (num_rays_per_batch s)
        (keep_full_image s)
  | KOther => raise ValueError
  end.

End WithFloats.


Arguments tensor : clear implicits.
Arguments obj : clear implicits.
Arguments arg : clear implicits.
Arguments TorchPrims : clear implicits.
Arguments world : clear implicits.

(** *** What a computation leaves alone *)

Section Frame.

Context {F : Type}.

(** Every object of [h0] is in the heap of [w], as it was. *)
Definition kept (h0 : gmap positive (obj F)) (w : world F) : Prop :=
  h0 ⊆ heap w.

(** From a world that kept the objects of [h0], [m] ends, returning or
    raising, in a world that kept them, and what it returns satisfies [Q]. *)
Definition keeps {A} (h0 : gmap positive (obj F)) (m : M (world F) A)
    (Q : A -> Prop) : Prop :=
  forall w, kept h0 w -> kept h0 (m w).2 /\ forall a, (m w).1 = Ok a -> Q a.

(** A value that refers to no object of [h0]. *)
Definition fresh_for (h0 : gmap positive (obj F)) (v : pyval) : Prop :=
  forall l, v = VRef l -> h0 !! l = None.

End Frame.

(** Float tensors whose entries carry no data, with operations that all
    raise: enough to run the paths that reach none of them. *)
Definition data_free_prims : TorchPrims unit :=
  {| nonzero_f := fun _ => true;
     image_at_pixels := fun _ _ _ => Raise RuntimeError;
     value_at_triples := fun _ _ _ _ => Raise RuntimeError;
     cat_dim0 := fun _ => Raise RuntimeError;
     camera_ids := fun _ _ => Raise RuntimeError;
     select_images := fun _ _ => Raise RuntimeError;
     crop_patch := fun _ _ _ _ _ => Raise RuntimeError;
     patch_weights := fun _ => Raise RuntimeError |}.

(** An image batch of two images of 4 x 4 pixels and three channels, with
    no mask, at location 1, and a PixelSampler to sample it. *)
Definition two_images_4x4 : world unit :=
  World (<[1%positive := ODict [("image"%string, VRef 2%positive)]]>
           (<[2%positive := OTensor (TFloat [2; 4; 4; 3]%nat (replicate 96 tt))]> ∅))
        (SPixel 4096 true) [].

End Objects.

(** ** class KPlanesModel: regularisation schedule *)

Module KPlanesModel.

(** The fields of the model that [get_loss_dict] updates.  The multipliers
    are Python floats that are only doubled and compared, which is exact,
    so they are rationals here. *)
Record state : Type := State {
  cosine_idx : Z;
  vol_tv_mult : Q;
  conv_vol_tv_mult : Q;
  conv_switch : Z;
  conv_train_bool : bool;
  conv_train_idx : Z;
}.

(** The values [populate_modules] sets. *)
Definition populate_modules : state :=
  State 0 (1 # 10000)%Q (1 # 10000)%Q 500 false 0.

(** [np.clip(x, lo, hi)] *)
Definition clip (x lo hi : Q) : Q := Qmin (Qmax x lo) hi.

(** [get_loss_dict], as far as it updates the fields above.  [training] is
    [self.training]; [loss_terms] is the outcome of the tensor computations
    of the loss terms, which come after the update of [conv_train_idx] and
    before the update of the multipliers, and may raise. *)
Definition get_loss_dict (training : bool) (loss_terms : result unit) : M state unit :=
  s ← get;
  let idx := cosine_idx s + 1 in
  _ ← put (State idx (vol_tv_mult s) (conv_vol_tv_mult s) (conv_switch s)
             (conv_train_bool s) (conv_train_idx s));
  if training
  then
    s ← get;
    let train_idx := (conv_train_idx s + 1) `mod` conv_switch s in
    let flip := Z.eqb train_idx 0 in
    let switch :=
      if flip then (if Z.eqb (conv_switch s) 500 then 100 else 500) else conv_switch s in
    let train_bool :=
      if flip then negb (conv_train_bool s) else conv_train_bool s in
    _ ← put (State idx (vol_tv_mult s) (conv_vol_tv_mult s) switch train_bool train_idx);
    _ ← lift loss_terms;
    s ← get;
    if Z.eqb (cosine_idx s `mod` 3000) 0
    then put (State (cosine_idx s)
                (clip (vol_tv_mult s * 2) 0 (1 # 100))%Q
                (clip (conv_vol_tv_mult s * 2) 0 (1 # 100))%Q
                (conv_switch s) (conv_train_bool s) (conv_train_idx s))
    else mret tt
  else mret tt.

(** The states a model can be in: after [populate_modules], and after any
    call of [get_loss_dict], returned or raised. *)
Inductive reachable : state -> Prop :=
| reach_init : reachable populate_modules
| reach_step s training loss_terms :
    reachable s ->
    reachable (get_loss_dict training loss_terms s).2.

End KPlanesModel.

(** ** class KPlanesModel: per-camera pose correction

    Float tensors are idealised as tensors of real numbers. *)

Module PoseCorrection.

#[local] Open Scope R_scope.

Definition vec3 : Type := R * R * R.
Definition mat3 : Type := vec3 * vec3 * vec3.

(** A tensor of shape [3, 3, N]: nine vectors of length [N]. *)
Definition stacked : Type :=
  (list R * list R * list R) * (list R * list R * list R) * (list R * list R * list R).

(** [torch.clip(x, lo, hi)] on one entry *)
Definition clip (x lo hi : R) : R := Rmin (Rmax x lo) hi.

Definition clip_vec3 (v : vec3) (lo hi : R) : vec3 :=
  (clip v.1.1 lo hi, clip v.1.2 lo hi, clip v.2 lo hi).

(** The learned angles, a tensor of shape [3, N]: [angs[0]], [angs[1]] and
    [angs[2]]. *)
Record angles : Type := Angles { roll : list R; yaw : list R; pitch : list R }.

Definition clip_angles (a : angles) (lo hi : R) : angles :=
  Angles ((fun x => clip x lo hi) <$> roll a) ((fun x => clip x lo hi) <$> yaw a)
         ((fun x => clip x lo hi) <$> pitch a).

Definition zeros_like (v : list R) : list R := (fun _ => 0) <$> v.
Definition ones_like (v : list R) : list R := (fun _ => 1) <$> v.

(** [t.permute(2, 0, 1)]: from shape [3, 3, N] to [N, 3, 3]. *)
Definition permute_201 (n : nat) (t : stacked) : list mat3 :=
  (fun k =>
     let e v := nth k v 0 in
     ((e t.1.1.1.1, e t.1.1.1.2, e t.1.1.2),
      (e t.1.2.1.1, e t.1.2.1.2, e t.1.2.2),
      (e t.2.1.1, e t.2.1.2, e t.2.2))) <$> seq 0 n.

Definition dot (a b : vec3) : R := a.1.1 * b.1.1 + a.1.2 * b.1.2 + a.2 * b.2.

Definition mat_col (j : nat) (m : mat3) : vec3 :=
  let e (v : vec3) := match j with O => v.1.1 | S O => v.1.2 | _ => v.2 end in
  (e m.1.1, e m.1.2, e m.2).

(** [torch.matmul] of a matrix and a column vector *)
Definition mat_vec (m : mat3) (v : vec3) : vec3 :=
  (dot m.1.1 v, dot m.1.2 v, dot m.2 v).

(** [torch.matmul] of two matrices *)
Definition matmul (a b : mat3) : mat3 :=
  let r (v : vec3) := (dot v (mat_col 0 b), dot v (mat_col 1 b), dot v (mat_col 2 b)) in
  (r a.1.1, r a.1.2, r a.2).

(** [get_rot_mat_torch(angs)].  The tensors have one entry per camera, 153
    of them, so [squeeze()] removes no dimension. *)
Definition get_rot_mat_torch (angs : angles) : list mat3 :=
  let roll := roll angs in
  let yaw := yaw angs in
  let pitch := pitch angs in
  let n := length roll in
  let rz : stacked :=
    ((cos <$> roll, (fun x => - sin x) <$> roll, zeros_like roll),
     (sin <$> roll, cos <$> roll, zeros_like roll),
     (zeros_like roll, zeros_like roll, ones_like roll)) in
  let ry : stacked :=
    ((cos <$> yaw, zeros_like roll, sin <$> yaw),
     (zeros_like roll, ones_like roll, zeros_like roll),
     ((fun x => - sin x) <$> yaw, zeros_like roll, cos <$> yaw)) in
  let rx : stacked :=
    ((ones_like roll, zeros_like roll, zeros_like roll),
     (zeros_like roll, cos <$> pitch, (fun x => - sin x) <$> pitch),
     (zeros_like roll, sin <$> pitch, cos <$> pitch)) in
  let rz := permute_201 n rz in
  let ry := permute_201 n ry in
  let rx := permute_201 n rx in
  zip_with matmul rz (zip_with matmul ry rx).

(** A float tensor of shape [N, 3], or one of shape [3]. *)
Inductive dirs : Type :=
| Rows (l : list vec3)
| One (v : vec3).

(** The rays of a bundle that [get_outputs] reads and rewrites: origins of
    shape [N, 3], directions, camera indices of shape [N, 1]. *)
Record RayBundle : Type := MkRayBundle {
  origins : list vec3;
  directions : dirs;
  camera_indices : list Z;
}.

(** [t[i]] along dimension 0, with Python's negative indices. *)
Definition index0 {A} (t : list A) (i : Z) : result A :=
  let n := Z.of_nat (length t) in
  if (Z.leb (- n) i && Z.ltb i n)%Z
  then match t !! Z.to_nat (i `mod` n) with
       | Some x => Ok x
       | None => Raise IndexError
       end
  else Raise IndexError.

Definition vadd (a b : vec3) : vec3 := (a.1.1 + b.1.1, a.1.2 + b.1.2, a.2 + b.2).

(** An operation on two batches, with the broadcasting of the batch
    dimension: equal sizes go entry by entry, a batch of one (also with
    its dimension squeezed away) is repeated, other sizes raise. *)
Definition broadcast {A B C} (f : A -> B -> C) (xs : list A) (ys : list B)
    : result (list C) :=
  if Nat.eqb (length xs) (length ys) then Ok (zip_with f xs ys)
  else match xs, ys with
       | [x], _ => Ok (f x <$> ys)
       | _, [y] => Ok ((fun x => f x y) <$> xs)
       | _, _ => Raise RuntimeError
       end.

(** [t.squeeze()] of a tensor of shape [N, 3, 1]: shape [N, 3], and shape
    [3] when [N] is 1. *)
Definition squeeze (t : list vec3) : dirs :=
  match t with
  | [v] => One v
  | _ => Rows t
  end.

(** The pose correction at the head of [get_outputs]: the ray bundle with
    its origins and directions rewritten.  [camera_indices.squeeze()]
    leaves a list of indices, or a single index whose matrix and delta
    broadcast like a batch of one. *)
Definition get_outputs_rays (rot_angs : angles) (pos_diff : list vec3)
    (ray_bundle : RayBundle) : result RayBundle :=
  let R := get_rot_mat_torch (clip_angles rot_angs (-0.01) 0.01) in
  selected_R ← mapM (index0 R) (camera_indices ray_bundle);
  new_dirs ← match directions ray_bundle with
             | Rows ds => broadcast mat_vec selected_R ds
             | One d => Ok ((fun m => mat_vec m d) <$> selected_R)
             end;
  selected_delts ← mapM (index0 pos_diff) (camera_indices ray_bundle);
  new_origins ← broadcast vadd (origins ray_bundle)
                  ((fun d => clip_vec3 d (-0.2) 0.2) <$> selected_delts);
  Ok (MkRayBundle new_origins (squeeze new_dirs) (camera_indices ray_bundle)).

(** The rotation of one camera written out: [Rz(roll) Ry(yaw) Rx(pitch)]. *)
Definition rot_z (a : R) : mat3 := ((cos a, - sin a, 0), (sin a, cos a, 0), (0, 0, 1)).
Definition rot_y (a : R) : mat3 := ((cos a, 0, sin a), (0, 1, 0), (- sin a, 0, cos a)).
Definition rot_x (a : R) : mat3 := ((1, 0, 0), (0, cos a, - sin a), (0, sin a, cos a)).
Definition rotation (roll yaw pitch : R) : mat3 :=
  matmul (rot_z roll) (matmul (rot_y yaw) (rot_x pitch)).

End PoseCorrection.

(** ** class KPlanesModel: schedules over the training steps *)

Module Schedules.

(** [n] training-mode calls of [get_loss_dict], one after the other;
    [loss_terms k] is the outcome of the loss terms in call [k]. *)
Fixpoint training_calls (n : nat) (loss_terms : nat -> result unit)
    (s : KPlanesModel.state) : KPlanesModel.state :=
  match n with
  | O => s
  | S n' =>
      (KPlanesModel.get_loss_dict true (loss_terms n')
         (training_calls n' loss_terms s)).2
  end.

#[local] Open Scope Q_scope.

(** [np.interp(x, [x0, x1], [y0, y1])] for [x0 < x1]: [y0] up to [x0],
    [y1] from [x1] on, the chord in between. *)
Definition interp (x x0 x1 y0 y1 : Q) : Q :=
  if Qle_bool x x0 then y0
  else if Qle_bool x1 x then y1
  else (y1 - y0) / (x1 - x0) * (x - x0) + y0.

(** [update_schedule(step)] of [populate_modules], for the configured
    [proposal_warmup] and [proposal_update_every]. *)
Definition update_schedule (proposal_warmup proposal_update_every : Q) (step : Q) : Q :=
  KPlanesModel.clip (interp step 0 proposal_warmup 0 proposal_update_every)
    1 proposal_update_every.

End Schedules.

(** ** class TieredFeaturePatchPixelSampler: what a call hands back *)

Module TieredLayout.

(** The pixels of the square of side [d] of image [c] whose first row is
    [a] and first column [x], row by row. *)
Definition block (c a x d : Z) : list (list Z) :=
  r ← seqZ 0 d;
  k ← seqZ 0 d;
  [[c; a + r; x + k]].

(** The [k] tiers of a patch: side and anchors halved from tier to tier,
    the anchors rounded up, the side rounded down. *)
Fixpoint tier_blocks (k : nat) (c a x d : Z) : list int2d :=
  match k with
  | O => []
  | S k' => Int2d 3 (block c a x d) :: tier_blocks k' c ((a + 1) / 2) ((x + 1) / 2) (d / 2)
  end.

(** The five-tuple for image [c], row anchor [a] and column anchor [x]. *)
Definition patch_out (p c a x : Z) : PixelSampler.sample_out :=
  PixelSampler.OutTiers (tier_blocks 4 c a x p) [x] [a]
    (<[Z.to_nat c := true]> (replicate 153 false)) p.

(** The grids [self.indices] that [__init__] builds. *)
Fixpoint init_grids (k : nat) (d : Z) : list int2d :=
  match k with
  | O => []
  | S k' => Int2d 3 (PixelSampler.index_space 153 d d) :: init_grids k' (d / 2)
  end.

(** What holds of a sampler built with a patch size between 8 and 360,
    between two calls. *)
Record built (s : TieredFeaturePatchPixelSampler.t) : Prop := Built {
  built_patch : 8 <= TieredFeaturePatchPixelSampler.patch_size s <= 360;
  built_grids :
    TieredFeaturePatchPixelSampler.indices s
    = init_grids 4 (TieredFeaturePatchPixelSampler.patch_size s);
  built_select_range :
    Forall (fun c => 0 <= c < 153) (TieredFeaturePatchPixelSampler.select_idxs s);
  built_dw : exists rw,
    TieredFeaturePatchPixelSampler.dw_lst s = [rw]
    /\ Forall (fun x => 0 <= x /\ x + TieredFeaturePatchPixelSampler.patch_size s < 1280) rw;
  built_dh : exists rh,
    TieredFeaturePatchPixelSampler.dh_lst s = [rh]
    /\ Forall (fun a => 0 <= a /\ a + TieredFeaturePatchPixelSampler.patch_size s < 720) rh;
}.

(** The sampler after [k] unmasked calls, returned or raised. *)
Fixpoint after_calls (k : nat) (batch_size num_images image_height image_width : Z)
    (w : TieredFeaturePatchPixelSampler.world) : TieredFeaturePatchPixelSampler.world :=
  match k with
  | O => w
  | S k' =>
      (TieredFeaturePatchPixelSampler.sample_method batch_size num_images
         image_height image_width None false
         (after_calls k' batch_size num_images image_height image_width w)).2
  end.



End TieredLayout.

(** ** Properties *)

(** *** Monad plumbing *)

Lemma bind_ok {S A B} (m : M S A) (k : A -> M S B) s a s' :
  m s = (Ok a, s') -> (m ≫= k) s = k a s'.
Proof. intros H. unfold mbind, M_bind, Py.bind. now rewrite H. Qed.

Lemma bind_raise {S A B} (m : M S A) (k : A -> M S B) s e s' :
  m s = (Raise e, s') -> (m ≫= k) s = (Raise e, s').
Proof. intros H. unfold mbind, M_bind, Py.bind. now rewrite H. Qed.

(** *** PatchPixelSampler: rounding of the ray budget *)

Lemma floordiv_ok a b : b <> 0 -> floordiv a b = Ok (a / b).
Proof. intros H. unfold floordiv. now destruct (Z.eqb_spec b 0). Qed.

Lemma round_down_bounds (n k : Z) :
  0 < k -> (k | n / k * k) /\ n / k * k <= n < n / k * k + k.
Proof.
  intros Hk. split.
  - apply Z.divide_factor_r.
  - pose proof (Z.mul_div_le n k Hk). pose proof (Z.mul_succ_div_gt n k Hk). lia.
Qed.

(** C8: a PatchPixelSampler built with [num_rays_per_batch = n] stores
    [floor(n / patch_size^2) * patch_size^2], the largest multiple of
    [patch_size^2] that is at most [n], and so does every later
    [set_num_rays_per_batch(m)] with [m]; with [patch_size = 2] and
    [n = 10] the stored value is 8. *)
Theorem patch_num_rays_rounded (n m p : Z) (keep : bool) :
  p <> 0 ->
  exists s s',
    PatchPixelSampler.init n keep p = Ok s
    /\ PatchPixelSampler.patch_size s = p
    /\ PatchPixelSampler.num_rays_per_batch s = n / p ^ 2 * p ^ 2
    /\ (p ^ 2 | PatchPixelSampler.num_rays_per_batch s)
    /\ PatchPixelSampler.num_rays_per_batch s <= n
         < PatchPixelSampler.num_rays_per_batch s + p ^ 2
    /\ PatchPixelSampler.set_num_rays_per_batch s m = Ok s'
    /\ PatchPixelSampler.patch_size s' = p
    /\ PatchPixelSampler.num_rays_per_batch s' = m / p ^ 2 * p ^ 2
    /\ (p ^ 2 | PatchPixelSampler.num_rays_per_batch s')
    /\ PatchPixelSampler.num_rays_per_batch s' <= m
         < PatchPixelSampler.num_rays_per_batch s' + p ^ 2
    /\ PatchPixelSampler.num_rays_per_batch
         <$> PatchPixelSampler.init 10 keep 2 = Ok 8.
Proof.
  intros Hp.
  assert (Hsq : 0 < p ^ 2) by nia.
  assert (Hne : p ^ 2 <> 0) by lia.
  unfold PatchPixelSampler.init, PatchPixelSampler.set_num_rays_per_batch.
  rewrite (floordiv_ok n _ Hne). cbn [mbind result_bind].
  eexists _, _. split; [reflexivity|].
  cbn [PatchPixelSampler.patch_size PatchPixelSampler.num_rays_per_batch
       PatchPixelSampler.keep_full_image].
  rewrite (floordiv_ok m _ Hne). cbn [mbind result_bind].
  destruct (round_down_bounds n (p ^ 2) Hsq) as [Hd Hb].
  destruct (round_down_bounds m (p ^ 2) Hsq) as [Hd' Hb'].
  split; [reflexivity|]. split; [reflexivity|]. split; [exact Hd|].
  split; [exact Hb|]. split; [reflexivity|]. split; [reflexivity|].
  split; [reflexivity|]. split; [exact Hd'|]. split; [exact Hb'|].
  reflexivity.
Qed.

Lemma patch_num_rays_rounded_witness :
  exists s s',
    PatchPixelSampler.init 10 true 2 = Ok s
    /\ PatchPixelSampler.patch_size s = 2
    /\ PatchPixelSampler.num_rays_per_batch s = 10 / 2 ^ 2 * 2 ^ 2
    /\ (2 ^ 2 | PatchPixelSampler.num_rays_per_batch s)
    /\ PatchPixelSampler.num_rays_per_batch s <= 10
         < PatchPixelSampler.num_rays_per_batch s + 2 ^ 2
    /\ PatchPixelSampler.set_num_rays_per_batch s 4097 = Ok s'
    /\ PatchPixelSampler.patch_size s' = 2
    /\ PatchPixelSampler.num_rays_per_batch s' = 4097 / 2 ^ 2 * 2 ^ 2
    /\ (2 ^ 2 | PatchPixelSampler.num_rays_per_batch s')
    /\ PatchPixelSampler.num_rays_per_batch s' <= 4097
         < PatchPixelSampler.num_rays_per_batch s' + 2 ^ 2
    /\ PatchPixelSampler.num_rays_per_batch
         <$> PatchPixelSampler.init 10 true 2 = Ok 8.
Proof. apply (patch_num_rays_rounded 10 4097 2 true). lia. Defined.

(** *** Calls that never return *)

Lemma bind_never_ok {S A B} (m : M S A) (k : A -> M S B) s :
  (forall a s', is_ok (k a s').1 = false) -> is_ok ((m ≫= k) s).1 = false.
Proof.
  intros Hk. unfold mbind, M_bind, Py.bind.
  destruct (m s) as [[a|e] s']; [apply Hk | reflexivity].
Qed.

Lemma exit_never_ok {S A} code (s : S) : is_ok (@exit S A code s).1 = false.
Proof. reflexivity. Qed.

(** C5: a call of PatchPixelSampler.sample_method without a mask never
    returns index triples: whatever the arguments and the random draws, it
    raises, and for a well-formed call (here patch_size 2, batch_size 8, 2
    images of 4x4) it leaves through [exit(-1)] before any patch is built. *)
Theorem patch_sample_method_never_returns :
  (forall self batch_size num_images image_height image_width all_pixels tape,
      is_ok (PatchPixelSampler.sample_method self batch_size num_images image_height
               image_width None all_pixels tape).1 = false)
  /\ PatchPixelSampler.sample_method (PatchPixelSampler.Make 2 8 false) 8 2 4 4
       None false [3; 1; 2; 0; 1; 1]%nat
     = (Raise (SystemExit (-1)), []).
Proof.
  split; [|reflexivity].
  intros. unfold PatchPixelSampler.sample_method.
  apply bind_never_ok; intros. apply bind_never_ok; intros. apply exit_never_ok.
Qed.

(** *** TieredFeaturePatchPixelSampler with a mask *)

(** C6: a call of TieredFeaturePatchPixelSampler.sample_method with a mask
    tensor never returns: it raises for every sampler state, every argument
    and every random draw, the sampler's state is left as it was, and when
    the masked draw of the base class goes through, the call ends in
    [exit(-1)]. *)
Theorem tiered_masked_call_aborts :
  forall batch_size num_images image_height image_width mask all_pixels st tape,
    let r := TieredFeaturePatchPixelSampler.sample_method batch_size num_images
               image_height image_width (Some mask) all_pixels
               (TieredFeaturePatchPixelSampler.World st tape) in
    let base := PixelSampler.sample_method batch_size num_images image_height
                  image_width (Some mask) false tape in
    is_ok r.1 = false
    /\ TieredFeaturePatchPixelSampler.self r.2 = st
    /\ TieredFeaturePatchPixelSampler.rng r.2 = base.2
    /\ r.1 = match base.1 with
             | Ok _ => Raise (SystemExit (-1))
             | Raise e => Raise e
             end.
Proof.
  intros. subst r base.
  unfold TieredFeaturePatchPixelSampler.sample_method, TieredFeaturePatchPixelSampler.rnd.
  unfold mbind, M_bind, Py.bind, zoom. cbn [TieredFeaturePatchPixelSampler.rng].
  destruct (PixelSampler.sample_method _ _ _ _ _ _ _) as [[idx|e] tape']; cbn; auto.
Qed.

(** *** The regularisation schedule *)

Import KPlanesModel.

Lemma clip_upper (x : Q) : (clip x 0 (1 # 100) <= 1 # 100)%Q.
Proof. unfold clip. apply Q.le_min_r. Qed.

Lemma clip_double_ge (x : Q) :
  (0 < x)%Q -> (x <= 1 # 100)%Q -> (x <= clip (x * 2) 0 (1 # 100))%Q.
Proof.
  intros H0 H1. unfold clip. apply Q.min_glb; [|exact H1].
  apply Qle_trans with (x * 2)%Q; [Lqa.lra | apply Q.le_max_l].
Qed.

Lemma clip_double_pos (x : Q) : (0 < x)%Q -> (0 < clip (x * 2) 0 (1 # 100))%Q.
Proof.
  intros H0. unfold clip. apply Q.min_glb_lt; [|reflexivity].
  apply Qlt_le_trans with (x * 2)%Q; [Lqa.lra | apply Q.le_max_l].
Qed.

Lemma clip_double_min (x : Q) :
  (0 < x)%Q -> (clip (x * 2) 0 (1 # 100) == Qmin (x * 2) (1 # 100))%Q.
Proof.
  intros H0. unfold clip. rewrite Q.max_l; [reflexivity | Lqa.lra].
Qed.

(** What one call does to the multiplier and the step counter. *)
Lemma get_loss_dict_step training loss_terms s :
  let s' := (get_loss_dict training loss_terms s).2 in
  cosine_idx s' = cosine_idx s + 1
  /\ (vol_tv_mult s' = vol_tv_mult s
      \/ (training = true /\ loss_terms = Ok tt /\ cosine_idx s' `mod` 3000 = 0
          /\ vol_tv_mult s' = clip (vol_tv_mult s * 2) 0 (1 # 100))).
Proof.
  unfold get_loss_dict, mbind, M_bind, Py.bind, get, put, lift, mret, M_ret, ret.
  destruct training; cbn; [|auto].
  destruct loss_terms as [[]|e]; cbn; [|auto].
  destruct (Z.eqb_spec ((cosine_idx s + 1) `mod` 3000) 0); cbn; auto 10.
Qed.

Lemma reachable_mult_range s :
  reachable s -> (0 < vol_tv_mult s)%Q /\ (vol_tv_mult s <= 1 # 100)%Q.
Proof.
  induction 1 as [|s training loss_terms Hr [IH0 IH1]].
  - split; [reflexivity | discriminate].
  - destruct (get_loss_dict_step training loss_terms s) as [_ [-> | (_ & _ & _ & ->)]].
    + auto.
    + split; [now apply clip_double_pos | apply clip_upper].
Qed.

(** C9: in a training-mode call of get_loss_dict that returns, the
    multiplier is doubled and capped at 0.01 exactly when the step counter,
    just incremented, is a multiple of 3000, and is left alone otherwise;
    over all reachable states the multiplier is at most 0.01, and no call,
    in whatever mode and however it ends, decreases it. *)
Theorem vol_tv_mult_schedule (s : state) :
  reachable s ->
  (forall s', s' = (get_loss_dict true (Ok tt) s).2 ->
     cosine_idx s' = cosine_idx s + 1
     /\ (cosine_idx s' `mod` 3000 = 0 ->
         (vol_tv_mult s' == Qmin (vol_tv_mult s * 2) (1 # 100))%Q)
     /\ (cosine_idx s' `mod` 3000 <> 0 -> vol_tv_mult s' = vol_tv_mult s))
  /\ (vol_tv_mult s <= 1 # 100)%Q
  /\ (forall training loss_terms,
        (vol_tv_mult s <= vol_tv_mult (get_loss_dict training loss_terms s).2)%Q).
Proof.
  intros Hr. destruct (reachable_mult_range s Hr) as [H0 H1].
  split; [|split; [exact H1|]].
  - intros s' ->.
    unfold get_loss_dict, mbind, M_bind, Py.bind, get, put, lift, mret, M_ret, ret.
    cbn. destruct (Z.eqb_spec ((cosine_idx s + 1) `mod` 3000) 0) as [E|E]; cbn.
    + split; [reflexivity|]. split; [intros _; now apply clip_double_min | congruence].
    + split; [reflexivity|]. split; [congruence | reflexivity].
  - intros training loss_terms.
    destruct (get_loss_dict_step training loss_terms s) as [_ [-> | (_ & _ & _ & ->)]].
    + apply Qle_refl.
    + now apply clip_double_ge.
Qed.

Lemma vol_tv_mult_schedule_witness :
  (forall s', s' = (get_loss_dict true (Ok tt) populate_modules).2 ->
     cosine_idx s' = cosine_idx populate_modules + 1
     /\ (cosine_idx s' `mod` 3000 = 0 ->
         (vol_tv_mult s' == Qmin (vol_tv_mult populate_modules * 2) (1 # 100))%Q)
     /\ (cosine_idx s' `mod` 3000 <> 0 -> vol_tv_mult s' = vol_tv_mult populate_modules))
  /\ (vol_tv_mult populate_modules <= 1 # 100)%Q
  /\ (forall training loss_terms,
        (vol_tv_mult populate_modules
         <= vol_tv_mult (get_loss_dict training loss_terms populate_modules).2)%Q).
Proof. apply (vol_tv_mult_schedule populate_modules). apply reach_init. Defined.

(** *** The all_pixels enumeration *)

Import PixelSampler.

Lemma zip3_app a1 a2 b1 b2 c1 c2 :
  length a1 = length b1 -> length b1 = length c1 ->
  zip3 (a1 ++ a2) (b1 ++ b2) (c1 ++ c2) = zip3 a1 b1 c1 ++ zip3 a2 b2 c2.
Proof.
  intros Hab Hbc. unfold zip3.
  rewrite (zip_with_app pair a1 a2 b1 b2 Hab).
  rewrite zip_with_app by (rewrite length_zip_with; lia).
  apply fmap_app.
Qed.

Lemma length_zip3 a b c :
  length a = length b -> length b = length c -> length (zip3 a b c) = length a.
Proof.
  intros Hab Hbc. unfold zip3. rewrite length_fmap, !length_zip_with. lia.
Qed.

Lemma length_join_replicate {A} m (l : list A) :
  length (mjoin (replicate m l)) = (m * length l)%nat.
Proof.
  induction m as [|m IH]; [reflexivity|].
  change (length (l ++ mjoin (replicate m l)) = (S m * length l)%nat).
  rewrite length_app, IH. lia.
Qed.

Lemma length_interleave {A} k (l : list A) :
  length (mjoin ((fun x => replicate k x) <$> l)) = (length l * k)%nat.
Proof.
  induction l as [|x l IH]; [reflexivity|].
  change (length (replicate k x ++ mjoin ((fun x => replicate k x) <$> l))
          = (S (length l) * k)%nat).
  rewrite length_app, length_replicate, IH. lia.
Qed.

Lemma bind_singleton {A B} (f : A -> B) (l : list A) :
  l ≫= (fun x => [f x]) = f <$> l.
Proof.
  induction l as [|x l IH]; [reflexivity|].
  rewrite bind_cons, IH. reflexivity.
Qed.

(** One scanline: a constant image, a constant row, the columns. *)
Lemma zip3_scanline i r (ws : list Z) :
  zip3 (replicate (length ws) i) (replicate (length ws) r) ws
  = (fun c => [i; r; c]) <$> ws.
Proof.
  induction ws as [|c ws IH]; [reflexivity|].
  cbn. unfold zip3 in IH. cbn in IH. now rewrite IH.
Qed.

(** One image: a constant image id, every row repeated over a scanline,
    the columns tiled once per row. *)
Lemma zip3_image i (hs ws : list Z) :
  zip3 (replicate (length hs * length ws) i)
       (mjoin ((fun r => replicate (length ws) r) <$> hs))
       (mjoin (replicate (length hs) ws))
  = hs ≫= (fun r => (fun c => [i; r; c]) <$> ws).
Proof.
  induction hs as [|r hs IH]; [reflexivity|].
  change (zip3 (replicate (length ws + length hs * length ws) i)
            (replicate (length ws) r ++ mjoin ((fun r => replicate (length ws) r) <$> hs))
            (ws ++ mjoin (replicate (length hs) ws))
          = (r :: hs) ≫= (fun r => (fun c => [i; r; c]) <$> ws)).
  rewrite replicate_add, bind_cons.
  rewrite zip3_app by (now rewrite !length_replicate).
  now rewrite zip3_scanline, IH.
Qed.

(** The whole batch. *)
Lemma zip3_batch (is_ hs ws : list Z) :
  zip3 (mjoin ((fun i => replicate (length hs * length ws) i) <$> is_))
       (mjoin (replicate (length is_)
                 (mjoin ((fun r => replicate (length ws) r) <$> hs))))
       (mjoin (replicate (length is_ * length hs) ws))
  = is_ ≫= (fun i => hs ≫= (fun r => (fun c => [i; r; c]) <$> ws)).
Proof.
  induction is_ as [|i is_ IH]; [reflexivity|].
  change (zip3 (replicate (length hs * length ws) i
                  ++ mjoin ((fun i => replicate (length hs * length ws) i) <$> is_))
            (mjoin ((fun r => replicate (length ws) r) <$> hs)
               ++ mjoin (replicate (length is_)
                           (mjoin ((fun r => replicate (length ws) r) <$> hs))))
            (mjoin (replicate (length hs + length is_ * length hs) ws))
          = (i :: is_) ≫= (fun i => hs ≫= (fun r => (fun c => [i; r; c]) <$> ws))).
  rewrite replicate_add, join_app, bind_cons.
  rewrite zip3_app.
  - now rewrite zip3_image, IH.
  - now rewrite length_replicate, length_interleave.
  - now rewrite length_interleave, length_join_replicate.
Qed.


Lemma index_space_unfold n h w :
  index_space n h w
  = seqZ 0 n ≫= (fun i => seqZ 0 h ≫= (fun r => (fun c => [i; r; c]) <$> seqZ 0 w)).
Proof.
  unfold index_space.
  apply list_bind_ext; [intros i | reflexivity].
  apply list_bind_ext; [intros r | reflexivity].
  apply bind_singleton.
Qed.

Lemma elem_of_index_space n h w row :
  row ∈ index_space n h w
  <-> exists i r c, row = [i; r; c] /\ 0 <= i < n /\ 0 <= r < h /\ 0 <= c < w.
Proof.
  rewrite index_space_unfold. split.
  - intros (i & Hrow & Hi)%list_elem_of_bind.
    apply list_elem_of_bind in Hrow as (r & Hrow & Hr).
    apply list_elem_of_fmap in Hrow as (c & -> & Hc).
    apply elem_of_seqZ in Hi, Hr, Hc. exists i, r, c. repeat split; lia.
  - intros (i & r & c & -> & Hi & Hr & Hc).
    apply list_elem_of_bind. exists i. split; [|apply elem_of_seqZ; lia].
    apply list_elem_of_bind. exists r. split; [|apply elem_of_seqZ; lia].
    apply list_elem_of_fmap. exists c. split; [reflexivity | apply elem_of_seqZ; lia].
Qed.

Lemma NoDup_index_space n h w : NoDup (index_space n h w).
Proof.
  rewrite index_space_unfold.
  apply NoDup_bind; [| |apply NoDup_seqZ].
  - intros i1 i2 row _ _ (r1 & (c1 & -> & _)%list_elem_of_fmap & _)%list_elem_of_bind
      (r2 & (c2 & E & _)%list_elem_of_fmap & _)%list_elem_of_bind.
    congruence.
  - intros i _. apply NoDup_bind; [| |apply NoDup_seqZ].
    + intros r1 r2 row _ _ (c1 & -> & _)%list_elem_of_fmap (c2 & E & _)%list_elem_of_fmap.
      congruence.
    + intros r _. apply NoDup_fmap_2; [|apply NoDup_seqZ].
      intros c1 c2 E. congruence.
Qed.

Lemma length_index_space n h w :
  0 <= n -> 0 <= h -> 0 <= w -> length (index_space n h w) = Z.to_nat (n * h * w).
Proof.
  intros Hn Hh Hw. rewrite index_space_unfold.
  rewrite <- (zip3_batch (seqZ 0 n) (seqZ 0 h) (seqZ 0 w)).
  rewrite length_zip3.
  - rewrite length_interleave, !length_seqZ. lia.
  - rewrite length_interleave, length_join_replicate, length_interleave. lia.
  - rewrite !length_join_replicate, length_interleave. lia.
Qed.

(** *** The lexicographic order of rows *)

#[local] Instance lex_le_trans : Transitive lex_le.
Proof.
  unfold lex_le. intros a. induction a as [|x a IH]; intros b c Hab Hbc; [reflexivity|].
  destruct b as [|y b]; [discriminate|]. destruct c as [|z c]; [discriminate|].
  cbn in *.
  destruct (Z.ltb_spec x y), (Z.eqb_spec x y), (Z.ltb_spec y z), (Z.eqb_spec y z),
    (Z.ltb_spec x z), (Z.eqb_spec x z); cbn in *; try lia; try discriminate; eauto.
Qed.

#[local] Instance lex_le_antisymm : AntiSymm (=) lex_le.
Proof.
  unfold lex_le. intros a. induction a as [|x a IH]; intros b Hab Hba.
  - now destruct b.
  - destruct b as [|y b]; [discriminate|]. cbn in *.
    destruct (Z.ltb_spec x y), (Z.eqb_spec x y), (Z.ltb_spec y x), (Z.eqb_spec y x);
      cbn in *; try lia; try discriminate.
    subst. f_equal. now apply IH.
Qed.

#[local] Instance lex_le_total : Total lex_le.
Proof.
  unfold lex_le. intros a. induction a as [|x a IH]; intros b; [now left|].
  destruct b as [|y b]; [now right|]. cbn.
  destruct (Z.ltb_spec x y), (Z.eqb_spec x y), (Z.ltb_spec y x), (Z.eqb_spec y x);
    cbn; try lia; auto.
Qed.

Lemma StronglySorted_seq a n : StronglySorted lt (seq a n).
Proof.
  revert a. induction n as [|n IH]; intros a; cbn; constructor; [apply IH|].
  apply Forall_forall. intros x Hx%elem_of_seq. lia.
Qed.

Lemma StronglySorted_seqZ m n : StronglySorted Z.lt (seqZ m n).
Proof.
  unfold seqZ. eapply StronglySorted_fmap; [|apply StronglySorted_seq].
  intros x y Hxy. cbn. lia.
Qed.

Lemma StronglySorted_bind {A B} (S : relation A) (R : relation B)
    (f : A -> list B) (l : list A) :
  StronglySorted S l ->
  (forall x, x ∈ l -> StronglySorted R (f x)) ->
  (forall x y a b, S x y -> a ∈ f x -> b ∈ f y -> R a b) ->
  StronglySorted R (l ≫= f).
Proof.
  intros Hl Hf Hcross. induction Hl as [|x l Hl IH Hx]; [constructor|].
  rewrite bind_cons. apply StronglySorted_app_2.
  - intros a b Ha (y & Hb & Hy)%list_elem_of_bind.
    rewrite Forall_forall in Hx. eauto.
  - apply Hf. left.
  - apply IH. intros y Hy. apply Hf. now right.
Qed.

Lemma StronglySorted_index_space n h w : StronglySorted lex_le (index_space n h w).
Proof.
  rewrite index_space_unfold.
  eapply StronglySorted_bind; [apply StronglySorted_seqZ | |].
  - intros i _. eapply StronglySorted_bind; [apply StronglySorted_seqZ | |].
    + intros r _. eapply StronglySorted_fmap; [|apply StronglySorted_seqZ].
      intros c1 c2 Hc. unfold lex_le. cbn. rewrite !Z.eqb_refl.
      destruct (Z.ltb_spec c1 c2); [|lia]. now rewrite !orb_true_r.
    + intros r1 r2 a b Hr (c1 & -> & _)%list_elem_of_fmap (c2 & -> & _)%list_elem_of_fmap.
      unfold lex_le. cbn. rewrite Z.eqb_refl.
      destruct (Z.ltb_spec r1 r2); [|lia]. now rewrite orb_true_r.
  - intros i1 i2 a b Hi (r1 & (c1 & -> & _)%list_elem_of_fmap & _)%list_elem_of_bind
      (r2 & (c2 & -> & _)%list_elem_of_fmap & _)%list_elem_of_bind.
    unfold lex_le. cbn. now destruct (Z.ltb_spec i1 i2); [|lia].
Qed.

Lemma sort_rows_sorted l : StronglySorted lex_le l -> sort_rows l = l.
Proof.
  intros Hl. unfold sort_rows. apply (Sorted_unique lex_le).
  - apply Sorted_merge_sort, _.
  - now apply StronglySorted_Sorted.
  - apply merge_sort_Permutation.
Qed.

(** The all_pixels branch at [batch_size = num_images * height * width]. *)
Lemma sample_all_pixels_full n h w :
  0 < n -> 0 < h -> 0 < w ->
  sample_all_pixels (n * h * w) n h w = Ok (Int2d 3 (index_space n h w)).
Proof.
  intros Hn Hh Hw. unfold sample_all_pixels.
  rewrite (floordiv_ok _ n) by lia.
  replace (n * h * w / n) with (h * w) by (apply Z.div_unique_exact; [lia | ring]).
  cbn [mbind result_bind]. unfold arange.
  destruct (Z.ltb_spec n 0); [lia|]. cbn [mbind result_bind].
  unfold repeat_interleave. destruct (Z.ltb_spec (h * w) 0); [lia|]. cbn [mbind result_bind].
  rewrite (floordiv_ok _ (h * n)) by lia.
  replace (n * h * w / (h * n)) with w by (apply Z.div_unique_exact; [lia | ring]).
  cbn [mbind result_bind].
  destruct (Z.ltb_spec h 0); [lia|]. cbn [mbind result_bind].
  destruct (Z.ltb_spec w 0); [lia|]. cbn [mbind result_bind].
  unfold Torch.repeat. destruct (Z.ltb_spec n 0); [lia|]. cbn [mbind result_bind].
  rewrite (floordiv_ok _ w) by lia.
  replace (n * h * w / w) with (n * h) by (apply Z.div_unique_exact; [lia | ring]).
  cbn [mbind result_bind].
  destruct (Z.ltb_spec (n * h) 0); [lia|]. cbn [mbind result_bind].
  pose proof (zip3_batch (seqZ 0 n) (seqZ 0 h) (seqZ 0 w)) as Hz.
  rewrite !length_seqZ in Hz.
  rewrite <- !Z2Nat.inj_mul in Hz by lia.
  unfold cat_columns.
  rewrite length_interleave, !length_join_replicate, length_interleave, !length_seqZ.
  replace (Z.to_nat n * Z.to_nat (h * w))%nat with (Z.to_nat (n * h * w)) by lia.
  replace (Z.to_nat n * (Z.to_nat h * Z.to_nat w))%nat with (Z.to_nat (n * h * w)) by lia.
  replace (Z.to_nat (n * h) * Z.to_nat w)%nat with (Z.to_nat (n * h * w)) by lia.
  rewrite Nat.eqb_refl. cbn [andb].
  rewrite Hz, <- index_space_unfold. reflexivity.
Qed.

(** C3: with no mask, [all_pixels] and a batch size of
    [num_images * height * width], sample_method returns, whatever the
    random state, a tensor of three columns whose rows, sorted, are the
    enumeration of the index space: every in-range (image, row, column)
    once, nothing else, no duplicate. *)
Theorem all_pixels_enumerates_index_space (n h w : Z) (tape : Random.tape) :
  0 < n -> 0 < h -> 0 < w ->
  exists t,
    sample_method (n * h * w) n h w None true tape = (Ok t, tape)
    /\ ncols t = 3%nat
    /\ sort_rows (rows t) = index_space n h w
    /\ NoDup (rows t)
    /\ length (rows t) = Z.to_nat (n * h * w)
    /\ forall row, row ∈ rows t
         <-> exists i r c, row = [i; r; c] /\ 0 <= i < n /\ 0 <= r < h /\ 0 <= c < w.
Proof.
  intros Hn Hh Hw. exists (Int2d 3 (index_space n h w)).
  unfold sample_method, lift. rewrite sample_all_pixels_full by assumption.
  cbn [ncols rows].
  split; [reflexivity|]. split; [reflexivity|].
  split; [apply sort_rows_sorted, StronglySorted_index_space|].
  split; [apply NoDup_index_space|].
  split; [apply length_index_space; lia|].
  intros row. apply elem_of_index_space.
Qed.

Lemma all_pixels_enumerates_index_space_witness :
  exists t,
    sample_method (2 * 3 * 4) 2 3 4 None true [5; 7]%nat = (Ok t, [5; 7]%nat)
    /\ ncols t = 3%nat
    /\ sort_rows (rows t) = index_space 2 3 4
    /\ NoDup (rows t)
    /\ length (rows t) = Z.to_nat (2 * 3 * 4)
    /\ forall row, row ∈ rows t
         <-> exists i r c, row = [i; r; c] /\ 0 <= i < 2 /\ 0 <= r < 3 /\ 0 <= c < 4.
Proof. apply (all_pixels_enumerates_index_space 2 3 4); lia. Defined.

(** *** Flat positions and coordinates *)

Lemma ravel_unravel dims k :
  (k < numel dims)%nat -> ravel dims (unravel dims k) = Some k.
Proof.
  revert k. induction dims as [|d dims IH]; intros k Hk; cbn in *.
  - f_equal. lia.
  - fold (numel dims) in *.
    assert (Hpos : (0 < numel dims)%nat) by (destruct (numel dims); lia).
    assert (Hq : (k / numel dims < d)%nat) by (apply Nat.Div0.div_lt_upper_bound; lia).
    rewrite Nat.mod_small by exact Hq.
    destruct (Z.leb_spec 0 (Z.of_nat (k / numel dims))); [|lia].
    destruct (Z.ltb_spec (Z.of_nat (k / numel dims)) (Z.of_nat d)); [|lia].
    cbn. rewrite IH by (apply Nat.mod_upper_bound; lia). cbn. f_equal.
    rewrite Nat2Z.id. pose proof (Nat.div_mod_eq k (numel dims)). lia.
Qed.

Lemma unravel_ravel dims idx k :
  ravel dims idx = Some k -> (k < numel dims)%nat /\ unravel dims k = idx.
Proof.
  revert idx k. induction dims as [|d dims IH]; intros idx k; cbn.
  - destruct idx; [|discriminate]. intros [= <-]. split; [lia | reflexivity].
  - fold (numel dims). destruct idx as [|i idx]; [discriminate|].
    destruct (Z.leb_spec 0 i); [|discriminate].
    destruct (Z.ltb_spec i (Z.of_nat d)); [|discriminate]. cbn.
    destruct (ravel dims idx) as [k'|] eqn:E; [|discriminate]. cbn. intros [= <-].
    destruct (IH _ _ E) as [Hk' Hu].
    assert (Hq : ((Z.to_nat i * numel dims + k') / numel dims = Z.to_nat i)%nat).
    { symmetry. apply (Nat.div_unique _ _ _ k'); lia. }
    assert (Hm : ((Z.to_nat i * numel dims + k') mod numel dims = k')%nat).
    { symmetry. apply (Nat.mod_unique _ _ (Z.to_nat i)); lia. }
    rewrite Hq, Hm, Hu. split; [nia|].
    rewrite Nat.mod_small by lia. f_equal. lia.
Qed.

Lemma numel_snoc dims c : numel (dims ++ [c]) = (numel dims * c)%nat.
Proof. induction dims as [|d dims IH]; cbn in *; [lia|]. fold (numel (dims ++ [c])). rewrite IH. fold (numel dims). lia. Qed.

Lemma ravel_snoc dims idx c :
  (0 < c)%nat ->
  ravel (dims ++ [c]) (idx ++ [0]) = (fun k => (k * c)%nat) <$> ravel dims idx.
Proof.
  intros Hc. revert idx. induction dims as [|d dims IH]; intros idx.
  - destruct idx as [|i idx]; cbn.
    + destruct (Z.ltb_spec 0 (Z.of_nat c)); [reflexivity | lia].
    + destruct (Z.leb 0 i && Z.ltb i (Z.of_nat c)); [|reflexivity].
      now destruct idx.
  - destruct idx as [|i idx]; cbn.
    + destruct (Z.ltb 0 (Z.of_nat d)); [|reflexivity]. cbn. now destruct dims.
    + destruct (Z.leb 0 i && Z.ltb i (Z.of_nat d)); [|reflexivity].
      rewrite IH. fold (numel (dims ++ [c])) (numel dims). rewrite numel_snoc.
      destruct (ravel dims idx) as [k|]; cbn; [f_equal; lia | reflexivity].
Qed.

(** *** random.sample draws distinct members *)

Lemma randbelow_lt n tape :
  (0 < n)%nat -> exists j tape', randbelow n tape = (Ok j, tape') /\ (j < n)%nat.
Proof.
  intros Hn. destruct tape as [|x tape]; cbn; eexists _, _; (split; [reflexivity|]).
  - exact Hn.
  - apply Nat.mod_upper_bound. lia.
Qed.

Lemma sample_pool_spec {A} k : forall n (pool : list A) tape,
  (k <= n)%nat -> (n <= length pool)%nat -> NoDup (take n pool) ->
  exists r tape',
    sample_pool k n pool tape = (Ok r, tape')
    /\ length r = k /\ NoDup r /\ (forall x, x ∈ r -> x ∈ take n pool).
Proof.
  induction k as [|k IH]; intros n pool tape Hk Hn Hnd.
  - exists [], tape. repeat split; [constructor | intros x Hx; inversion Hx].
  - cbn [sample_pool].
    destruct (randbelow_lt n tape) as (j & tape1 & Hj & Hjn); [lia|].
    rewrite (bind_ok _ _ _ _ _ Hj).
    destruct (lookup_lt_is_Some_2 pool j) as [x Hx]; [lia|].
    destruct (lookup_lt_is_Some_2 pool (n - 1)) as [y Hy]; [lia|].
    rewrite Hx, Hy.
    assert (Hsub : forall z, z ∈ take (n - 1) (<[j := y]> pool) ->
                             z ∈ take n pool /\ z <> x).
    { intros z (i & Hz)%list_elem_of_lookup.
      apply lookup_take_Some in Hz as [Hz Hi].
      destruct (decide (i = j)) as [->|Hij].
      - rewrite list_lookup_insert_eq in Hz by lia.
        assert (z = y) by congruence. subst z. split.
        + apply list_elem_of_lookup. exists (n - 1)%nat. rewrite lookup_take_lt by lia. exact Hy.
        + intros ->. rewrite NoDup_alt in Hnd.
          assert (n - 1 = j)%nat; [|lia].
          apply (Hnd _ _ x); rewrite lookup_take_lt by lia; assumption.
      - rewrite list_lookup_insert_ne in Hz by congruence. split.
        + apply list_elem_of_lookup. exists i. rewrite lookup_take_lt by lia. exact Hz.
        + intros ->. rewrite NoDup_alt in Hnd. apply Hij.
          apply (Hnd _ _ x); rewrite lookup_take_lt by lia; assumption. }
    assert (Hnd' : NoDup (take (n - 1) (<[j := y]> pool))).
    { apply NoDup_alt. intros i1 i2 z [H1 Hi1]%lookup_take_Some [H2 Hi2]%lookup_take_Some.
      rewrite NoDup_alt in Hnd.
      assert (Hget : forall i, (i < n - 1)%nat -> <[j := y]> pool !! i = Some z ->
                exists i', (i' < n)%nat /\ pool !! i' = Some z
                           /\ (i' = if decide (i = j) then (n - 1)%nat else i)).
      { intros i Hi Hz. destruct (decide (i = j)) as [->|Hij].
        - rewrite list_lookup_insert_eq in Hz by lia.
          assert (z = y) by congruence. subst z.
          exists (n - 1)%nat. repeat split; [lia | exact Hy].
        - rewrite list_lookup_insert_ne in Hz by congruence. exists i. repeat split; [lia | exact Hz]. }
      destruct (Hget i1 Hi1 H1) as (a & Ha & Hza & Ea).
      destruct (Hget i2 Hi2 H2) as (b & Hb & Hzb & Eb).
      assert (a = b) by (apply (Hnd _ _ z); rewrite lookup_take_lt by lia; assumption).
      destruct (decide (i1 = j)), (decide (i2 = j)); lia. }
    destruct (IH (n - 1)%nat (<[j := y]> pool) tape1) as (r & tape' & Hr & Hlen & Hndr & Hin);
      [lia | rewrite length_insert; lia | exact Hnd' |].
    rewrite (bind_ok _ _ _ _ _ Hr). exists (x :: r), tape'.
    split; [reflexivity|]. split; [cbn; lia|]. split.
    + constructor; [|exact Hndr]. intros Hxr. apply Hin, Hsub in Hxr. tauto.
    + intros z [->|Hz]%elem_of_cons.
      * apply list_elem_of_lookup. exists j. rewrite lookup_take_lt by lia. exact Hx.
      * apply Hin, Hsub in Hz. tauto.
Qed.

Lemma sample_pool_ok {A} k n (pool : list A) tape :
  (k <= n)%nat -> (n <= length pool)%nat -> NoDup (take n pool) ->
  exists r tape',
    sample_pool k n pool tape = (Ok r, tape')
    /\ length r = k /\ NoDup r /\ (forall x, x ∈ r -> x ∈ pool).
Proof.
  intros Hk Hn Hnd.
  destruct (sample_pool_spec k n pool tape Hk Hn Hnd) as (r & tape' & Hr & Hlen & Hndr & Hin).
  exists r, tape'. split; [exact Hr|]. split; [exact Hlen|]. split; [exact Hndr|].
  intros x Hx. apply Hin in Hx. apply list_elem_of_lookup in Hx as (i & Hi).
  apply lookup_take_Some in Hi as [Hi _]. apply list_elem_of_lookup. eauto.
Qed.

(** The pool algorithm makes one draw per member. *)
Lemma sample_pool_tape {A} k : forall n (pool : list A) tape r tape',
  sample_pool k n pool tape = (Ok r, tape') -> tape' = drop k tape.
Proof.
  induction k as [|k IH]; intros n pool tape r tape' E.
  - cbn in E. injection E as _ <-. now rewrite drop_0.
  - cbn [sample_pool] in E. unfold mbind, M_bind, Py.bind in E.
    assert (Hd : (randbelow n tape).2 = drop 1 tape) by (destruct tape; reflexivity).
    destruct (randbelow n tape) as [[j|e] tape0]; [|discriminate]. cbn in Hd. subst tape0.
    destruct (pool !! j) as [x|]; [|discriminate].
    destruct (pool !! (n - 1)%nat) as [y|]; [|discriminate].
    destruct (sample_pool k (n - 1) (<[j:=y]> pool) (drop 1 tape)) as [[r'|e] tape1] eqn:E1;
      [|discriminate].
    injection E as _ <-. rewrite (IH _ _ _ _ _ E1), drop_drop. f_equal; lia.
Qed.

Lemma randbelow_draws n tape :
  (0 < n)%nat ->
  exists j tape',
    randbelow n tape = (Ok j, tape')
    /\ (j < n)%nat
    /\ draws n tape = {[j]} ∪ draws n tape'.
Proof.
  intros Hn. destruct tape as [|x tape].
  - exists 0%nat, []. split; [reflexivity|]. split; [exact Hn|]. unfold draws. set_solver.
  - exists (x mod n)%nat, tape. split; [reflexivity|].
    split; [apply Nat.mod_upper_bound; lia|]. unfold draws. set_solver.
Qed.

(** The loop that draws again: it ends with a position that is not
    selected, having passed over selected ones only, or never ends, every
    position it can draw being selected. *)
Lemma redraw_spec n selected : forall t j,
  (0 < n)%nat -> (j < n)%nat ->
  (exists j' t',
     redraw n selected j t = (Ok j', t')
     /\ (j' < n)%nat /\ (j' ∉ selected)
     /\ j' ∈ {[j]} ∪ draws n t
     /\ draws n t' ⊆ draws n t
     /\ ({[j]} ∪ draws n t) ∖ selected ⊆ {[j']} ∪ draws n t')
  \/ (exists t', redraw n selected j t = (Raise Hangs, t')
                 /\ {[j]} ∪ draws n t ⊆ selected).
Proof.
  induction t as [|x t IH]; intros j Hn Hj; cbn [redraw].
  - destruct (decide (j ∈ selected)) as [Hin|Hout].
    + destruct (decide (0%nat ∈ selected)) as [H0|H0].
      * right. exists []. split; [reflexivity|]. unfold draws. set_solver.
      * left. exists 0%nat, []. split; [reflexivity|]. split; [lia|]. split; [exact H0|].
        unfold draws. set_solver.
    + left. exists j, []. split; [reflexivity|]. split; [exact Hj|]. split; [exact Hout|].
      set_solver.
  - destruct (decide (j ∈ selected)) as [Hin|Hout].
    + assert (Hx : (x mod n < n)%nat) by (apply Nat.mod_upper_bound; lia).
      assert (Hd : draws n (x :: t) = {[(x mod n)%nat]} ∪ draws n t)
        by (unfold draws; set_solver).
      destruct (IH (x mod n)%nat Hn Hx)
        as [(j' & t' & E & Hj' & Hfresh & Hmem & Hrest & Hsub)|(t' & E & Hsub)].
      * left. exists j', t'. split; [exact E|]. split; [exact Hj'|]. split; [exact Hfresh|].
        rewrite Hd. set_solver.
      * right. exists t'. split; [exact E|]. rewrite Hd. set_solver.
    + left. exists j, (x :: t). split; [reflexivity|]. split; [exact Hj|].
      split; [exact Hout|]. set_solver.
Qed.

(** The set algorithm raises nothing, and what it returns are [k] members
    of the population at positions apart. *)
Lemma sample_set_safe {A} (population : list A) n k : forall selected tape,
  (0 < n)%nat -> (n <= length population)%nat -> NoDup population ->
  (forall r tape', sample_set k n population selected tape = (Ok r, tape') ->
     length r = k /\ NoDup r
     /\ forall x, x ∈ r -> exists j, (j ∉ selected) /\ population !! j = Some x)
  /\ (forall e tape', sample_set k n population selected tape = (Raise e, tape') ->
        e = Hangs).
Proof.
  induction k as [|k IH]; intros selected tape Hn Hlen Hnd.
  - split.
    + intros r tape' [= <- <-]. split; [reflexivity|]. split; [constructor|].
      intros x Hx. inversion Hx.
    + intros e tape' [=].
  - cbn [sample_set].
    destruct (randbelow_lt n tape Hn) as (j0 & tape0 & Hj0 & Hlt0).
    rewrite (bind_ok _ _ _ _ _ Hj0).
    destruct (redraw_spec n selected tape0 j0 Hn Hlt0)
      as [(j & tape1 & E & Hj & Hfresh & _)|(tape1 & E & _)].
    2:{ rewrite (bind_raise _ _ _ _ _ E). split; [intros r tape' [=]|].
        intros e tape' [= <- _]. reflexivity. }
    rewrite (bind_ok _ _ _ _ _ E).
    destruct (lookup_lt_is_Some_2 population j) as [x Hx]; [lia|]. rewrite Hx.
    destruct (IH ({[j]} ∪ selected) tape1 Hn Hlen Hnd) as [Hok Hraise].
    unfold mbind, M_bind, Py.bind.
    destruct (sample_set k n population ({[j]} ∪ selected) tape1) as [[r|e] tape2].
    + destruct (Hok r tape2 eq_refl) as (Hr & Hndr & Hin). split; [|intros e tape' [=]].
      intros r' tape' [= <- <-]. split; [cbn; lia|]. split.
      * constructor; [|exact Hndr]. intros Hxr.
        destruct (Hin x Hxr) as (j' & Hj' & Hx').
        rewrite NoDup_alt in Hnd. specialize (Hnd _ _ _ Hx Hx'). set_solver.
      * intros y [->|Hy]%elem_of_cons; [exists j; auto|].
        destruct (Hin y Hy) as (j' & Hj' & Hy'). exists j'. split; [set_solver | exact Hy'].
    + split; [intros r tape' [=]|]. intros e' tape' [= <- _]. eapply Hraise. reflexivity.
Qed.

(** The set algorithm returns exactly when the positions that can be
    drawn hold [k] that are not selected. *)
Lemma sample_set_returns {A} (population : list A) n k : forall selected tape,
  (0 < n)%nat -> (n <= length population)%nat ->
  (exists r tape', sample_set k n population selected tape = (Ok r, tape'))
  <-> (k <= size (draws n tape ∖ selected))%nat.
Proof.
  induction k as [|k IH]; intros selected tape Hn Hlen.
  - split; [lia|]. intros _. exists [], tape. reflexivity.
  - cbn [sample_set].
    destruct (randbelow_draws n tape Hn) as (j0 & tape0 & Hj0 & Hlt0 & Hd0).
    rewrite (bind_ok _ _ _ _ _ Hj0).
    destruct (redraw_spec n selected tape0 j0 Hn Hlt0)
      as [(j & tape1 & E & Hj & Hfresh & Hmem & Hrest & Hsub)|(tape1 & E & Hsub)].
    2:{ rewrite (bind_raise _ _ _ _ _ E). split; [intros (r & tape' & [=])|].
        replace (draws n tape ∖ selected) with (∅ : gset nat) by set_solver.
        rewrite size_empty. lia. }
    rewrite (bind_ok _ _ _ _ _ E).
    destruct (lookup_lt_is_Some_2 population j) as [y Hy]; [lia|]. rewrite Hy.
    specialize (IH ({[j]} ∪ selected) tape1 Hn Hlen).
    set (D := draws n tape ∖ selected).
    set (D1 := draws n tape1 ∖ ({[j]} ∪ selected)) in *.
    assert (Hsize : size D = S (size D1)).
    { assert (HD : D = {[j]} ∪ D1).
      { apply set_eq. intros z. unfold D, D1. rewrite Hd0.
        destruct (decide (z = j)) as [->|Hne]; [set_solver|].
        split.
        - intros Hz. assert (z ∈ ({[j]} ∪ draws n tape1 : gset nat)) by (apply Hsub; set_solver).
          set_solver.
        - set_solver. }
      rewrite HD, size_union, size_singleton by set_solver. reflexivity. }
    rewrite Hsize. unfold mbind, M_bind, Py.bind.
    destruct (sample_set k n population ({[j]} ∪ selected) tape1) as [[r|e] tape2].
    + split; [intros _|intros _; eexists _, _; reflexivity].
      assert (k <= size D1)%nat by (apply IH; eauto). lia.
    + split; [intros (r & tape' & [=])|].
      intros Hk. assert (Hex : exists r tape', (Raise e, tape2) = (Ok r, tape'))
        by (apply IH; lia).
      destruct Hex as (r & tape' & [=]).
Qed.

(** The threshold of [random.sample]: 21, plus for [k > 5] the least
    power of 4 that is at least [3 k]. *)
Lemma setsize_spec k :
  (k <= 5 -> setsize k = 21)
  /\ (5 < k -> exists m, 0 <= m /\ 4 ^ (m - 1) < 3 * k <= 4 ^ m /\ setsize k = 21 + 4 ^ m).
Proof.
  unfold setsize. split; intros Hk.
  - destruct (Z.ltb_spec 5 k); [lia | reflexivity].
  - destruct (Z.ltb_spec 5 k); [|lia].
    set (l := Z.log2_up (k * 3)).
    assert (Hl : 2 ^ (Z.pred l) < k * 3 <= 2 ^ l) by (apply Z.log2_up_spec; lia).
    assert (Hl0 : 0 < l) by (apply Z.log2_up_pos; lia).
    exists ((l + 1) / 2). 
    assert (Hm : 2 * ((l + 1) / 2) = l \/ 2 * ((l + 1) / 2) = l + 1).
    { pose proof (Z.div_mod (l + 1) 2 ltac:(lia)).
      pose proof (Z.mod_pos_bound (l + 1) 2 ltac:(lia)). lia. }
    assert (H4 : forall m, 0 <= m -> 4 ^ m = 2 ^ (2 * m)).
    { intros m Hm0. change 4 with (2 ^ 2). now rewrite <- Z.pow_mul_r by lia. }
    split; [apply Z.div_pos; lia|]. split; [|reflexivity].
    split.
    + rewrite H4 by lia.
      assert (2 ^ (2 * ((l + 1) / 2 - 1)) <= 2 ^ (Z.pred l)); [|lia].
      apply Z.pow_le_mono_r; lia.
    + rewrite H4 by (apply Z.div_pos; lia).
      assert (2 ^ l <= 2 ^ (2 * ((l + 1) / 2))); [|lia].
      apply Z.pow_le_mono_r; lia.
Qed.

Lemma sample_spec {A} (population : list A) k tape :
  NoDup population ->
  (~ 0 <= k <= Z.of_nat (length population) ->
   Random.sample population k tape = (Raise ValueError, tape))
  /\ (0 <= k <= Z.of_nat (length population) ->
      (forall r tape', Random.sample population k tape = (Ok r, tape') ->
         Z.of_nat (length r) = k /\ NoDup r /\ (forall x, x ∈ r -> x ∈ population))
      /\ (forall e tape', Random.sample population k tape = (Raise e, tape') -> e = Hangs)
      /\ (Z.of_nat (length population) <= setsize k ->
          exists r, Random.sample population k tape = (Ok r, drop (Z.to_nat k) tape))
      /\ (setsize k < Z.of_nat (length population) ->
          (exists r tape', Random.sample population k tape = (Ok r, tape'))
          <-> k <= Z.of_nat (size (draws (length population) tape)))).
Proof.
  intros Hnd. unfold Random.sample. split; intros Hk.
  - destruct (Z.leb_spec 0 k), (Z.leb_spec k (Z.of_nat (length population)));
      cbn [andb negb]; (reflexivity || lia).
  - destruct (Z.leb_spec 0 k); [|lia].
    destruct (Z.leb_spec k (Z.of_nat (length population))); [|lia]. cbn [andb negb].
    destruct (Z.leb_spec (Z.of_nat (length population)) (setsize k)) as [Hsmall|Hlarge].
    + destruct (sample_pool_ok (Z.to_nat k) (length population) population tape)
        as (r & tape' & Hr & Hlen & Hndr & Hin); [lia | lia | now rewrite firstn_all |].
      rewrite Hr. split; [|split; [|split]].
      * intros r' tape'' [= <- <-]. split; [lia | auto].
      * intros e tape'' [=].
      * intros _. exists r. now rewrite (sample_pool_tape _ _ _ _ _ _ Hr).
      * lia.
    + assert (Hn : (0 < length population)%nat).
      { destruct (setsize_spec k) as [H5 H6]. destruct (Z.le_gt_cases k 5) as [Hk5|Hk5].
        - rewrite H5 in Hlarge by exact Hk5. lia.
        - destruct H6 as (m & Hm0 & _ & Hm); [lia|].
          assert (0 <= 4 ^ m) by (apply Z.pow_nonneg; lia). lia. }
      destruct (sample_set_safe population (length population) (Z.to_nat k) ∅ tape
                  Hn ltac:(lia) Hnd) as [Hok Hraise].
      split; [|split; [|split]].
      * intros r tape' E. destruct (Hok r tape' E) as (Hlen & Hndr & Hin).
        split; [lia|]. split; [exact Hndr|].
        intros x Hx. destruct (Hin x Hx) as (j & _ & Hj). apply list_elem_of_lookup. eauto.
      * exact Hraise.
      * lia.
      * intros _.
        rewrite (sample_set_returns population (length population) (Z.to_nat k) ∅ tape
                   Hn ltac:(lia)).
        rewrite difference_empty_L. lia.
Qed.

(** *** The masked draw *)

Lemma index_rows_spec (t : int2d) (chosen : list nat) :
  (forall i, i ∈ chosen -> (i < length (rows t))%nat) ->
  exists rs, index_rows t chosen = Ok (Int2d (ncols t) rs)
             /\ Forall2 (fun i r => rows t !! i = Some r) chosen rs.
Proof.
  unfold index_rows. induction chosen as [|i chosen IH]; intros Hin.
  - exists []. split; [reflexivity | constructor].
  - destruct IH as (rs & Hrs & Hall); [intros j Hj; apply Hin; now right|].
    destruct (lookup_lt_is_Some_2 (rows t) i) as [r Hr]; [apply Hin; left|].
    exists (r :: rs). split; [|now constructor].
    cbn [mapM]. rewrite Hr. cbn [mbind result_bind].
    destruct (mapM _ chosen) as [rs'|e]; [|discriminate]. cbn in *. congruence.
Qed.

Lemma first_channel_sites mask outer c :
  mshape mask = outer ++ [c] -> (0 < c)%nat ->
  exists chan,
    first_channel mask = Ok chan
    /\ ncols (Torch.nonzero chan) = length outer
    /\ NoDup (rows (Torch.nonzero chan))
    /\ forall row, row ∈ rows (Torch.nonzero chan) <-> mask_true_at mask row.
Proof.
  intros Hshape Hc. unfold first_channel. rewrite Hshape, reverse_snoc.
  destruct (Nat.eqb_spec c 0); [lia|]. rewrite reverse_involutive.
  eexists. split; [reflexivity|]. unfold Torch.nonzero. cbn [mshape mdata ncols rows].
  rewrite length_fmap, length_seq.
  set (keep := fun k : nat => default false (_ !! k)).
  assert (Hkeep : forall k, (k < numel outer)%nat ->
            keep k = true <-> mdata mask !! (k * c)%nat = Some true).
  { intros k Hk. unfold keep. rewrite list_lookup_fmap, lookup_seq_lt by exact Hk. cbn.
    destruct (mdata mask !! (k * c)%nat) as [[]|]; cbn; split; congruence. }
  assert (Hmem : forall k, k ∈ List.filter keep (seq 0 (numel outer))
                           <-> (k < numel outer)%nat /\ keep k = true).
  { intros k. rewrite list_elem_of_In, filter_In, <- list_elem_of_In, elem_of_seq. intuition lia. }
  split; [reflexivity|]. split.
  - apply NoDup_fmap_2_strong.
    + intros k1 k2 [H1 _]%Hmem [H2 _]%Hmem E.
      apply ravel_unravel in H1, H2. congruence.
    + apply NoDup_ListNoDup, List.NoDup_filter, NoDup_ListNoDup, NoDup_seq.
  - intros row. unfold mask_true_at. rewrite Hshape. split.
    + intros (k & -> & [Hk Hkk]%Hmem)%list_elem_of_fmap.
      exists (k * c)%nat. rewrite ravel_snoc, ravel_unravel by assumption.
      split; [reflexivity | now apply Hkeep].
    + intros (k' & Hr & Hd). rewrite ravel_snoc in Hr by assumption.
      destruct (ravel outer row) as [k|] eqn:E; [|discriminate]. cbn in Hr.
      injection Hr as <-. apply unravel_ravel in E as [Hk <-].
      apply list_elem_of_fmap. exists k. split; [reflexivity|].
      apply Hmem. split; [exact Hk | now apply Hkeep].
Qed.

(** C4: a call of sample_method with a boolean mask tensor of shape
    [..., C].  With C = 0 it raises IndexError.  Otherwise the sites are
    the positions where the first channel of the mask is true, and
    - a batch size that is negative or exceeds the number of sites raises
      ValueError, with no draw made;
    - any other batch size raises nothing: what the call returns is
      exactly batch_size rows of as many columns as the mask has
      dimensions before the last (three for a mask of rank 4), each a
      site, none repeated;
    - with at most setsize sites (21, plus for a batch size above 5 the
      least power of 4 that is at least 3 * batch_size) random.sample
      runs its pool algorithm, and the call returns after one draw per
      row; with more sites random.sample draws again whenever it hits a
      position it has selected, and the call returns exactly when the
      draws hold batch_size different positions: otherwise it never
      returns. *)
Theorem masked_sampling_without_replacement
    (mask : mask_tensor) (outer : list nat) (C : nat)
    (batch_size num_images image_height image_width : Z) (all_pixels : bool)
    (tape : Random.tape) :
  mshape mask = outer ++ [C] ->
  (C = 0%nat ->
   sample_method batch_size num_images image_height image_width (Some mask) all_pixels tape
   = (Raise IndexError, tape))
  /\ ((0 < C)%nat ->
      exists sites,
        NoDup sites
        /\ (forall row, row ∈ sites <-> mask_true_at mask row)
        /\ (~ 0 <= batch_size <= Z.of_nat (length sites) ->
            sample_method batch_size num_images image_height image_width
              (Some mask) all_pixels tape
            = (Raise ValueError, tape))
        /\ (0 <= batch_size <= Z.of_nat (length sites) ->
            (forall t,
               (sample_method batch_size num_images image_height image_width
                  (Some mask) all_pixels tape).1 = Ok t ->
               ncols t = length outer
               /\ Z.of_nat (length (rows t)) = batch_size
               /\ NoDup (rows t)
               /\ forall row, row ∈ rows t -> row ∈ sites)
            /\ (forall e,
                  (sample_method batch_size num_images image_height image_width
                     (Some mask) all_pixels tape).1 = Raise e ->
                  e = Hangs)
            /\ (exists setsize,
                  (batch_size <= 5 -> setsize = 21)
                  /\ (5 < batch_size ->
                      exists m, 0 <= m /\ 4 ^ (m - 1) < 3 * batch_size <= 4 ^ m
                                /\ setsize = 21 + 4 ^ m)
                  /\ (Z.of_nat (length sites) <= setsize ->
                      exists t,
                        sample_method batch_size num_images image_height image_width
                          (Some mask) all_pixels tape
                        = (Ok t, drop (Z.to_nat batch_size) tape))
                  /\ (setsize < Z.of_nat (length sites) ->
                      is_ok (sample_method batch_size num_images image_height image_width
                               (Some mask) all_pixels tape).1 = true
                      <-> batch_size
                          <= Z.of_nat
                               (size (list_to_set
                                        ((fun x => (x mod length sites)%nat) <$> tape)
                                      ∪ ({[0%nat]} : gset nat))))))).
Proof.
  intros Hshape. split.
  - intros ->. unfold sample_method, sample_masked, first_channel.
    rewrite Hshape, reverse_snoc. reflexivity.
  - intros HC.
    destruct (first_channel_sites mask outer C Hshape HC)
      as (chan & Hchan & Hcols & Hnd & Hsites).
    exists (rows (Torch.nonzero chan)). split; [exact Hnd|]. split; [exact Hsites|].
    set (run := sample_method batch_size num_images image_height image_width
                  (Some mask) all_pixels tape).
    set (sites := rows (Torch.nonzero chan)) in *.
    assert (Hrun : run = (chosen_indices ← Random.sample (seq 0 (length sites)) batch_size;
                          lift (index_rows (Torch.nonzero chan) chosen_indices)) tape).
    { unfold run, sample_method, sample_masked.
      erewrite bind_ok by (unfold lift; rewrite Hchan; reflexivity). reflexivity. }
    destruct (sample_spec (seq 0 (length sites)) batch_size tape (NoDup_seq _ _))
      as [Hbad Hgood].
    rewrite length_seq in Hgood, Hbad.
    split.
    { intros Hk. rewrite Hrun. erewrite bind_raise by (apply Hbad, Hk). reflexivity. }
    intros Hk. destruct (Hgood Hk) as (Hok & Hraise & Hpool & Hset). clear Hgood Hbad.
    assert (Hcases :
      (exists chosen tape' rs,
         Random.sample (seq 0 (length sites)) batch_size tape = (Ok chosen, tape')
         /\ run = (Ok (Int2d (ncols (Torch.nonzero chan)) rs), tape')
         /\ Forall2 (fun i r => sites !! i = Some r) chosen rs)
      \/ (exists e tape',
            Random.sample (seq 0 (length sites)) batch_size tape = (Raise e, tape')
            /\ run = (Raise e, tape'))).
    { destruct (Random.sample (seq 0 (length sites)) batch_size tape) as [[chosen|e] tape']
        eqn:Es.
      - left. destruct (Hok chosen tape' eq_refl) as (_ & _ & Hin).
        destruct (index_rows_spec (Torch.nonzero chan) chosen) as (rs & Hrs & Hall).
        { intros i Hi%Hin%elem_of_seq. fold sites. lia. }
        exists chosen, tape', rs. split; [reflexivity|]. split; [|exact Hall].
        rewrite Hrun. unfold mbind, M_bind, Py.bind. rewrite Es. unfold lift.
        now rewrite Hrs.
      - right. exists e, tape'. split; [reflexivity|].
        rewrite Hrun. unfold mbind, M_bind, Py.bind. now rewrite Es. }
    split; [|split].
    + intros t Ht.
      destruct Hcases as [(chosen & tape' & rs & Es & Er & Hall)|(e & tape' & _ & Er)];
        rewrite Er in Ht; [|discriminate].
      injection Ht as <-. cbn [ncols rows].
      destruct (Hok chosen tape' Es) as (Hlen & Hndc & _).
      split; [exact Hcols|]. split.
      { apply Forall2_length in Hall. lia. }
      split.
      * apply NoDup_alt. intros a b r Ha Hb.
        destruct (Forall2_lookup_r _ _ _ _ _ Hall Ha) as (ia & Hia & Hra).
        destruct (Forall2_lookup_r _ _ _ _ _ Hall Hb) as (ib & Hib & Hrb).
        assert (ia = ib) by (eapply NoDup_alt; [exact Hnd | exact Hra | exact Hrb]).
        subst ib. eapply NoDup_alt; [exact Hndc | exact Hia | exact Hib].
      * intros row (a & Ha)%list_elem_of_lookup.
        destruct (Forall2_lookup_r _ _ _ _ _ Hall Ha) as (ia & Hia & Hra).
        apply list_elem_of_lookup. eauto.
    + intros e He.
      destruct Hcases as [(chosen & tape' & rs & _ & Er & _)|(e' & tape' & Es & Er)];
        rewrite Er in He; [discriminate|].
      injection He as <-. eapply Hraise. exact Es.
    + exists (setsize batch_size). destruct (setsize_spec batch_size) as [H5 H6].
      split; [exact H5|]. split; [exact H6|]. split.
      * intros Hsmall. destruct (Hpool Hsmall) as (r & Es).
        destruct Hcases as [(chosen & tape' & rs & Es' & Er & _)|(e' & tape' & Es' & _)];
          [|congruence].
        exists (Int2d (ncols (Torch.nonzero chan)) rs). rewrite Er.
        rewrite Es in Es'. injection Es' as _ <-. reflexivity.
      * intros Hlarge. rewrite <- (Hset Hlarge).
        destruct Hcases as [(chosen & tape' & rs & Es & Er & _)|(e' & tape' & Es & Er)];
          rewrite Er, Es; cbn [fst is_ok].
        -- split; [eauto | reflexivity].
        -- split; [discriminate | intros (r & tape'' & [=])].
Qed.

Lemma masked_sampling_without_replacement_witness :
  (1%nat = 0%nat ->
   sample_method 2 1 5 6 (Some (MaskTensor [1; 5; 6; 1]%nat (replicate 30 true))) false
     [4; 4; 7]%nat
   = (Raise IndexError, [4; 4; 7]%nat))
  /\ ((0 < 1)%nat ->
      exists sites,
        NoDup sites
        /\ (forall row, row ∈ sites
              <-> mask_true_at (MaskTensor [1; 5; 6; 1]%nat (replicate 30 true)) row)
        /\ (~ 0 <= 2 <= Z.of_nat (length sites) ->
            sample_method 2 1 5 6 (Some (MaskTensor [1; 5; 6; 1]%nat (replicate 30 true)))
              false [4; 4; 7]%nat
            = (Raise ValueError, [4; 4; 7]%nat))
        /\ (0 <= 2 <= Z.of_nat (length sites) ->
            (forall t,
               (sample_method 2 1 5 6
                  (Some (MaskTensor [1; 5; 6; 1]%nat (replicate 30 true)))
                  false [4; 4; 7]%nat).1 = Ok t ->
               ncols t = length [1; 5; 6]%nat
               /\ Z.of_nat (length (rows t)) = 2
               /\ NoDup (rows t)
               /\ forall row, row ∈ rows t -> row ∈ sites)
            /\ (forall e,
                  (sample_method 2 1 5 6
                     (Some (MaskTensor [1; 5; 6; 1]%nat (replicate 30 true)))
                     false [4; 4; 7]%nat).1 = Raise e ->
                  e = Hangs)
            /\ (exists setsize,
                  (2 <= 5 -> setsize = 21)
                  /\ (5 < 2 ->
                      exists m, 0 <= m /\ 4 ^ (m - 1) < 3 * 2 <= 4 ^ m
                                /\ setsize = 21 + 4 ^ m)
                  /\ (Z.of_nat (length sites) <= setsize ->
                      exists t,
                        sample_method 2 1 5 6
                          (Some (MaskTensor [1; 5; 6; 1]%nat (replicate 30 true)))
                          false [4; 4; 7]%nat
                        = (Ok t, drop (Z.to_nat 2) [4; 4; 7]%nat))
                  /\ (setsize < Z.of_nat (length sites) ->
                      is_ok (sample_method 2 1 5 6
                               (Some (MaskTensor [1; 5; 6; 1]%nat (replicate 30 true)))
                               false [4; 4; 7]%nat).1 = true
                      <-> 2
                          <= Z.of_nat
                               (size (list_to_set
                                        ((fun x => (x mod length sites)%nat)
                                           <$> [4; 4; 7]%nat)
                                      ∪ ({[0%nat]} : gset nat))))))).
Proof.
  apply (masked_sampling_without_replacement
           (MaskTensor [1; 5; 6; 1]%nat (replicate 30 true)) [1; 5; 6]%nat 1 2 1 5 6 false
           [4; 4; 7]%nat).
  reflexivity.
Defined.

(** A mask of 30 sites and a batch of 2: more than 21 sites, so that
    random.sample draws with its set; the second 4 is drawn again. *)
Example masked_draw_example :
  sample_method 2 1 5 6 (Some (MaskTensor [1; 5; 6; 1]%nat (replicate 30 true))) false
    [4; 4; 7]%nat
  = (Ok (Int2d 3 [[0; 0; 4]; [0; 1; 1]]), []).
Proof. reflexivity. Qed.

(** The same call on draws that never leave position 0. *)
Example masked_draw_hangs :
  (sample_method 2 1 5 6 (Some (MaskTensor [1; 5; 6; 1]%nat (replicate 30 true))) false
     [0; 30; 60]%nat).1
  = Raise Hangs.
Proof. reflexivity. Qed.

(** Four sites: the pool algorithm. *)
Example masked_draw_pool :
  (sample_method 2 1 2 2
     (Some (MaskTensor [1; 2; 2; 1]%nat [true; false; true; true])) false [4; 7]%nat).1
  = Ok (Int2d 3 [[0; 1; 0]; [0; 1; 1]]).
Proof. reflexivity. Qed.

Example masked_draw_too_many :
  (sample_method 4 1 2 2
     (Some (MaskTensor [1; 2; 2; 1]%nat [true; false; true; true])) false [4; 7]%nat).1
  = Raise ValueError.
Proof. reflexivity. Qed.

(** C4, as the specification words it, fails on three kinds of calls.  A
    mask of rank 3, the mask of one image that
    collate_image_dataset_batch_list passes, gives rows of two
    coordinates, not triples; a negative batch size raises ValueError,
    though it does not exceed the number of true entries; and a mask
    without channels raises IndexError for a batch size of 0, which does
    not exceed the number of true entries, 0. *)
Lemma masked_sampling_pairs_and_other_failures :
  (sample_method 2 1 2 2
     (Some (MaskTensor [2; 2; 1]%nat [true; false; true; true])) false [4; 7]%nat).1
  = Ok (Int2d 2 [[1; 0]; [1; 1]])
  /\ (sample_method (-1) 1 2 2
        (Some (MaskTensor [1; 2; 2; 1]%nat [true; false; true; true])) false [4; 7]%nat).1
     = Raise ValueError
  /\ (sample_method 0 1 2 2 (Some (MaskTensor [1; 2; 2; 0]%nat [])) false [4; 7]%nat).1
     = Raise IndexError.
Proof. split; [reflexivity|]. split; reflexivity. Qed.

(** *** The per-camera pose correction *)

Section PoseCorrectionFacts.

Import PoseCorrection.
#[local] Open Scope R_scope.

Lemma clip_bounds x lo hi : lo <= hi -> lo <= clip x lo hi <= hi.
Proof.
  intros Hle. unfold clip. split; [|apply Rmin_r].
  apply Rmin_glb; [apply Rmax_r | exact Hle].
Qed.

Lemma clip_above x lo hi : lo <= hi -> hi <= x -> clip x lo hi = hi.
Proof.
  intros Hle Hx. unfold clip. rewrite Rmax_left by lra. apply Rmin_right. exact Hx.
Qed.

Lemma nth_fmap_lookup (f : R -> R) (l : list R) k x :
  l !! k = Some x -> nth k (f <$> l) 0 = f x.
Proof. intros H. rewrite nth_lookup, list_lookup_fmap, H. reflexivity. Qed.

(** The matrix of camera [k] is [Rz(roll_k) Ry(yaw_k) Rx(pitch_k)]. *)
Lemma get_rot_mat_torch_lookup (angs : angles) (k : nat) r y p :
  length (yaw angs) = length (roll angs) ->
  length (pitch angs) = length (roll angs) ->
  roll angs !! k = Some r -> yaw angs !! k = Some y -> pitch angs !! k = Some p ->
  get_rot_mat_torch angs !! k = Some (rotation r y p).
Proof.
  intros Hy Hp Hr Hyk Hpk. unfold get_rot_mat_torch, permute_201.
  assert (Hk : (k < length (roll angs))%nat) by (eapply lookup_lt_Some; eauto).
  rewrite !lookup_zip_with, !list_lookup_fmap, lookup_seq_lt by exact Hk.
  cbn [fmap option_fmap option_map mbind option_bind fst snd Nat.add].
  unfold zeros_like, ones_like.
  rewrite !(nth_fmap_lookup _ _ _ _ Hr), !(nth_fmap_lookup _ _ _ _ Hyk),
    !(nth_fmap_lookup _ _ _ _ Hpk).
  reflexivity.
Qed.

Lemma lookup_clip_angles (a : angles) lo hi :
  (forall k x, roll a !! k = Some x -> roll (clip_angles a lo hi) !! k = Some (clip x lo hi))
  /\ (forall k x, yaw a !! k = Some x -> yaw (clip_angles a lo hi) !! k = Some (clip x lo hi))
  /\ (forall k x, pitch a !! k = Some x
        -> pitch (clip_angles a lo hi) !! k = Some (clip x lo hi)).
Proof.
  repeat split; intros k x H; cbn; rewrite list_lookup_fmap, H; reflexivity.
Qed.

Lemma index0_ok {A} (t : list A) c x :
  (- Z.of_nat (length t) <= c < Z.of_nat (length t))%Z ->
  t !! Z.to_nat (c `mod` Z.of_nat (length t)) = Some x ->
  index0 t c = Ok x.
Proof.
  intros Hc Hx. unfold index0. cbv zeta.
  destruct (Z.leb_spec (- Z.of_nat (length t)) c); [|lia].
  destruct (Z.ltb_spec c (Z.of_nat (length t))); [|lia].
  cbn [andb]. now rewrite Hx.
Qed.

Lemma mapM_index0 {A} (t : list A) (cams : list Z) :
  (forall c, c ∈ cams -> (- Z.of_nat (length t) <= c < Z.of_nat (length t))%Z) ->
  exists rs, mapM (index0 t) cams = Ok rs
    /\ Forall2 (fun c x => t !! Z.to_nat (c `mod` Z.of_nat (length t)) = Some x) cams rs.
Proof.
  induction cams as [|c cams IH]; intros Hin.
  - exists []. split; [reflexivity | constructor].
  - destruct IH as (rs & Hrs & Hall); [intros c' Hc'; apply Hin; now right|].
    assert (Hc := Hin c ltac:(left)).
    destruct (lookup_lt_is_Some_2 t (Z.to_nat (c `mod` Z.of_nat (length t)))) as [x Hx].
    { pose proof (Z.mod_pos_bound c (Z.of_nat (length t))). lia. }
    exists (x :: rs). split; [|now constructor].
    cbn [mapM]. rewrite (index0_ok t c x Hc Hx). cbn [mbind result_bind].
    rewrite Hrs. reflexivity.
Qed.

Lemma sin_5_neg : sin 5 < 0.
Proof.
  apply sin_lt_0.
  - pose proof PI_4. lra.
  - pose proof PI2_3_2. lra.
Qed.

Lemma sin_small_pos : 0 < sin 0.01.
Proof. apply sin_gt_0; [lra | pose proof PI2_3_2; lra]. Qed.

Lemma rotation_roll_only a :
  rotation a 0 0 = ((cos a, - sin a, 0), (sin a, cos a, 0), (0, 0, 1)).
Proof.
  unfold rotation, rot_z, rot_y, rot_x, matmul, mat_col, dot. cbn [fst snd].
  rewrite cos_0, sin_0. repeat f_equal; ring.
Qed.

End PoseCorrectionFacts.

Section PoseCorrectionClaim.

Import PoseCorrection.
#[local] Open Scope R_scope.

Lemma broadcast_same {A B C} (f : A -> B -> C) xs ys :
  length xs = length ys -> broadcast f xs ys = Ok (zip_with f xs ys).
Proof. intros H. unfold broadcast. now rewrite H, Nat.eqb_refl. Qed.

Lemma rotation_entries a b g :
  rotation a b g
  = ((cos a * cos b, cos a * sin b * sin g - sin a * cos g,
      cos a * sin b * cos g + sin a * sin g),
     (sin a * cos b, sin a * sin b * sin g + cos a * cos g,
      sin a * sin b * cos g - cos a * sin g),
     (- sin b, cos b * sin g, cos b * cos g)).
Proof.
  unfold rotation, rot_z, rot_y, rot_x, matmul, mat_col, dot. cbn [fst snd].
  repeat match goal with |- (_, _) = (_, _) => apply f_equal2 end; ring.
Qed.

Lemma cos_small_pos x : -0.01 <= x <= 0.01 -> 0 < cos x.
Proof. intros H. apply cos_gt_0; pose proof PI2_3_2; lra. Qed.

(** C7: for a bundle of rays, get_outputs replaces the direction d of each
    ray by M d, where M is the matrix Rz(a) Ry(b) Rx(g) written out below
    and a, b, g are the roll, yaw and pitch of the ray's camera, each
    brought into [-0.01, 0.01] by min and max, and adds to its origin the
    position delta of that camera, each component brought into
    [-0.2, 0.2]; the directions come back with shape [3] for a bundle of
    one ray; and for a camera with a stored roll of 5.0 the matrix is the
    one written with 0.01, which differs from the one written with 5.0. *)
Theorem pose_correction_is_clipped
    (rot_angs : angles) (pos_diff : list vec3) (os ds : list vec3) (cams : list Z) :
  length (roll rot_angs) = 153%nat ->
  length (yaw rot_angs) = 153%nat ->
  length (pitch rot_angs) = 153%nat ->
  length pos_diff = 153%nat ->
  length os = length cams ->
  length ds = length cams ->
  (forall c, c ∈ cams -> (-153 <= c < 153)%Z) ->
  exists os' ds',
    get_outputs_rays rot_angs pos_diff (MkRayBundle os (Rows ds) cams)
    = Ok (MkRayBundle os' (match ds' with [v] => One v | _ => Rows ds' end) cams)
    /\ length os' = length cams
    /\ length ds' = length cams
    /\ (forall (i : nat) (c : Z) (o d : vec3),
          cams !! i = Some c -> os !! i = Some o -> ds !! i = Some d ->
          exists r y p t,
            roll rot_angs !! Z.to_nat (c `mod` 153) = Some r
            /\ yaw rot_angs !! Z.to_nat (c `mod` 153) = Some y
            /\ pitch rot_angs !! Z.to_nat (c `mod` 153) = Some p
            /\ pos_diff !! Z.to_nat (c `mod` 153) = Some t
            /\ (let a := Rmin (Rmax r (-0.01)) 0.01 in
                let b := Rmin (Rmax y (-0.01)) 0.01 in
                let g := Rmin (Rmax p (-0.01)) 0.01 in
                ds' !! i
                = Some ((cos a * cos b) * d.1.1
                        + (cos a * sin b * sin g - sin a * cos g) * d.1.2
                        + (cos a * sin b * cos g + sin a * sin g) * d.2,
                        (sin a * cos b) * d.1.1
                        + (sin a * sin b * sin g + cos a * cos g) * d.1.2
                        + (sin a * sin b * cos g - cos a * sin g) * d.2,
                        (- sin b) * d.1.1 + (cos b * sin g) * d.1.2
                        + (cos b * cos g) * d.2))
            /\ os' !! i
               = Some (o.1.1 + Rmin (Rmax t.1.1 (-0.2)) 0.2,
                       o.1.2 + Rmin (Rmax t.1.2 (-0.2)) 0.2,
                       o.2 + Rmin (Rmax t.2 (-0.2)) 0.2))
    /\ (forall k y p,
          roll rot_angs !! k = Some 5 -> yaw rot_angs !! k = Some y ->
          pitch rot_angs !! k = Some p ->
          let b := Rmin (Rmax y (-0.01)) 0.01 in
          let g := Rmin (Rmax p (-0.01)) 0.01 in
          let M : R -> mat3 := fun a : R =>
            ((cos a * cos b, cos a * sin b * sin g - sin a * cos g,
              cos a * sin b * cos g + sin a * sin g),
             (sin a * cos b, sin a * sin b * sin g + cos a * cos g,
              sin a * sin b * cos g - cos a * sin g),
             (- sin b, cos b * sin g, cos b * cos g)) in
          get_rot_mat_torch (clip_angles rot_angs (-0.01) 0.01) !! k = Some (M 0.01)
          /\ M 0.01 <> M 5).
Proof.
  intros Hroll Hyaw Hpitch Hpos Hos Hds Hcams.
  set (ca := clip_angles rot_angs (-0.01) 0.01).
  assert (HlenR : length (get_rot_mat_torch ca) = 153%nat).
  { unfold get_rot_mat_torch, permute_201.
    rewrite !length_zip_with, !length_fmap, length_seq. cbn.
    rewrite length_fmap, Hroll. reflexivity. }
  assert (Hl1 : length (yaw ca) = length (roll ca))
    by (cbn; rewrite !length_fmap; lia).
  assert (Hl2 : length (pitch ca) = length (roll ca))
    by (cbn; rewrite !length_fmap; lia).
  destruct (lookup_clip_angles rot_angs (-0.01) 0.01) as (Lr & Ly & Lp).
  destruct (mapM_index0 (get_rot_mat_torch ca) cams) as (sel & Hsel & HselAll).
  { rewrite HlenR. exact Hcams. }
  destruct (mapM_index0 pos_diff cams) as (delts & Hdelts & HdeltsAll).
  { rewrite Hpos. exact Hcams. }
  rewrite HlenR in HselAll. rewrite Hpos in HdeltsAll.
  pose proof (Forall2_length _ _ _ HselAll) as Hlsel.
  pose proof (Forall2_length _ _ _ HdeltsAll) as Hldelts.
  exists (zip_with vadd os ((fun d => clip_vec3 d (-0.2) 0.2) <$> delts)),
    (zip_with mat_vec sel ds).
  split; [|split; [|split; [|split]]].
  - unfold get_outputs_rays. cbn [camera_indices directions origins]. fold ca.
    rewrite Hsel. cbn [mbind result_bind].
    rewrite broadcast_same by lia. cbn [mbind result_bind].
    rewrite Hdelts. cbn [mbind result_bind].
    rewrite broadcast_same by (rewrite length_fmap; lia). reflexivity.
  - rewrite length_zip_with, length_fmap. lia.
  - rewrite length_zip_with. lia.
  - intros i c o d Hc Ho Hd.
    assert (Hc' := Hcams c ltac:(apply list_elem_of_lookup; eauto)).
    assert (Hk : (Z.to_nat (c `mod` 153) < 153)%nat).
    { pose proof (Z.mod_pos_bound c 153). lia. }
    destruct (lookup_lt_is_Some_2 (roll rot_angs) (Z.to_nat (c `mod` 153))) as [r Hr]; [lia|].
    destruct (lookup_lt_is_Some_2 (yaw rot_angs) (Z.to_nat (c `mod` 153))) as [y Hy]; [lia|].
    destruct (lookup_lt_is_Some_2 (pitch rot_angs) (Z.to_nat (c `mod` 153))) as [p Hp]; [lia|].
    destruct (Forall2_lookup_l _ _ _ _ _ HselAll Hc) as (m & Hm & Hmk).
    destruct (Forall2_lookup_l _ _ _ _ _ HdeltsAll Hc) as (delt & Hdelt & Hdk).
    exists r, y, p, delt. repeat (split; [assumption|]).
    change (Z.of_nat 153) with 153%Z in Hmk, Hdk.
    pose proof (get_rot_mat_torch_lookup ca _ _ _ _ Hl1 Hl2
                  (Lr _ _ Hr) (Ly _ _ Hy) (Lp _ _ Hp)) as Hrot.
    assert (Hmeq : m = rotation (clip r (-0.01) 0.01) (clip y (-0.01) 0.01)
                     (clip p (-0.01) 0.01)) by congruence.
    subst m. split.
    + cbv zeta. rewrite lookup_zip_with, Hm. cbn [mbind option_bind].
      rewrite Hd. cbn [mbind option_bind].
      rewrite rotation_entries. unfold mat_vec, dot, clip. cbn [fst snd]. reflexivity.
    + rewrite lookup_zip_with, Ho, list_lookup_fmap, Hdelt. reflexivity.
  - intros k y p Hr Hy Hp. cbv zeta. split.
    + rewrite (get_rot_mat_torch_lookup ca _ _ _ _ Hl1 Hl2
                 (Lr _ _ Hr) (Ly _ _ Hy) (Lp _ _ Hp)).
      rewrite rotation_entries. unfold clip.
      rewrite (Rmax_left 5 (-0.01)) by lra. rewrite (Rmin_right 5 0.01) by lra.
      reflexivity.
    + intros E.
      assert (Hs : sin 0.01 * cos (Rmin (Rmax y (-0.01)) 0.01)
                   = sin 5 * cos (Rmin (Rmax y (-0.01)) 0.01)) by congruence.
      assert (Hb : 0 < cos (Rmin (Rmax y (-0.01)) 0.01)).
      { apply cos_small_pos. split; [|apply Rmin_r].
        apply Rmin_glb; [apply Rmax_r | lra]. }
      pose proof sin_5_neg. pose proof sin_small_pos. nra.
Qed.

Lemma pose_correction_is_clipped_witness :
  exists os' ds',
    get_outputs_rays (Angles (replicate 153 5) (replicate 153 0) (replicate 153 0))
      (replicate 153 (1, 0, 0))
      (MkRayBundle [(0, 0, 0); (1, 1, 1)] (Rows [(1, 0, 0); (0, 1, 0)]) [7%Z; (-1)%Z])
    = Ok (MkRayBundle os' (match ds' with [v] => One v | _ => Rows ds' end) [7%Z; (-1)%Z])
    /\ length os' = length [7%Z; (-1)%Z]
    /\ length ds' = length [7%Z; (-1)%Z]
    /\ (forall (i : nat) (c : Z) (o d : vec3),
          [7%Z; (-1)%Z] !! i = Some c ->
          [(0, 0, 0); (1, 1, 1)] !! i = Some o ->
          [(1, 0, 0); (0, 1, 0)] !! i = Some d ->
          exists r y p t,
            roll (Angles (replicate 153 5) (replicate 153 0) (replicate 153 0))
              !! Z.to_nat (c `mod` 153) = Some r
            /\ yaw (Angles (replicate 153 5) (replicate 153 0) (replicate 153 0))
                 !! Z.to_nat (c `mod` 153) = Some y
            /\ pitch (Angles (replicate 153 5) (replicate 153 0) (replicate 153 0))
                 !! Z.to_nat (c `mod` 153) = Some p
            /\ replicate 153 (1, 0, 0) !! Z.to_nat (c `mod` 153) = Some t
            /\ (let a := Rmin (Rmax r (-0.01)) 0.01 in
                let b := Rmin (Rmax y (-0.01)) 0.01 in
                let g := Rmin (Rmax p (-0.01)) 0.01 in
                ds' !! i
                = Some ((cos a * cos b) * d.1.1
                        + (cos a * sin b * sin g - sin a * cos g) * d.1.2
                        + (cos a * sin b * cos g + sin a * sin g) * d.2,
                        (sin a * cos b) * d.1.1
                        + (sin a * sin b * sin g + cos a * cos g) * d.1.2
                        + (sin a * sin b * cos g - cos a * sin g) * d.2,
                        (- sin b) * d.1.1 + (cos b * sin g) * d.1.2
                        + (cos b * cos g) * d.2))
            /\ os' !! i
               = Some (o.1.1 + Rmin (Rmax t.1.1 (-0.2)) 0.2,
                       o.1.2 + Rmin (Rmax t.1.2 (-0.2)) 0.2,
                       o.2 + Rmin (Rmax t.2 (-0.2)) 0.2))
    /\ (forall k y p,
          roll (Angles (replicate 153 5) (replicate 153 0) (replicate 153 0)) !! k = Some 5 ->
          yaw (Angles (replicate 153 5) (replicate 153 0) (replicate 153 0)) !! k = Some y ->
          pitch (Angles (replicate 153 5) (replicate 153 0) (replicate 153 0)) !! k = Some p ->
          let b := Rmin (Rmax y (-0.01)) 0.01 in
          let g := Rmin (Rmax p (-0.01)) 0.01 in
          let M : R -> mat3 := fun a : R =>
            ((cos a * cos b, cos a * sin b * sin g - sin a * cos g,
              cos a * sin b * cos g + sin a * sin g),
             (sin a * cos b, sin a * sin b * sin g + cos a * cos g,
              sin a * sin b * cos g - cos a * sin g),
             (- sin b, cos b * sin g, cos b * cos g)) in
          get_rot_mat_torch
            (clip_angles (Angles (replicate 153 5) (replicate 153 0) (replicate 153 0))
               (-0.01) 0.01) !! k = Some (M 0.01)
          /\ M 0.01 <> M 5).
Proof.
  apply (pose_correction_is_clipped
           (Angles (replicate 153 5) (replicate 153 0) (replicate 153 0))
           (replicate 153 (1, 0, 0)) [(0, 0, 0); (1, 1, 1)] [(1, 0, 0); (0, 1, 0)]
           [7%Z; (-1)%Z]);
    try reflexivity.
  intros c Hc. set_unfold. lia.
Defined.

End PoseCorrectionClaim.

(** *** random.shuffle permutes *)

Lemma randbelow_total n tape : exists j tape', randbelow n tape = (Ok j, tape').
Proof. destruct tape as [|x tape]; cbn; eauto. Qed.

Lemma swap_lookup {A} (i j : nat) (l : list A) k :
  (i < length l)%nat -> (j < length l)%nat ->
  swap i j l !! k = l !! (if decide (k = j) then i else if decide (k = i) then j else k).
Proof.
  intros Hi Hj. unfold swap.
  destruct (lookup_lt_is_Some_2 l i Hi) as [xi Hxi].
  destruct (lookup_lt_is_Some_2 l j Hj) as [xj Hxj].
  rewrite Hxi, Hxj.
  destruct (decide (k = j)) as [->|Hkj].
  - rewrite list_lookup_insert_eq by (rewrite length_insert; lia). now rewrite Hxi.
  - rewrite list_lookup_insert_ne by congruence.
    destruct (decide (k = i)) as [->|Hki].
    + rewrite list_lookup_insert_eq by lia. now rewrite Hxj.
    + now rewrite list_lookup_insert_ne by congruence.
Qed.

Lemma swap_Permutation {A} (i j : nat) (l : list A) : swap i j l ≡ₚ l.
Proof.
  destruct (decide (i < length l)%nat) as [Hi|Hi].
  2:{ unfold swap. rewrite (lookup_ge_None_2 l i) by lia. reflexivity. }
  destruct (decide (j < length l)%nat) as [Hj|Hj].
  2:{ unfold swap. rewrite (lookup_ge_None_2 l j) by lia. now destruct (l !! i). }
  apply Permutation_inj. split.
  - unfold swap.
    destruct (l !! i), (l !! j); rewrite ?length_insert; reflexivity.
  - exists (fun k => if decide (k = j) then i else if decide (k = i) then j else k).
    split.
    + intros a b. repeat case_decide; lia.
    + intros k. now apply swap_lookup.
Qed.

Lemma shuffle_from_Permutation {A} i : forall (l : list A) tape,
  exists l' tape', shuffle_from i l tape = (Ok l', tape') /\ l' ≡ₚ l.
Proof.
  induction i as [|i IH]; intros l tape.
  - exists l, tape. split; reflexivity.
  - cbn [shuffle_from].
    destruct (randbelow_total (S (S i)) tape) as (j & tape1 & Hj).
    rewrite (bind_ok _ _ _ _ _ Hj).
    destruct (IH (swap (S i) j l) tape1) as (l' & tape' & Hl' & Hperm).
    exists l', tape'. split; [exact Hl'|].
    rewrite Hperm. apply swap_Permutation.
Qed.

Lemma shuffle_Permutation {A} (l : list A) tape :
  exists l' tape', shuffle l tape = (Ok l', tape') /\ l' ≡ₚ l.
Proof. apply shuffle_from_Permutation. Qed.

Lemma randint_range a b tape :
  a <= b -> exists r tape', randint a b tape = (Ok r, tape') /\ a <= r <= b.
Proof.
  intros Hab. unfold randint. destruct (Z.ltb_spec b a); [lia|].
  destruct (randbelow_lt (Z.to_nat (b - a + 1)) tape) as (j & tape' & Hj & Hlt); [lia|].
  rewrite (bind_ok _ _ _ _ _ Hj). exists (a + Z.of_nat j), tape'.
  split; [reflexivity | lia].
Qed.

(** *** The anchor queues *)

Import TieredFeaturePatchPixelSampler.

Lemma anchor_rows_one extent p tape :
  1 <= p ->
  exists start row tape',
    anchor_rows 1 extent p tape = (Ok [row], tape')
    /\ 0 <= start < p
    /\ row ≡ₚ (fun i => start + i * p) <$> seqZ 0 (extent / p - 1).
Proof.
  intros Hp. cbn [anchor_rows].
  destruct (randint_range 0 (p - 1) tape) as (start & tape1 & Hstart & Hrange); [lia|].
  rewrite (bind_ok _ _ _ _ _ Hstart).
  unfold lift at 1. rewrite floordiv_ok by lia.
  erewrite bind_ok by reflexivity.
  destruct (shuffle_Permutation ((fun i => start + i * p) <$> seqZ 0 (extent / p - 1)) tape1)
    as (row & tape' & Hrow & Hperm).
  rewrite (bind_ok _ _ _ _ _ Hrow).
  exists start, row, tape'. split; [reflexivity|]. split; [lia | exact Hperm].
Qed.


(** *** The per-tier grids *)


(** *** Selecting one image out of the grids *)


Lemma filter_true_replicate n (b : bool) :
  length (List.filter (fun b : bool => b) (replicate n b)) = if b then n else 0%nat.
Proof. induction n as [|n IH]; destruct b; cbn in *; auto. Qed.


Lemma one_hot_single n c :
  0 <= c < Z.of_nat n ->
  exists sel, one_hot n [c] = Ok sel
    /\ length sel = n
    /\ length (List.filter (fun b : bool => b) sel) = 1%nat.
Proof.
  intros Hc. unfold one_hot. cbn [foldr mbind result_bind].
  destruct (Z.leb_spec (- Z.of_nat n) c); [|lia].
  destruct (Z.ltb_spec c (Z.of_nat n)); [|lia]. cbn [andb].
  eexists. split; [reflexivity|]. rewrite length_insert, length_replicate.
  split; [reflexivity|].
  rewrite Z.mod_small by lia.
  rewrite insert_take_drop by (rewrite length_replicate; lia).
  rewrite take_replicate, drop_replicate, List.filter_app, length_app. cbn.
  rewrite !filter_true_replicate. reflexivity.
Qed.

(** *** One tier, and the loop over the tiers *)





(** *** The blocks of the unmasked call *)

Lemma rnd_ok {A} (m : M tape A) s tape a tape' :
  m tape = (Ok a, tape') -> rnd m (World s tape) = (Ok a, World s tape').
Proof. intros H. unfold rnd, zoom. cbn. now rewrite H. Qed.

Lemma set_select_idxs_same s : set_select_idxs (select_idxs s) s = s.
Proof. now destruct s. Qed.


Lemma take_select_idxs_spec s tape :
  take_select_idxs (World s tape)
  = (Ok (take 1 (select_idxs s)), World (set_select_idxs (drop 1 (select_idxs s)) s) tape).
Proof. reflexivity. Qed.

Lemma make_select_spec s tape c cs :
  indices s <> [] -> 0 <= c < 153 ->
  exists sel,
    make_select (take 1 (c :: cs)) (World s tape) = (Ok sel, World s tape)
    /\ length sel = 153%nat
    /\ length (List.filter (fun b : bool => b) sel) = 1%nat.
Proof.
  intros Hidx Hc. destruct (one_hot_single 153 c) as (sel & Hsel & Hlen & Hone); [lia|].
  exists sel. split; [|auto]. change (take 1 (c :: cs)) with [c]. unfold make_select.
  erewrite bind_ok by reflexivity. cbn [self].
  destruct (indices s) as [|g gs] eqn:E; [congruence|].
  erewrite bind_ok by reflexivity. unfold lift. rewrite Hsel. reflexivity.
Qed.

Lemma anchor_row_nonempty extent p (row : list Z) start :
  1 <= p -> 2 * p <= extent ->
  row ≡ₚ (fun i => start + i * p) <$> seqZ 0 (extent / p - 1) -> row <> [].
Proof.
  intros Hp Hext Hperm ->. apply Permutation_length in Hperm.
  rewrite length_fmap, length_seqZ in Hperm. cbn in Hperm.
  assert (2 <= extent / p) by (apply Z.div_le_lower_bound; lia). lia.
Qed.



Lemma refill_dh_lst_refills s tape :
  1 <= patch_size s -> dh_lst s = [[]] ->
  exists start row tape',
    refill_dh_lst (World s tape) = (Ok tt, World (set_dh_lst [row] s) tape')
    /\ 0 <= start < patch_size s
    /\ row ≡ₚ (fun i => start + i * patch_size s) <$> seqZ 0 (720 / patch_size s - 1).
Proof.
  intros Hp Hdh. unfold refill_dh_lst.
  erewrite bind_ok by reflexivity. cbn [self]. rewrite Hdh.
  erewrite bind_ok by reflexivity. cbn [length Nat.eqb]. unfold num_to_select.
  destruct (anchor_rows_one 720 (patch_size s) tape) as (start & row & tape' & Hrow & Hs & Hperm);
    [lia|].
  erewrite bind_ok by (apply rnd_ok, Hrow).
  exists start, row, tape'. split; [reflexivity | auto].
Qed.

Lemma pop_anchors_spec s tape x rw a rest :
  dw_lst s = [x :: rw] -> dh_lst s = [a :: rest] ->
  pop_anchors (World s tape)
  = (Ok ([x], [a]), World (set_dh_lst [rest] (set_dw_lst [rw] s)) tape).
Proof.
  intros Hdw Hdh. unfold pop_anchors.
  erewrite bind_ok by reflexivity. cbn [self]. rewrite Hdw, Hdh. reflexivity.
Qed.



(** *** A run of calls, and construction *)




(** *** Collation of a stacked batch *)

Section CollateFacts.

Import Objects.
Context {F : Type} {prims : TorchPrims F}.

Lemma dict_get_ok (w : world F) d kvs k v :
  heap w !! d = Some (ODict kvs) -> assoc_lookup k kvs = Some v ->
  dict_get d k w = (Ok v, w).
Proof.
  intros Hd Hk. unfold dict_get, load_dict, load.
  unfold mbind, M_bind, Py.bind. rewrite Hd. cbn. now rewrite Hk.
Qed.

Lemma dict_has_absent (w : world F) d kvs k :
  heap w !! d = Some (ODict kvs) -> assoc_lookup k kvs = None ->
  dict_has d k w = (Ok false, w).
Proof.
  intros Hd Hk. unfold dict_has, load_dict, load.
  unfold mbind, M_bind, Py.bind. rewrite Hd. cbn. now rewrite Hk.
Qed.

Lemma tensor_attr_ok (w : world F) l t :
  heap w !! l = Some (OTensor t) -> tensor_attr (VRef l) w = (Ok t, w).
Proof.
  intros Hl. unfold tensor_attr, load. unfold mbind, M_bind, Py.bind. now rewrite Hl.
Qed.

(** C1, as the code has it: on a batch of 2 images of 4 x 4 pixels with no
    mask, collate_image_dataset_batch overwrites its ray budget by
    [height * width = 16] and asks sample_method, in all_pixels mode, for
    that many triples, whatever budget it was given; and for that request
    PixelSampler.sample_method hands back 16 distinct triples of the index
    space, not all 32 of them.  (What the rest of the function makes of
    them is left to [unpack5] and [collate_finish].) *)
Theorem collate_requests_one_frame_of_triples
    (w : world F) (batch image : positive) (kvs : list (string * pyval))
    (t : tensor F) (channels : nat) (num_rays_per_batch : Z) (keep_full_image : bool)
    (tape : Random.tape) :
  heap w !! batch = Some (ODict kvs) ->
  assoc_lookup "image" kvs = Some (VRef image) ->
  assoc_lookup "mask" kvs = None ->
  heap w !! image = Some (OTensor t) ->
  tshape t = [2; 4; 4; channels]%nat ->
  collate_image_dataset_batch batch num_rays_per_batch keep_full_image w
  = (r ← sample_method 16 2 4 4 None (Some true);
     '(indices, dw, dh, select, xy_dim) ← unpack5 r;
     collate_finish batch keep_full_image indices
       (Some (SideChannel dw dh select xy_dim))) w
  /\ exists idx,
       PixelSampler.sample_method 16 2 4 4 None true tape = (Ok idx, tape)
       /\ ncols idx = 3%nat
       /\ length (rows idx) = 16%nat
       /\ NoDup (rows idx)
       /\ (forall row, row ∈ rows idx -> row ∈ PixelSampler.index_space 2 4 4)
       /\ length (PixelSampler.index_space 2 4 4) = 32%nat
       /\ [0; 0; 2] ∈ PixelSampler.index_space 2 4 4
       /\ [0; 0; 2] ∉ rows idx.
Proof.
  intros Hbatch Himage Hmask Ht Hshape. split.
  - unfold collate_image_dataset_batch.
    rewrite (bind_ok _ _ _ _ _ (dict_get_ok w batch kvs "image" _ Hbatch Himage)).
    rewrite (bind_ok _ _ _ _ _ (tensor_attr_ok w image t Ht)).
    unfold lift at 1, shape4. rewrite Hshape. erewrite bind_ok by reflexivity.
    cbv zeta. unfold collate_sample.
    change (Z.of_nat 4 * Z.of_nat 4) with 16. change (Z.of_nat 2) with 2.
    change (Z.of_nat 4) with 4.
    unfold mbind, M_bind, Py.bind.
    rewrite (dict_has_absent w batch kvs "mask" Hbatch Hmask).
    destruct (sample_method 16 2 4 4 None (Some true) w) as [[r|e] w1]; [|reflexivity].
    destruct (unpack5 r w1) as [[[[[[indices dw] dh] select] xy_dim]|e] w2]; reflexivity.
  - eexists. split; [reflexivity|]. cbn [ncols rows].
    split; [reflexivity|]. split; [reflexivity|]. split.
    { apply (bool_decide_unpack _). vm_compute. exact I. }
    split.
    { apply Forall_forall. apply (bool_decide_unpack _). vm_compute. exact I. }
    split; [reflexivity|]. split.
    { apply (bool_decide_unpack _). vm_compute. exact I. }
    { apply (bool_decide_unpack _). vm_compute. exact I. }
Qed.

End CollateFacts.

#[local] Existing Instance Objects.data_free_prims.

Lemma collate_requests_one_frame_of_triples_witness :
  Objects.collate_image_dataset_batch (prims := Objects.data_free_prims) 1 32 true
    Objects.two_images_4x4
  = (r ← Objects.sample_method 16 2 4 4 None (Some true);
     '(indices, dw, dh, select, xy_dim) ← Objects.unpack5 r;
     Objects.collate_finish 1 true indices
       (Some (Objects.SideChannel dw dh select xy_dim))) Objects.two_images_4x4
  /\ exists idx,
       PixelSampler.sample_method 16 2 4 4 None true [] = (Ok idx, [])
       /\ ncols idx = 3%nat
       /\ length (rows idx) = 16%nat
       /\ NoDup (rows idx)
       /\ (forall row, row ∈ rows idx -> row ∈ PixelSampler.index_space 2 4 4)
       /\ length (PixelSampler.index_space 2 4 4) = 32%nat
       /\ [0; 0; 2] ∈ PixelSampler.index_space 2 4 4
       /\ [0; 0; 2] ∉ rows idx.
Proof.
  apply (collate_requests_one_frame_of_triples (prims := Objects.data_free_prims)
           Objects.two_images_4x4 1 2
           [("image"%string, Objects.VRef 2)]
           (Objects.TFloat [2; 4; 4; 3]%nat (replicate 96 tt)) 3 32 true []);
    reflexivity.
Defined.

(** C1, as the specification words it, fails: on the batch of two 4 x 4
    images the call of a PixelSampler does not return a collated batch, it
    raises at the five-way unpacking; and the tensor sample_method had
    produced holds 16 rows, 8 per image, not 32. *)
Lemma collate_two_images_does_not_return_32_triples :
  (Objects.collate_image_dataset_batch (prims := Objects.data_free_prims) 1 32 false
     Objects.two_images_4x4).1 = Raise ValueError
  /\ rows <$> (PixelSampler.sample_method 16 2 4 4 None true []).1
     = Ok [[0; 0; 0]; [0; 0; 1]; [0; 1; 2]; [0; 1; 3]; [0; 2; 0]; [0; 2; 1];
           [0; 3; 2]; [0; 3; 3]; [1; 0; 0]; [1; 0; 1]; [1; 1; 2]; [1; 1; 3];
           [1; 2; 0]; [1; 2; 1]; [1; 3; 2]; [1; 3; 3]].
Proof. split; vm_compute; reflexivity. Qed.

(** *** sample leaves the objects it was given alone *)

Section FrameFacts.

Import Objects.
Context {F : Type} {prims : TorchPrims F}.
Implicit Types (hp : gmap positive (obj F)) (w : world F) (v : pyval).

Lemma keeps_ret {A} hp (a : A) (Q : A -> Prop) : Q a -> keeps hp (mret a) Q.
Proof. intros Ha w Hw. split; [exact Hw|]. now intros a' [= <-]. Qed.

Lemma keeps_raise {A} hp e (Q : A -> Prop) : keeps hp (raise e) Q.
Proof. intros w Hw. split; [exact Hw | discriminate]. Qed.

Lemma keeps_lift {A} hp (r : result A) : keeps hp (lift r) (fun _ => True).
Proof. intros w Hw. split; [exact Hw | auto]. Qed.

Lemma keeps_bind {A B} hp (m : M (world F) A) (k : A -> M (world F) B) Q Q' :
  keeps hp m Q -> (forall a, Q a -> keeps hp (k a) Q') -> keeps hp (m ≫= k) Q'.
Proof.
  intros Hm Hk w Hw. destruct (Hm w Hw) as [Hw1 HQ].
  unfold mbind, M_bind, Py.bind. destruct (m w) as [[a|e] w1]; cbn in *.
  - apply (Hk a (HQ a eq_refl) w1 Hw1).
  - split; [exact Hw1 | discriminate].
Qed.

Lemma keeps_weaken {A} hp (m : M (world F) A) (Q Q' : A -> Prop) :
  keeps hp m Q -> (forall a, Q a -> Q' a) -> keeps hp m Q'.
Proof. intros Hm HQ w Hw. destruct (Hm w Hw). split; auto. Qed.

Lemma keeps_any {A} hp (m : M (world F) A) (Q : A -> Prop) :
  keeps hp m Q -> keeps hp m (fun _ => True).
Proof. intros Hm. eapply keeps_weaken; [exact Hm | auto]. Qed.

Lemma keeps_rnd {A} hp (m : M tape A) : keeps hp (rnd m) (fun _ => True).
Proof.
  intros w Hw. unfold rnd, zoom. destruct (m (rng w)) as [r t]. split; [exact Hw | auto].
Qed.

Lemma keeps_get_self hp : keeps hp get_self (fun _ => True).
Proof. intros w Hw. split; [exact Hw | auto]. Qed.

Lemma keeps_load hp l : keeps hp (load l) (fun _ => True).
Proof.
  intros w Hw. unfold load. destruct (heap w !! l); split; try exact Hw; auto.
Qed.

Lemma keeps_alloc hp o : keeps hp (alloc o) (fun l => hp !! l = None).
Proof.
  intros w Hw. unfold alloc. cbn.
  assert (Hfresh : heap w !! fresh (dom (heap w)) = None).
  { apply not_elem_of_dom, is_fresh. }
  assert (Hnone : hp !! fresh (dom (heap w)) = None).
  { destruct (hp !! fresh (dom (heap w))) as [o'|] eqn:E; [|reflexivity].
    eapply lookup_weaken in E; [|exact Hw]. congruence. }
  split.
  - unfold kept. cbn. now apply insert_subseteq_r.
  - now intros a [= <-].
Qed.

Lemma keeps_store hp l o : hp !! l = None -> keeps hp (store l o) (fun _ => True).
Proof.
  intros Hl w Hw. unfold store. cbn. split; [|auto].
  unfold kept. cbn. now apply insert_subseteq_r.
Qed.

Lemma keeps_for_each {A B} hp (xs : list A) (body : A -> B -> M (world F) B) :
  (forall x acc, keeps hp (body x acc) (fun _ => True)) ->
  forall acc, keeps hp (for_each xs acc body) (fun _ => True).
Proof.
  intros Hbody. induction xs as [|x xs IH]; intros acc; cbn [for_each].
  - now apply keeps_ret.
  - apply (keeps_bind hp _ _ (fun _ => True)); [apply Hbody | intros a _; apply IH].
Qed.

Lemma keeps_mapM {A B} hp (f : A -> M (world F) B) (Q : B -> Prop) (xs : list A) :
  (forall x, keeps hp (f x) Q) -> keeps hp (mapM f xs) (Forall Q).
Proof.
  intros Hf. induction xs as [|x xs IH]; cbn [mapM].
  - apply keeps_ret. constructor.
  - eapply keeps_bind; [apply Hf | intros y Hy].
    eapply keeps_bind; [apply IH | intros ys Hys].
    apply keeps_ret. now constructor.
Qed.

(** Reading *)

Lemma keeps_load_tensor hp v : keeps hp (load_tensor v) (fun _ => True).
Proof.
  unfold load_tensor. destruct v; try apply keeps_raise.
  eapply keeps_bind; [apply keeps_load | intros o _].
  destruct o; (apply keeps_raise || now apply keeps_ret).
Qed.

Lemma keeps_tensor_attr hp v : keeps hp (tensor_attr v) (fun _ => True).
Proof.
  unfold tensor_attr. destruct v; try apply keeps_raise.
  eapply keeps_bind; [apply keeps_load | intros o _].
  destruct o; (apply keeps_raise || now apply keeps_ret).
Qed.

Lemma keeps_load_arg hp v : keeps hp (load_arg v) (fun _ => True).
Proof.
  unfold load_arg.
  destruct v; try (eapply keeps_bind; [apply keeps_load_tensor | intros; now apply keeps_ret]).
  now apply keeps_ret.
Qed.

Lemma keeps_load_dict hp l : keeps hp (load_dict l) (fun _ => True).
Proof.
  unfold load_dict. eapply keeps_bind; [apply keeps_load | intros o _].
  destruct o; (apply keeps_raise || now apply keeps_ret).
Qed.

Lemma keeps_dict_get hp d k : keeps hp (dict_get d k) (fun _ => True).
Proof.
  unfold dict_get. eapply keeps_bind; [apply keeps_load_dict | intros kvs _].
  destruct (assoc_lookup k kvs); (apply keeps_raise || now apply keeps_ret).
Qed.

Lemma keeps_dict_has hp d k : keeps hp (dict_has d k) (fun _ => True).
Proof.
  unfold dict_has. eapply keeps_bind; [apply keeps_load_dict | intros kvs _].
  now apply keeps_ret.
Qed.

Lemma keeps_as_mask hp v : keeps hp (as_mask v) (fun _ => True).
Proof.
  unfold as_mask. destruct v; try now apply keeps_ret.
  eapply keeps_bind; [apply keeps_load | intros o _].
  destruct o; now apply keeps_ret.
Qed.

Lemma keeps_load_int2d hp v : keeps hp (load_int2d v) (fun _ => True).
Proof.
  unfold load_int2d. eapply keeps_bind; [apply keeps_load_tensor | intros t _].
  apply keeps_lift.
Qed.

Lemma keeps_kind_of hp v : keeps hp (kind_of v) (fun _ => True).
Proof.
  unfold kind_of. destruct v; try now apply keeps_ret.
  eapply keeps_bind; [apply keeps_load | intros o _].
  destruct o; now apply keeps_ret.
Qed.

Lemma keeps_len hp v : keeps hp (len v) (fun _ => True).
Proof.
  unfold len. destruct v; try apply keeps_raise; try now apply keeps_ret.
  eapply keeps_bind; [apply keeps_load | intros o _].
  destruct o; try (now apply keeps_ret). apply keeps_lift.
Qed.

(** Allocating *)

Lemma keeps_alloc_tensor hp t : keeps hp (alloc_tensor t) (fresh_for hp).
Proof.
  unfold alloc_tensor. eapply keeps_bind; [apply keeps_alloc | intros l Hl].
  apply keeps_ret. intros l' [= <-]. exact Hl.
Qed.

Lemma keeps_alloc_out hp o : keeps hp (alloc_out o) (fresh_for hp).
Proof.
  destruct o as [t | idx dw dh select xy_dim]; cbn [alloc_out].
  - apply keeps_alloc_tensor.
  - eapply keeps_bind; [apply keeps_mapM; intros; apply keeps_alloc_tensor | intros vs _].
    eapply keeps_bind; [apply keeps_alloc | intros l _].
    eapply keeps_bind; [apply keeps_alloc_tensor | intros vdw _].
    eapply keeps_bind; [apply keeps_alloc_tensor | intros vdh _].
    eapply keeps_bind; [apply keeps_alloc_tensor | intros vsel _].
    apply keeps_ret. intros l' [=].
Qed.

Lemma keeps_sample_method hp bs n h wd mask ap :
  keeps hp (sample_method bs n h wd mask ap) (fresh_for hp).
Proof.
  intros w Hw. unfold sample_method. destruct (self w) as [? ?|? ?|p|s].
  - revert w Hw. change (keeps hp
      (t ← rnd (PixelSampler.sample_method bs n h wd mask (default false ap));
       alloc_out (PixelSampler.OutIndices t)) (fresh_for hp)).
    eapply keeps_bind; [apply keeps_rnd | intros; apply keeps_alloc_out].
  - destruct ap; [split; [exact Hw | discriminate]|].
    revert w Hw. change (keeps hp
      (t ← rnd (EquirectangularPixelSampler.sample_method bs n h wd mask);
       alloc_out (PixelSampler.OutIndices t)) (fresh_for hp)).
    eapply keeps_bind; [apply keeps_rnd | intros; apply keeps_alloc_out].
  - revert w Hw. change (keeps hp
      (t ← rnd (PatchPixelSampler.sample_method p bs n h wd mask (default false ap));
       alloc_out (PixelSampler.OutIndices t)) (fresh_for hp)).
    eapply keeps_bind; [apply keeps_rnd | intros; apply keeps_alloc_out].
  - destruct (TieredFeaturePatchPixelSampler.sample_method _ _ _ _ _ _ _) as [[o|e] tw].
    + apply keeps_alloc_out. exact Hw.
    + split; [exact Hw | discriminate].
Qed.

Lemma keeps_iterate hp v : keeps hp (iterate v) (fun _ => True).
Proof.
  unfold iterate. destruct v; try apply keeps_raise; try now apply keeps_ret.
  eapply keeps_bind; [apply keeps_load | intros o _].
  destruct o; try now apply keeps_ret.
  eapply keeps_bind; [apply keeps_lift | intros ts _].
  eapply keeps_any, keeps_mapM. intros; apply keeps_alloc_tensor.
Qed.

Lemma keeps_unpack5 hp v : keeps hp (unpack5 v) (fun _ => True).
Proof.
  unfold unpack5. eapply keeps_bind; [apply keeps_iterate | intros vs _].
  destruct vs as [|a [|b [|c [|d [|e [|? ?]]]]]]; try apply keeps_raise.
  now apply keeps_ret.
Qed.

Lemma keeps_item hp v i : keeps hp (item v i) (fun _ => True).
Proof.
  unfold item. destruct v; try apply keeps_raise.
  - eapply keeps_bind; [apply keeps_load | intros o _].
    destruct o.
    + eapply keeps_bind; [apply keeps_lift | intros ts _].
      destruct (ts !! i); [eapply keeps_any, keeps_alloc_tensor | apply keeps_raise].
    + destruct (vs !! i); [now apply keeps_ret | apply keeps_raise].
    + apply keeps_raise.
  - destruct (vs !! i); [now apply keeps_ret | apply keeps_raise].
Qed.

(** Updating in place, through a reference to a new object only *)

Lemma keeps_dict_set hp d k v : hp !! d = None -> keeps hp (dict_set d k v) (fun _ => True).
Proof.
  intros Hd. unfold dict_set. eapply keeps_bind; [apply keeps_load_dict | intros kvs _].
  now apply keeps_store.
Qed.

Lemma keeps_set_column_inplace hp v j x :
  fresh_for hp v -> keeps hp (set_column_inplace v j x) (fun _ => True).
Proof.
  intros Hv. unfold set_column_inplace. destruct v; try apply keeps_raise.
  eapply keeps_bind; [apply keeps_load | intros o _].
  destruct o; try apply keeps_raise.
  eapply keeps_bind; [apply keeps_lift | intros t2 _].
  eapply keeps_bind; [apply keeps_lift | intros t2' _].
  apply keeps_store. now apply Hv.
Qed.

End FrameFacts.

Section FrameClaim.

Import Objects.
Context {F : Type} {prims : TorchPrims F}.
Implicit Types (hp : gmap positive (obj F)) (w : world F) (v : pyval).

Lemma keeps_collate_full_image hp batch collated_batch sc :
  hp !! collated_batch = None ->
  keeps hp (collate_full_image batch collated_batch sc) (fun _ => True).
Proof.
  intros Hcb. unfold collate_full_image.
  eapply keeps_bind; [apply keeps_dict_get | intros image _].
  eapply keeps_bind; [apply keeps_load_tensor | intros image_t _].
  eapply keeps_bind; [apply keeps_load_tensor | intros select _].
  eapply keeps_bind; [apply keeps_lift | intros full _].
  eapply keeps_bind; [apply keeps_alloc_tensor | intros vfull _].
  eapply keeps_bind; [now apply keeps_dict_set | intros _ _].
  eapply keeps_bind; [apply keeps_tensor_attr | intros dh _].
  eapply keeps_bind; [apply keeps_lift | intros n _].
  eapply keeps_bind.
  { apply keeps_for_each. intros img_idx image_arr.
    eapply keeps_bind; [apply keeps_dict_get | intros full' _].
    eapply keeps_bind; [apply keeps_load_tensor | intros full_t _].
    eapply keeps_bind; [apply keeps_load_tensor | intros dw _].
    eapply keeps_bind; [apply keeps_load_arg | intros xy_dim _].
    eapply keeps_bind; [apply keeps_lift | intros patch _].
    now apply keeps_ret. }
  intros image_arr _.
  eapply keeps_bind; [apply keeps_lift | intros cat _].
  eapply keeps_bind; [apply keeps_alloc_tensor | intros vcat _].
  eapply keeps_bind; [now apply keeps_dict_set | intros _ _].
  eapply keeps_bind; [apply keeps_lift | intros m _].
  eapply keeps_bind; [apply keeps_alloc_tensor | intros vm _].
  now apply keeps_dict_set.
Qed.

Lemma keeps_collate_sample hp batch nrp n h wd :
  keeps hp (collate_sample batch nrp n h wd) (fun _ => True).
Proof.
  unfold collate_sample.
  eapply keeps_bind; [apply keeps_dict_has | intros has_mask _].
  destruct has_mask.
  - eapply keeps_bind; [apply keeps_dict_get | intros mask _].
    eapply keeps_bind; [apply keeps_as_mask | intros m _].
    eapply keeps_bind; [apply keeps_sample_method | intros indices _].
    now apply keeps_ret.
  - eapply keeps_bind; [apply keeps_sample_method | intros r _].
    eapply keeps_bind; [apply keeps_unpack5 | intros [[[[indices dw] dh] select] xy_dim] _].
    now apply keeps_ret.
Qed.

Lemma keeps_collate_finish hp batch keep indices sc :
  keeps hp (collate_finish batch keep indices sc) (fun _ => True).
Proof.
  unfold collate_finish.
  eapply keeps_bind; [apply keeps_alloc | intros collated_batch Hcb].
  eapply keeps_bind; [now apply keeps_dict_set | intros _ _].
  apply (keeps_bind hp _ _ (fun _ => True)); [|intros _ _; now apply keeps_ret].
  destruct keep; [|now apply keeps_ret].
  destruct sc; [now apply keeps_collate_full_image | apply keeps_raise].
Qed.

Lemma keeps_collate_image_dataset_batch hp batch nrp keep :
  keeps hp (collate_image_dataset_batch batch nrp keep) (fun _ => True).
Proof.
  unfold collate_image_dataset_batch.
  eapply keeps_bind; [apply keeps_dict_get | intros image _].
  eapply keeps_bind; [apply keeps_tensor_attr | intros image_t _].
  eapply keeps_bind; [apply keeps_lift | intros [[[n h] wd] c] _].
  eapply keeps_bind; [apply keeps_collate_sample | intros [indices sc] _].
  apply keeps_collate_finish.
Qed.

Lemma keeps_collate_list_step hp batch has_mask nrp num_images i a :
  keeps hp (collate_list_step batch has_mask nrp num_images i a) (fun _ => True).
Proof.
  unfold collate_list_step.
  eapply keeps_bind; [apply keeps_dict_get | intros images _].
  eapply keeps_bind; [apply keeps_item | intros img _].
  eapply keeps_bind; [apply keeps_tensor_attr | intros img_t _].
  eapply keeps_bind; [apply keeps_lift | intros [[h wd] c] _].
  eapply keeps_bind.
  { instantiate (1 := fun _ => True). destruct has_mask; [|now apply keeps_ret].
    eapply keeps_bind; [apply keeps_dict_get | intros masks _].
    eapply keeps_bind; [apply keeps_item | intros mask _].
    apply keeps_as_mask. }
  intros mask _.
  eapply keeps_bind; [apply keeps_sample_method | intros indices Hfresh].
  eapply keeps_bind; [now apply keeps_set_column_inplace | intros _ _].
  eapply keeps_bind; [apply keeps_load_int2d | intros idx _].
  eapply keeps_bind; [apply keeps_lift | intros ys _].
  eapply keeps_bind; [apply keeps_lift | intros xs _].
  eapply keeps_bind; [apply keeps_lift | intros pixels _].
  now apply keeps_ret.
Qed.

Lemma keeps_collate_entries hp kvs c y x :
  keeps hp (collate_entries kvs c y x) (fun _ => True).
Proof.
  induction kvs as [|[key value] kvs IH]; cbn [collate_entries]; [now apply keeps_ret|].
  destruct (_ && _); [|exact IH].
  eapply keeps_bind; [apply keeps_load_tensor | intros t _].
  eapply keeps_bind; [apply keeps_lift | intros r _].
  eapply keeps_bind; [apply keeps_alloc_tensor | intros v _].
  eapply keeps_bind; [exact IH | intros rest _].
  now apply keeps_ret.
Qed.

Lemma keeps_collate_image_dataset_batch_list hp batch nrp keep :
  keeps hp (collate_image_dataset_batch_list batch nrp keep) (fun _ => True).
Proof.
  unfold collate_image_dataset_batch_list.
  eapply keeps_bind; [apply keeps_dict_get | intros images _].
  eapply keeps_bind; [apply keeps_item | intros first _].
  eapply keeps_bind; [apply keeps_tensor_attr | intros _ _].
  eapply keeps_bind; [apply keeps_len | intros num_images _].
  eapply keeps_bind; [apply keeps_dict_has | intros has_mask _].
  eapply keeps_bind; [apply keeps_lift | intros q _].
  eapply keeps_bind.
  { apply keeps_for_each. intros i a. apply keeps_collate_list_step. }
  intros a _.
  eapply keeps_bind; [eapply keeps_any, keeps_mapM; intros; apply keeps_load_int2d | intros ts _].
  eapply keeps_bind; [apply keeps_lift | intros indices _].
  eapply keeps_bind; [apply keeps_alloc_tensor | intros vindices Hvi].
  eapply keeps_bind; [apply keeps_lift | intros [[c y] x] _].
  eapply keeps_bind; [apply keeps_load_dict | intros kvs _].
  eapply keeps_bind; [apply keeps_collate_entries | intros entries _].
  eapply keeps_bind; [apply keeps_alloc | intros collated_batch Hcb].
  eapply keeps_bind; [apply keeps_lift | intros image _].
  eapply keeps_bind; [apply keeps_alloc_tensor | intros vimage _].
  eapply keeps_bind; [now apply keeps_dict_set | intros _ _].
  eapply keeps_bind; [apply keeps_lift | intros n _].
  eapply keeps_bind.
  { instantiate (1 := fun _ => True). destruct (_ =? _); [now apply keeps_ret | apply keeps_raise]. }
  intros _ _.
  eapply keeps_bind; [apply keeps_dict_get | intros image_idx _].
  eapply keeps_bind; [apply keeps_load_tensor | intros image_idx_t _].
  eapply keeps_bind; [apply keeps_lift | intros ids _].
  eapply keeps_bind; [now apply keeps_set_column_inplace | intros _ _].
  eapply keeps_bind; [now apply keeps_dict_set | intros _ _].
  apply (keeps_bind hp _ _ (fun _ => True)); [|intros _ _; now apply keeps_ret].
  destruct keep; [|now apply keeps_ret].
  eapply keeps_bind; [apply keeps_dict_get | intros images' _].
  now apply keeps_dict_set.
Qed.

Lemma keeps_sample hp image_batch : keeps hp (sample image_batch) (fun _ => True).
Proof.
  unfold sample.
  eapply keeps_bind; [apply keeps_dict_get | intros image _].
  eapply keeps_bind; [apply keeps_kind_of | intros k _].
  eapply keeps_bind; [apply keeps_get_self | intros s _].
  destruct k.
  - eapply keeps_bind; [apply keeps_load_dict | intros kvs _].
    eapply keeps_bind; [apply keeps_alloc | intros copy _].
    apply keeps_collate_image_dataset_batch_list.
  - apply keeps_collate_image_dataset_batch.
  - apply keeps_raise.
Qed.

(** C10: whatever the class and state of the sampler, whatever the heap,
    the random draws and the float operations, and whether the call returns
    or raises, every object that was in the heap when sample was called --
    the caller's image_batch dictionary, and every list and tensor its
    entries refer to -- is in the heap afterwards as it was: sample and
    both collation paths read the batch, and update in place only objects
    they allocated themselves (for a list-typed "image" the dictionary
    handed on is a new copy). *)
Theorem sample_leaves_image_batch_unmodified (w : world F) (image_batch : positive) :
  heap w ⊆ heap (sample image_batch w).2.
Proof.
  apply (keeps_sample (heap w) image_batch w). unfold kept. reflexivity.
Qed.

End FrameClaim.

(** *** Schedules over the training steps *)

Lemma training_calls_conv n :
  let s := Schedules.training_calls n (fun _ => Ok tt) KPlanesModel.populate_modules in
  let r := (Z.of_nat n `mod` 600)%Z in
  KPlanesModel.cosine_idx s = Z.of_nat n
  /\ KPlanesModel.conv_train_bool s = bool_decide (500 <= r)%Z
  /\ KPlanesModel.conv_switch s = (if bool_decide (500 <= r)%Z then 100 else 500)%Z
  /\ KPlanesModel.conv_train_idx s = (if bool_decide (500 <= r)%Z then r - 500 else r)%Z.
Proof.
  induction n as [|n IH]; [cbn; auto|].
  cbn zeta in *. destruct IH as (Hc & Hb & Hs & Hi).
  cbn [Schedules.training_calls].
  set (s := Schedules.training_calls n _ KPlanesModel.populate_modules) in *.
  assert (Hr : (0 <= Z.of_nat n `mod` 600 < 600)%Z) by (apply Z.mod_pos_bound; lia).
  assert (Hn : (Z.of_nat (S n) `mod` 600 =
                if bool_decide (Z.of_nat n `mod` 600 = 599) then 0
                else Z.of_nat n `mod` 600 + 1)%Z).
  { rewrite Nat2Z.inj_succ. unfold Z.succ.
    destruct (bool_decide_reflect (Z.of_nat n `mod` 600 = 599)%Z) as [E|E].
    - symmetry. apply (Z.mod_unique _ _ (Z.of_nat n / 600 + 1)); [lia|].
      pose proof (Z.div_mod (Z.of_nat n) 600 ltac:(lia)). lia.
    - symmetry. apply (Z.mod_unique _ _ (Z.of_nat n / 600)); [lia|].
      pose proof (Z.div_mod (Z.of_nat n) 600 ltac:(lia)). lia. }
  rewrite Hn. clear Hn.
  set (r := (Z.of_nat n `mod` 600)%Z) in *.
  assert (Hstep :
    let s' := (KPlanesModel.get_loss_dict true (Ok tt) s).2 in
    KPlanesModel.cosine_idx s' = (KPlanesModel.cosine_idx s + 1)%Z
    /\ KPlanesModel.conv_train_idx s' =
         ((KPlanesModel.conv_train_idx s + 1) `mod` KPlanesModel.conv_switch s)%Z
    /\ KPlanesModel.conv_switch s' =
         (if Z.eqb ((KPlanesModel.conv_train_idx s + 1) `mod` KPlanesModel.conv_switch s) 0
          then (if Z.eqb (KPlanesModel.conv_switch s) 500 then 100 else 500)
          else KPlanesModel.conv_switch s)%Z
    /\ KPlanesModel.conv_train_bool s' =
         (if Z.eqb ((KPlanesModel.conv_train_idx s + 1) `mod` KPlanesModel.conv_switch s) 0
          then negb (KPlanesModel.conv_train_bool s)
          else KPlanesModel.conv_train_bool s)).
  { unfold KPlanesModel.get_loss_dict, mbind, M_bind, Py.bind, get, put, lift,
      mret, M_ret, ret.
    cbn.
    destruct (Z.eqb_spec ((KPlanesModel.cosine_idx s + 1) `mod` 3000) 0); cbn; auto. }
  cbv zeta in Hstep. destruct Hstep as (-> & -> & -> & ->).
  rewrite Hc, Hb, Hs, Hi. clear Hc Hb Hs Hi.
  split; [lia|].
  destruct (bool_decide_reflect (500 <= r)%Z) as [E5|E5];
    destruct (bool_decide_reflect (r = 599)%Z) as [E9|E9]; try lia.
  - (* the last call of the 100-step window *)
    rewrite E9. cbn. auto.
  - (* inside the 100-step window *)
    rewrite (Z.mod_small (r - 500 + 1) 100) by lia.
    destruct (Z.eqb_spec (r - 500 + 1) 0); [lia|].
    rewrite bool_decide_true by lia. split; [reflexivity|]. split; [reflexivity|lia].
  - destruct (Z.eq_dec r 499) as [E4|E4].
    + rewrite E4. cbn. auto.
    + rewrite (Z.mod_small (r + 1) 500) by lia.
      destruct (Z.eqb_spec (r + 1) 0); [lia|].
      rewrite bool_decide_false by lia. auto.
Qed.

(** X1: from a fresh model, after n training-mode calls of get_loss_dict
    that all returned, the conv-training phase is on exactly when
    n mod 600 >= 500: the phase is off for 500 calls, on for 100, and so
    on; conv_switch is the length of the running window (500 or 100) and
    conv_train_idx the position in it. *)
Theorem conv_train_phase_cycle (n : nat) :
  let s := Schedules.training_calls n (fun _ => Ok tt) KPlanesModel.populate_modules in
  let r := (Z.of_nat n `mod` 600)%Z in
  KPlanesModel.conv_train_bool s = bool_decide (500 <= r)%Z
  /\ KPlanesModel.conv_switch s = (if bool_decide (500 <= r)%Z then 100 else 500)%Z
  /\ KPlanesModel.conv_train_idx s = (if bool_decide (500 <= r)%Z then r - 500 else r)%Z
  /\ (0 <= KPlanesModel.conv_train_idx s < KPlanesModel.conv_switch s)%Z.
Proof.
  cbv zeta. destruct (training_calls_conv n) as (_ & Hb & Hs & Hi).
  cbv zeta in Hb, Hs, Hi. rewrite Hb, Hs, Hi.
  split; [reflexivity|]. split; [reflexivity|]. split; [reflexivity|].
  pose proof (Z.mod_pos_bound (Z.of_nat n) 600 ltac:(lia)).
  destruct (bool_decide_reflect (500 <= Z.of_nat n `mod` 600)%Z); lia.
Qed.

Lemma Qmin_same_den (a b : Z) (d : positive) :
  (Qmin (a # d) (b # d) == Z.min a b # d)%Q.
Proof.
  destruct (Z.le_gt_cases a b) as [H|H].
  - rewrite Z.min_l by lia. apply Q.min_l. unfold Qle. cbn. nia.
  - rewrite Z.min_r by lia. apply Q.min_r. unfold Qle. cbn. nia.
Qed.

Lemma training_calls_mult n :
  let s := Schedules.training_calls n (fun _ => Ok tt) KPlanesModel.populate_modules in
  KPlanesModel.cosine_idx s = Z.of_nat n
  /\ (KPlanesModel.vol_tv_mult s == Z.min (2 ^ (Z.of_nat n / 3000)) 100 # 10000)%Q
  /\ (KPlanesModel.conv_vol_tv_mult s == Z.min (2 ^ (Z.of_nat n / 3000)) 100 # 10000)%Q.
Proof.
  induction n as [|n IH]; [cbn; split; [reflexivity|split; reflexivity]|].
  cbv zeta in *. destruct IH as (Hc & Hv & Hv').
  cbn [Schedules.training_calls].
  set (s := Schedules.training_calls n _ KPlanesModel.populate_modules) in *.
  assert (Hpos : (0 < 2 ^ (Z.of_nat n / 3000))%Z).
  { apply Z.pow_pos_nonneg; [lia|]. apply Z.div_pos; lia. }
  unfold KPlanesModel.get_loss_dict, mbind, M_bind, Py.bind, get, put, lift,
    mret, M_ret, ret.
  cbn. rewrite Hc.
  replace (Z.of_nat n + 1)%Z with (Z.of_nat (S n)) by lia.
  destruct (Z.eqb_spec (Z.of_nat (S n) `mod` 3000) 0) as [E|E]; cbn.
  - assert (Hd : (Z.of_nat (S n) / 3000 = Z.of_nat n / 3000 + 1)%Z).
    { pose proof (Z.div_mod (Z.of_nat (S n)) 3000 ltac:(lia)).
      assert (Z.of_nat (S n) / 3000 - 1 = Z.of_nat n / 3000)%Z
        by (apply (Z.div_unique _ _ _ 2999); lia).
      lia. }
    rewrite Hd, Z.pow_add_r, Z.pow_1_r by (try apply Z.div_pos; lia).
    set (k := (2 ^ (Z.of_nat n / 3000))%Z) in *.
    assert (Hm : forall x : Q, (x == Z.min k 100 # 10000)%Q ->
              (KPlanesModel.clip (x * 2) 0 (1 # 100) == Z.min (k * 2) 100 # 10000)%Q).
    { intros x Hx. unfold KPlanesModel.clip. rewrite Hx.
      rewrite Q.max_l.
      - assert (E1 : ((Z.min k 100 # 10000) * 2 == Z.min k 100 * 2 # 10000)%Q)
          by (unfold Qeq; cbn; lia).
        assert (E2 : (1 # 100 == 100 # 10000)%Q) by reflexivity.
        rewrite E1, E2, Qmin_same_den. unfold Qeq. cbn. lia.
      - unfold Qle. cbn. lia. }
    split; [reflexivity|]. split; apply Hm; assumption.
  - assert (Hd : (Z.of_nat (S n) / 3000 = Z.of_nat n / 3000)%Z).
    { pose proof (Z.div_mod (Z.of_nat n) 3000 ltac:(lia)).
      pose proof (Z.mod_pos_bound (Z.of_nat n) 3000 ltac:(lia)).
      destruct (Z.eq_dec (Z.of_nat n `mod` 3000) 2999) as [E9|E9].
      - exfalso. apply E. symmetry.
        apply (Z.mod_unique _ _ (Z.of_nat n / 3000 + 1)); lia.
      - symmetry. apply (Z.div_unique _ _ _ (Z.of_nat n `mod` 3000 + 1)); lia. }
    rewrite Hd. auto.
Qed.

(** X2: from a fresh model, after n training-mode calls of get_loss_dict
    that all returned, vol_tv_mult (and conv_vol_tv_mult with it) is
    min(2^(n // 3000), 100) / 10000: it starts at 0.0001, doubles every
    3000 calls, reaches the cap 0.01 with call 21000 and stays there. *)
Theorem vol_tv_mult_doubling (n : nat) :
  let s := Schedules.training_calls n (fun _ => Ok tt) KPlanesModel.populate_modules in
  (KPlanesModel.vol_tv_mult s == Z.min (2 ^ (Z.of_nat n / 3000)) 100 # 10000)%Q
  /\ (KPlanesModel.conv_vol_tv_mult s == KPlanesModel.vol_tv_mult s)%Q
  /\ ((KPlanesModel.vol_tv_mult s == 1 # 100)%Q <-> (21000 <= Z.of_nat n)%Z).
Proof.
  cbv zeta. destruct (training_calls_mult n) as (_ & Hv & Hv'). cbv zeta in Hv, Hv'.
  split; [exact Hv|]. split; [now rewrite Hv, Hv'|].
  rewrite Hv. unfold Qeq. cbn.
  assert (Hk : (0 <= Z.of_nat n / 3000)%Z) by (apply Z.div_pos; lia).
  split.
  - intros H.
    assert (H7 : ~ (Z.of_nat n / 3000 < 7)%Z).
    { intros Hlt.
      assert (2 ^ (Z.of_nat n / 3000) <= 2 ^ 6)%Z by (apply Z.pow_le_mono_r; lia).
      change (2 ^ 6)%Z with 64%Z in *. lia. }
    assert (3000 * 7 <= Z.of_nat n)%Z; [|lia].
    pose proof (Z.mul_div_le (Z.of_nat n) 3000 ltac:(lia)). lia.
  - intros H.
    assert (7 <= Z.of_nat n / 3000)%Z by (apply Z.div_le_lower_bound; lia).
    assert (2 ^ 7 <= 2 ^ (Z.of_nat n / 3000))%Z by (apply Z.pow_le_mono_r; lia).
    change (2 ^ 7)%Z with 128%Z in *. lia.
Qed.
Lemma Qle_bool_false (x y : Q) : Qle_bool x y = false -> (y < x)%Q.
Proof.
  intros H. apply Qnot_le_lt. intros Hle. apply Qle_bool_iff in Hle. congruence.
Qed.

Lemma interp_chord (x w e : Q) :
  (0 < w)%Q -> (0 <= e)%Q ->
  (0 <= Schedules.interp x 0 w 0 e <= e)%Q
  /\ (x <= 0 -> Schedules.interp x 0 w 0 e == 0)%Q
  /\ (w <= x -> Schedules.interp x 0 w 0 e == e)%Q
  /\ (0 <= x <= w -> Schedules.interp x 0 w 0 e == e * x / w)%Q.
Proof.
  intros Hw He. unfold Schedules.interp.
  destruct (Qle_bool x 0) eqn:E0.
  - apply Qle_bool_iff in E0.
    split; [split; [apply Qle_refl | exact He]|].
    split; [reflexivity|]. split.
    + intros Hx. exfalso. Lqa.lra.
    + intros [Hx _]. assert (Ex : (x == 0)%Q) by Lqa.lra. rewrite Ex. field. Lqa.lra.
  - apply Qle_bool_false in E0.
    destruct (Qle_bool w x) eqn:E1.
    + apply Qle_bool_iff in E1.
      split; [split; [exact He | apply Qle_refl]|].
      split; [intros Hx; exfalso; Lqa.lra|]. split; [reflexivity|].
      intros [_ Hx]. assert (Ex : (x == w)%Q) by Lqa.lra. rewrite Ex. field. Lqa.lra.
    + apply Qle_bool_false in E1.
      assert (Ec : ((e - 0) / (w - 0) * (x - 0) + 0 == e * x / w)%Q) by (field; Lqa.lra).
      assert (Hq : (0 <= x / w <= 1)%Q).
      { split.
        - apply Qle_shift_div_l; [exact Hw | Lqa.lra].
        - apply Qle_shift_div_r; [exact Hw | Lqa.lra]. }
      assert (Ee : (e * x / w == e * (x / w))%Q) by (field; Lqa.lra).
      split.
      { rewrite Ec, Ee. destruct Hq as [Hq0 Hq1].
        set (q := (x / w)%Q) in *. clearbody q.
        assert (0 <= e * q)%Q by (apply Qmult_le_0_compat; assumption).
        assert (0 <= e * (1 - q))%Q by (apply Qmult_le_0_compat; [assumption | Lqa.lra]).
        split; Lqa.lra. }
      split; [intros Hx; exfalso; Lqa.lra|].
      split; [intros Hx; exfalso; Lqa.lra|]. intros _. exact Ec.
Qed.
Lemma interp_mono (x y w e : Q) :
  (0 < w)%Q -> (0 <= e)%Q -> (x <= y)%Q ->
  (Schedules.interp x 0 w 0 e <= Schedules.interp y 0 w 0 e)%Q.
Proof.
  intros Hw He Hxy.
  destruct (interp_chord x w e Hw He) as (Hrx & Hx0 & Hx1 & Hxc).
  destruct (interp_chord y w e Hw He) as (Hry & Hy0 & Hy1 & Hyc).
  destruct (Qlt_le_dec 0 x) as [Hx|Hx]; [|rewrite (Hx0 Hx); apply Hry].
  destruct (Qlt_le_dec y w) as [Hy|Hy]; [|rewrite (Hy1 Hy); apply Hrx].
  rewrite Hxc, Hyc by (split; Lqa.lra).
  apply Qmult_le_compat_r; [|apply Qlt_le_weak, Qinv_lt_0_compat, Hw].
  assert (0 <= e * (y - x))%Q by (apply Qmult_le_0_compat; Lqa.lra).
  Lqa.lra.
Qed.

Lemma clip_mono (a b lo hi : Q) :
  (a <= b)%Q -> (KPlanesModel.clip a lo hi <= KPlanesModel.clip b lo hi)%Q.
Proof.
  intros H. unfold KPlanesModel.clip.
  apply Q.min_le_compat_r, Q.max_le_compat_r, H.
Qed.

Lemma clip_range (x lo hi : Q) :
  (lo <= hi)%Q -> (lo <= KPlanesModel.clip x lo hi <= hi)%Q.
Proof.
  intros H. unfold KPlanesModel.clip. split.
  - apply Q.min_glb; [apply Q.le_max_r | exact H].
  - apply Q.le_min_r.
Qed.

(** X3: for a positive proposal_warmup and proposal_update_every >= 1,
    update_schedule(step) lies between 1 and proposal_update_every, never
    decreases as step grows, is 1 up to step 0 and is
    proposal_update_every from step proposal_warmup on. *)
Theorem update_schedule_range (warmup every step step' : Q) :
  (0 < warmup)%Q -> (1 <= every)%Q ->
  (1 <= Schedules.update_schedule warmup every step <= every)%Q
  /\ (step <= step' ->
      Schedules.update_schedule warmup every step
      <= Schedules.update_schedule warmup every step')%Q
  /\ (step <= 0 -> Schedules.update_schedule warmup every step == 1)%Q
  /\ (warmup <= step -> Schedules.update_schedule warmup every step == every)%Q.
Proof.
  intros Hw He. unfold Schedules.update_schedule.
  assert (He0 : (0 <= every)%Q) by Lqa.lra.
  destruct (interp_chord step warmup every Hw He0) as (Hr & H0 & H1 & _).
  split; [apply clip_range, He|].
  split; [intros Hs; apply clip_mono, interp_mono; assumption|].
  split.
  - intros Hs. unfold KPlanesModel.clip. rewrite (H0 Hs).
    rewrite Q.max_r by Lqa.lra. apply Q.min_l, He.
  - intros Hs. unfold KPlanesModel.clip. rewrite (H1 Hs).
    rewrite Q.max_l by exact He. apply Q.min_l, Qle_refl.
Qed.

Lemma update_schedule_range_witness :
  (1 <= Schedules.update_schedule 5000 5 2500 <= 5)%Q
  /\ (2500 <= 4000 ->
      Schedules.update_schedule 5000 5 2500 <= Schedules.update_schedule 5000 5 4000)%Q
  /\ (2500 <= 0 -> Schedules.update_schedule 5000 5 2500 == 1)%Q
  /\ (5000 <= 2500 -> Schedules.update_schedule 5000 5 2500 == 5)%Q.
Proof. apply (update_schedule_range 5000 5 2500 4000); [reflexivity | discriminate]. Defined.

(** *** The tiered sampler: construction *)

Lemma tier_grids_exact k : forall d tape,
  (forall j, (j < k)%nat -> 0 < d / 2 ^ Z.of_nat j) ->
  tier_grids k d tape = (Ok (TieredLayout.init_grids k d), tape).
Proof.
  induction k as [|k IH]; intros d tape Hd; [reflexivity|].
  cbn [tier_grids TieredLayout.init_grids].
  assert (H0 : 0 < d) by (specialize (Hd 0%nat ltac:(lia)); now rewrite Z.div_1_r in Hd).
  unfold PixelSampler.sample_method, lift at 1.
  replace (d ^ 2 * 153) with (153 * d * d) by ring.
  rewrite sample_all_pixels_full by lia.
  erewrite bind_ok by reflexivity.
  assert (Hd' : forall j, (j < k)%nat -> 0 < d / 2 / 2 ^ Z.of_nat j).
  { intros j Hj. specialize (Hd (S j) ltac:(lia)).
    rewrite Nat2Z.inj_succ, Z.pow_succ_r in Hd by lia.
    now rewrite Z.div_div by lia. }
  rewrite (bind_ok _ _ _ _ _ (IH (d / 2) tape Hd')). reflexivity.
Qed.

Lemma anchor_row_bounds extent p start (row : list Z) :
  1 <= p -> 0 <= start < p ->
  row ≡ₚ (fun i => start + i * p) <$> seqZ 0 (extent / p - 1) ->
  Forall (fun a => 0 <= a /\ a + p < extent) row.
Proof.
  intros Hp Hs Hperm. rewrite Hperm. apply Forall_forall.
  intros a (i & -> & Hi%elem_of_seqZ)%list_elem_of_fmap.
  pose proof (Z.mul_div_le extent p ltac:(lia)). nia.
Qed.

Lemma tiered_init_ok nrpb keep p nt fps tape :
  8 <= p ->
  exists sel rh rw tape',
    init nrpb keep p nt fps tape
    = (Ok (Make p nt fps sel (TieredLayout.init_grids 4 p) [rw] [rh]
             (nrpb / p ^ 2 * p ^ 2) keep), tape')
    /\ sel ≡ₚ seqZ 0 153
    /\ Forall (fun a => 0 <= a /\ a + p < 720) rh
    /\ Forall (fun x => 0 <= x /\ x + p < 1280) rw
    /\ length rh = Z.to_nat (720 / p - 1)
    /\ length rw = Z.to_nat (1280 / p - 1).
Proof.
  intros Hp. unfold init.
  destruct (shuffle_Permutation (seqZ 0 153) tape) as (sel & tape1 & Hsel & Hperm).
  rewrite (bind_ok _ _ _ _ _ Hsel).
  unfold lift at 1. rewrite floordiv_ok by nia. erewrite bind_ok by reflexivity.
  change (Z.to_nat num_to_select) with 1%nat.
  destruct (anchor_rows_one 720 p tape1) as (start & row & tape2 & Hrow & Hstart & Hrperm); [lia|].
  rewrite (bind_ok _ _ _ _ _ Hrow).
  destruct (anchor_rows_one 1280 p tape2) as (start' & row' & tape3 & Hrow' & Hstart' & Hrperm');
    [lia|].
  rewrite (bind_ok _ _ _ _ _ Hrow').
  assert (Hd : forall j, (j < 4)%nat -> 0 < p / 2 ^ Z.of_nat j).
  { intros j Hj. apply Z.div_str_pos. split; [apply Z.pow_pos_nonneg; lia|].
    destruct j as [|[|[|[|j]]]]; cbn; lia. }
  rewrite (bind_ok _ _ _ _ _ (tier_grids_exact 4 p tape3 Hd)).
  exists sel, row, row', tape3. split; [reflexivity|]. split; [exact Hperm|].
  split; [apply (anchor_row_bounds 720 p start row); [lia | exact Hstart | exact Hrperm]|].
  split; [apply (anchor_row_bounds 1280 p start' row'); [lia | exact Hstart' | exact Hrperm']|].
  rewrite (Permutation_length Hrperm), (Permutation_length Hrperm').
  rewrite !length_fmap, !length_seqZ. split; reflexivity.
Qed.

Lemma tier_grids_small p tape :
  1 <= p <= 7 -> tier_grids 4 p tape = (Raise ZeroDivisionError, tape).
Proof.
  intros Hp.
  assert (Hc : p = 1 \/ p = 2 \/ p = 3 \/ p = 4 \/ p = 5 \/ p = 6 \/ p = 7) by lia.
  destruct Hc as [->|[->|[->|[->|[->|[->| ->]]]]]]; vm_compute; reflexivity.
Qed.

(** X5: TieredFeaturePatchPixelSampler can be constructed exactly with a
    patch size of at least 8: then the constructor returns, with
    num_rays_per_batch rounded down to a multiple of patch_size^2 and 153
    images in the rotation; for a patch size from 1 to 7 the fourth-tier
    grid has side 0 and the constructor raises ZeroDivisionError, and so
    it does for patch size 0; a negative patch size raises ValueError. *)
Theorem tiered_init_needs_patch_size_8
    (nrpb p nt fps : Z) (keep : bool) (tape : Random.tape) :
  (is_ok (init nrpb keep p nt fps tape).1 = true <-> 8 <= p)
  /\ (forall s, (init nrpb keep p nt fps tape).1 = Ok s ->
        patch_size s = p
        /\ num_rays_per_batch s = nrpb / p ^ 2 * p ^ 2
        /\ select_idxs s ≡ₚ seqZ 0 153)
  /\ (0 <= p <= 7 -> (init nrpb keep p nt fps tape).1 = Raise ZeroDivisionError)
  /\ (p < 0 -> (init nrpb keep p nt fps tape).1 = Raise ValueError).
Proof.
  assert (Hlow : 0 <= p <= 7 -> (init nrpb keep p nt fps tape).1 = Raise ZeroDivisionError).
  { intros Hp. unfold init.
    destruct (shuffle_Permutation (seqZ 0 153) tape) as (sel & tape1 & Hsel & _).
    rewrite (bind_ok _ _ _ _ _ Hsel).
    destruct (Z.eq_dec p 0) as [->|Hp0]; [reflexivity|].
    unfold lift at 1. rewrite floordiv_ok by nia. erewrite bind_ok by reflexivity.
    change (Z.to_nat num_to_select) with 1%nat.
    destruct (anchor_rows_one 720 p tape1) as (start & row & tape2 & Hrow & _); [lia|].
    rewrite (bind_ok _ _ _ _ _ Hrow).
    destruct (anchor_rows_one 1280 p tape2) as (start' & row' & tape3 & Hrow' & _); [lia|].
    rewrite (bind_ok _ _ _ _ _ Hrow').
    erewrite bind_raise by (apply tier_grids_small; lia). reflexivity. }
  assert (Hneg : p < 0 -> (init nrpb keep p nt fps tape).1 = Raise ValueError).
  { intros Hp. unfold init.
    destruct (shuffle_Permutation (seqZ 0 153) tape) as (sel & tape1 & Hsel & _).
    rewrite (bind_ok _ _ _ _ _ Hsel).
    unfold lift at 1. rewrite floordiv_ok by nia. erewrite bind_ok by reflexivity.
    change (Z.to_nat num_to_select) with 1%nat. cbn [anchor_rows].
    unfold randint. destruct (Z.ltb_spec (p - 1) 0); [|lia]. reflexivity. }
  split; [|split; [|split; assumption]].
  - split.
    + intros Hok. destruct (Z.lt_ge_cases p 8) as [Hlt|]; [|assumption].
      destruct (Z.lt_ge_cases p 0) as [Hn|Hn].
      * rewrite (Hneg Hn) in Hok. discriminate.
      * rewrite Hlow in Hok by lia. discriminate.
    + intros Hp.
      destruct (tiered_init_ok nrpb keep p nt fps tape Hp) as (? & ? & ? & ? & -> & _).
      reflexivity.
  - intros s Hs.
    destruct (Z.lt_ge_cases p 8) as [Hlt|Hge].
    + destruct (Z.lt_ge_cases p 0) as [Hn|Hn].
      * rewrite (Hneg Hn) in Hs. discriminate.
      * rewrite Hlow in Hs by lia. discriminate.
    + destruct (tiered_init_ok nrpb keep p nt fps tape Hge)
        as (sel & rh & rw & tape' & E & Hperm & _).
      rewrite E in Hs. cbn in Hs. injection Hs as <-. cbn. auto.
Qed.
(** *** The tiered sampler: the patch a call hands back *)

Lemma list_bind_join {A B} (f : A -> list B) (l : list A) : l ≫= f = mjoin (f <$> l).
Proof.
  induction l as [|x l IH]; [reflexivity|].
  change (f x ++ (l ≫= f) = f x ++ mjoin (f <$> l)). now rewrite IH.
Qed.

Lemma list_fmap_over_bind {A B C} (g : B -> C) (f : A -> list B) (l : list A) :
  g <$> (l ≫= f) = l ≫= (fun x => g <$> f x).
Proof.
  induction l as [|x l IH]; [reflexivity|].
  rewrite !bind_cons, fmap_app, IH. reflexivity.
Qed.

Lemma length_bind_const {A B} (f : A -> list B) (l : list A) n :
  (forall x, length (f x) = n) -> length (l ≫= f) = (length l * n)%nat.
Proof.
  intros Hf. induction l as [|x l IH]; [reflexivity|].
  rewrite bind_cons, length_app, Hf, IH. cbn. lia.
Qed.

Lemma length_block c a x d :
  length (TieredLayout.block c a x d) = (Z.to_nat d * Z.to_nat d)%nat.
Proof.
  unfold TieredLayout.block.
  rewrite (length_bind_const _ _ (Z.to_nat d)), length_seqZ; [reflexivity|].
  intros r. rewrite (length_bind_const _ _ 1%nat), length_seqZ; [lia | reflexivity].
Qed.

Lemma index_space_blocks n d :
  index_space n d d = mjoin ((fun i => TieredLayout.block i 0 0 d) <$> seqZ 0 n).
Proof. rewrite <- list_bind_join. reflexivity. Qed.

Lemma block_add_row c a x d :
  alter (Z.add a) 1%nat <$> TieredLayout.block c 0 x d = TieredLayout.block c a x d.
Proof.
  unfold TieredLayout.block. rewrite list_fmap_over_bind.
  apply list_bind_ext; [intros r | reflexivity].
  rewrite list_fmap_over_bind. reflexivity.
Qed.

Lemma block_add_col c a x d :
  alter (Z.add x) 2%nat <$> TieredLayout.block c a 0 d = TieredLayout.block c a x d.
Proof.
  unfold TieredLayout.block. rewrite list_fmap_over_bind.
  apply list_bind_ext; [intros r | reflexivity].
  rewrite list_fmap_over_bind. reflexivity.
Qed.

Lemma filter_zip_replicate {A} (l : list A) (b : bool) :
  fst <$> List.filter (fun p : A * bool => p.2) (zip l (replicate (length l) b))
  = if b then l else [].
Proof.
  induction l as [|x l IH]; [now destruct b|].
  destruct b; cbn in *; now rewrite IH.
Qed.

Lemma pick_app {A} (l1 l2 : list A) (s1 s2 : list bool) :
  length l1 = length s1 ->
  fst <$> List.filter (fun p : A * bool => p.2) (zip (l1 ++ l2) (s1 ++ s2))
  = (fst <$> List.filter (fun p : A * bool => p.2) (zip l1 s1))
    ++ (fst <$> List.filter (fun p : A * bool => p.2) (zip l2 s2)).
Proof.
  intros Hlen. rewrite zip_with_app by exact Hlen.
  now rewrite List.filter_app, fmap_app.
Qed.

Lemma pick_blocks {A} n (bs : list (list A)) : forall sel : list bool,
  Forall (fun b => length b = n) bs -> length bs = length sel ->
  fst <$> List.filter (fun p : A * bool => p.2)
            (zip (mjoin bs) (mjoin ((fun x => replicate n x) <$> sel)))
  = mjoin (fst <$> List.filter (fun p : list A * bool => p.2) (zip bs sel)).
Proof.
  induction bs as [|b bs IH]; intros [|s sel] Hbs Hlen; try discriminate; [reflexivity|].
  inversion Hbs as [|? ? Hb Hbs']; subst.
  change (fst <$> List.filter (fun p : A * bool => p.2)
            (zip (b ++ mjoin bs)
               (replicate (length b) s ++ mjoin ((fun x => replicate (length b) x) <$> sel)))
          = mjoin (fst <$> List.filter (fun p : list A * bool => p.2) ((b, s) :: zip bs sel))).
  rewrite pick_app by (now rewrite length_replicate).
  rewrite filter_zip_replicate, IH by (cbn in Hlen; auto with lia).
  destruct s; reflexivity.
Qed.

Lemma pick_one_hot {A} (l : list A) i x :
  l !! i = Some x ->
  fst <$> List.filter (fun p : A * bool => p.2)
            (zip l (<[i := true]> (replicate (length l) false)))
  = [x].
Proof.
  intros Hx. pose proof (lookup_lt_Some _ _ _ Hx) as Hi.
  rewrite insert_replicate_lt by exact Hi.
  rewrite <- (take_drop_middle l i x Hx) at 1.
  rewrite pick_app by (rewrite length_take, length_replicate; lia).
  replace i with (length (take i l)) at 2 by (rewrite length_take; lia).
  rewrite filter_zip_replicate. cbn [app zip zip_with List.filter snd fmap list_fmap fst].
  replace (length l - S i)%nat with (length (drop (S i) l)) by (rewrite length_drop; lia).
  change (x :: (fst <$> List.filter (fun p : A * bool => p.2)
                  (zip (drop (S i) l) (replicate (length (drop (S i) l)) false))) = [x]).
  now rewrite filter_zip_replicate.
Qed.

Lemma add_replicated {A} (f : Z -> A -> A) (rows : list A) (a : Z) :
  (fun p : A * Z => f p.2 p.1) <$> zip rows (replicate (length rows) a) = f a <$> rows.
Proof. induction rows as [|r rows IH]; [reflexivity|]. cbn. now rewrite <- IH. Qed.

Lemma add_col_anchor j (a : Z) (rs : list (list Z)) n :
  (j < 3)%nat -> length rs = n ->
  add_col j (mjoin ((fun x => replicate n x) <$> [a])) (Int2d 3 rs)
  = Ok (Int2d 3 (alter (Z.add a) j <$> rs)).
Proof.
  intros Hj Hlen. unfold add_col. cbn [ncols rows].
  destruct (Nat.ltb_spec j 3); [|lia]. cbn [negb].
  change (mjoin ((fun x => replicate n x) <$> [a])) with (replicate n a ++ []).
  rewrite app_nil_r, length_replicate, Hlen, Nat.eqb_refl, <- Hlen.
  now rewrite (add_replicated (fun v r => alter (Z.add v) j r)).
Qed.

Lemma tier_step_block c a x d (outs : list int2d) :
  0 <= c < 153 -> 0 <= d ->
  tier_step (<[Z.to_nat c := true]> (replicate 153 false))
    (Int2d 3 (index_space 153 d d)) (TierAcc d [x] [a] outs)
  = Ok (TierAcc (d / 2) [(x + 1) / 2] [(a + 1) / 2]
          (outs ++ [Int2d 3 (TieredLayout.block c a x d)])).
Proof.
  intros Hc Hd. unfold tier_step, repeat_interleave. cbn [curr_dim dw dh out].
  assert (Hsq : 0 <= d ^ 2) by nia.
  destruct (Z.ltb_spec (d ^ 2) 0); [lia|]. cbn [mbind result_bind].
  set (n := Z.to_nat (d ^ 2)).
  assert (Hn : n = (Z.to_nat d * Z.to_nat d)%nat) by (unfold n; nia).
  unfold bool_index. cbn [rows ncols].
  rewrite length_interleave, length_insert, length_replicate.
  rewrite length_index_space by lia.
  replace (Z.to_nat (153 * d * d)) with (153 * n)%nat by (unfold n; nia).
  rewrite Nat.eqb_refl. cbn [mbind result_bind].
  rewrite index_space_blocks.
  rewrite (pick_blocks n).
  2:{ apply Forall_fmap, Forall_forall. intros i _. cbn. now rewrite length_block. }
  2:{ now rewrite length_fmap, length_seqZ, length_insert, length_replicate. }
  assert (E : replicate 153 false
              = replicate (length ((fun i => TieredLayout.block i 0 0 d) <$> seqZ 0 153)) false)
    by (now rewrite length_fmap, length_seqZ).
  rewrite E. clear E.
  rewrite (pick_one_hot _ _ (TieredLayout.block c 0 0 d)).
  2:{ rewrite list_lookup_fmap, lookup_seqZ_lt by lia.
      cbn. do 2 f_equal. lia. }
  change (mjoin [TieredLayout.block c 0 0 d]) with (TieredLayout.block c 0 0 d ++ []).
  rewrite app_nil_r.
  rewrite (add_col_anchor 1 a _ n); [|lia | now rewrite length_block].
  cbn [mbind result_bind]. rewrite block_add_row.
  rewrite (add_col_anchor 2 x _ n); [|lia | now rewrite length_block].
  cbn [mbind result_bind]. rewrite block_add_col.
  reflexivity.
Qed.
Lemma tier_loop_blocks {S} c k : forall d a x (outs : list int2d) (w : S),
  0 <= c < 153 -> 0 <= d ->
  exists acc,
    for_each (TieredLayout.init_grids k d) (TierAcc d [x] [a] outs)
      (fun index acc => lift (tier_step (<[Z.to_nat c := true]> (replicate 153 false))
                                index acc)) w
    = (Ok acc, w)
    /\ out acc = outs ++ TieredLayout.tier_blocks k c a x d.
Proof.
  induction k as [|k IH]; intros d a x outs w Hc Hd.
  - eexists. split; [reflexivity|]. cbn. now rewrite app_nil_r.
  - cbn [TieredLayout.init_grids TieredLayout.tier_blocks for_each].
    unfold Py.bind, lift at 1. rewrite tier_step_block by assumption.
    destruct (IH (d / 2) ((a + 1) / 2) ((x + 1) / 2)
                (outs ++ [Int2d 3 (TieredLayout.block c a x d)]) w Hc)
      as (acc & Hacc & Hout); [apply Z.div_pos; lia|].
    exists acc. split; [exact Hacc|]. rewrite Hout, <- app_assoc. reflexivity.
Qed.

Lemma one_hot_image c :
  0 <= c < 153 -> one_hot 153 [c] = Ok (<[Z.to_nat c := true]> (replicate 153 false)).
Proof.
  intros Hc. unfold one_hot. cbn [foldr mbind result_bind].
  destruct (Z.leb_spec (- Z.of_nat 153) c); [|lia].
  destruct (Z.ltb_spec c (Z.of_nat 153)); [|lia]. cbn [andb].
  now rewrite Z.mod_small by lia.
Qed.

Lemma refill_select_idxs_rotation s tape :
  Forall (fun c => 0 <= c < 153) (select_idxs s) ->
  exists c cs tape',
    refill_select_idxs (World s tape) = (Ok tt, World (set_select_idxs (c :: cs) s) tape')
    /\ Forall (fun c => 0 <= c < 153) (c :: cs)
    /\ (select_idxs s = [] -> c :: cs ≡ₚ seqZ 0 153)
    /\ (select_idxs s <> [] -> c :: cs = select_idxs s /\ tape' = tape).
Proof.
  intros Hsel. unfold refill_select_idxs.
  erewrite bind_ok by reflexivity. cbn [self]. unfold num_to_select.
  destruct (select_idxs s) as [|c cs] eqn:E.
  - cbn [length]. destruct (Z.ltb_spec (Z.of_nat 0) 1); [|lia].
    destruct (shuffle_Permutation (seqZ 0 153) tape) as (l & tape' & Hl & Hperm).
    erewrite bind_ok by (apply rnd_ok, Hl).
    destruct l as [|c cs]; [apply Permutation_length in Hperm; discriminate|].
    exists c, cs, tape'. split; [reflexivity|]. split; [|split; [auto | congruence]].
    rewrite Hperm. apply Forall_forall. intros i Hi%elem_of_seqZ. lia.
  - destruct (Z.ltb_spec (Z.of_nat (length (c :: cs))) 1) as [Hlt|_];
      [cbn [length] in Hlt; lia|].
    exists c, cs, tape. rewrite <- E, set_select_idxs_same.
    split; [reflexivity|]. rewrite E. split; [exact Hsel|]. split; [congruence | auto].
Qed.

Lemma refill_dw_lst_bounded s tape rw :
  1 <= patch_size s <= 640 -> dw_lst s = [rw] ->
  Forall (fun x => 0 <= x /\ x + patch_size s < 1280) rw ->
  exists x rw' tape',
    refill_dw_lst (World s tape) = (Ok tt, World (set_dw_lst [x :: rw'] s) tape')
    /\ Forall (fun x => 0 <= x /\ x + patch_size s < 1280) (x :: rw').
Proof.
  intros Hp Hdw Hb. unfold refill_dw_lst.
  erewrite bind_ok by reflexivity. cbn [self]. rewrite Hdw.
  erewrite bind_ok by reflexivity.
  destruct rw as [|x rw]; cbn [length Nat.eqb].
  - unfold num_to_select.
    destruct (anchor_rows_one 1280 (patch_size s) tape)
      as (start & row & tape' & Hrow & Hstart & Hperm); [lia|].
    erewrite bind_ok by (apply rnd_ok, Hrow).
    pose proof (anchor_row_nonempty 1280 (patch_size s) row start ltac:(lia) ltac:(lia) Hperm).
    pose proof (anchor_row_bounds 1280 (patch_size s) start row ltac:(lia) Hstart Hperm).
    destruct row as [|x row]; [congruence|].
    exists x, row, tape'. split; [reflexivity | assumption].
  - exists x, rw, tape. split; [|exact Hb]. cbn. rewrite <- Hdw. now destruct s.
Qed.

Lemma refill_dh_lst_bounded s tape rh :
  1 <= patch_size s <= 360 -> dh_lst s = [rh] ->
  Forall (fun a => 0 <= a /\ a + patch_size s < 720) rh ->
  exists a rh' tape',
    refill_dh_lst (World s tape) = (Ok tt, World (set_dh_lst [a :: rh'] s) tape')
    /\ Forall (fun a => 0 <= a /\ a + patch_size s < 720) (a :: rh').
Proof.
  intros Hp Hdh Hb. unfold refill_dh_lst.
  erewrite bind_ok by reflexivity. cbn [self]. rewrite Hdh.
  erewrite bind_ok by reflexivity.
  destruct rh as [|a rh]; cbn [length Nat.eqb].
  - unfold num_to_select.
    destruct (anchor_rows_one 720 (patch_size s) tape)
      as (start & row & tape' & Hrow & Hstart & Hperm); [lia|].
    erewrite bind_ok by (apply rnd_ok, Hrow).
    pose proof (anchor_row_nonempty 720 (patch_size s) row start ltac:(lia) ltac:(lia) Hperm).
    pose proof (anchor_row_bounds 720 (patch_size s) start row ltac:(lia) Hstart Hperm).
    destruct row as [|a row]; [congruence|].
    exists a, row, tape'. split; [reflexivity | assumption].
  - exists a, rh, tape. split; [|exact Hb]. cbn. rewrite <- Hdh. now destruct s.
Qed.

Lemma build_tiers_blocks s tape c x a :
  0 <= c < 153 -> 0 <= patch_size s ->
  indices s = TieredLayout.init_grids 4 (patch_size s) ->
  build_tiers (<[Z.to_nat c := true]> (replicate 153 false)) [x] [a] (World s tape)
  = (Ok (TieredLayout.tier_blocks 4 c a x (patch_size s)), World s tape).
Proof.
  intros Hc Hp Hgs. unfold build_tiers.
  erewrite bind_ok by reflexivity. cbn [self]. rewrite Hgs.
  destruct (tier_loop_blocks c 4 (patch_size s) a x [] (World s tape) Hc Hp)
    as (acc & Hacc & Hout).
  erewrite bind_ok by exact Hacc. rewrite Hout. reflexivity.
Qed.

(** One unmasked call of a built sampler. *)
Lemma tiered_call s tape bs n h w ap :
  TieredLayout.built s ->
  exists c cs a x s' tape',
    sample_method bs n h w None ap (World s tape)
    = (Ok (TieredLayout.patch_out (patch_size s) c a x), World s' tape')
    /\ TieredLayout.built s'
    /\ patch_size s' = patch_size s
    /\ select_idxs s' = cs
    /\ (select_idxs s = [] -> c :: cs ≡ₚ seqZ 0 153)
    /\ (select_idxs s <> [] -> c :: cs = select_idxs s)
    /\ 0 <= c < 153
    /\ (0 <= a /\ a + patch_size s < 720)
    /\ (0 <= x /\ x + patch_size s < 1280).
Proof.
  intros [Hp Hgs Hsel (rw & Hdw & Hbw) (rh & Hdh & Hbh)]. unfold sample_method.
  destruct (refill_select_idxs_rotation s tape Hsel)
    as (c & cs & tape1 & Hrefill & Hrange & Hnew & Hold).
  erewrite bind_ok by exact Hrefill.
  rewrite (bind_ok _ _ _ _ _ (take_select_idxs_spec _ _)).
  cbn [select_idxs set_select_idxs].
  set (s1 := set_select_idxs (drop 1 (c :: cs)) _).
  assert (Hc : 0 <= c < 153) by (now inversion Hrange).
  change (take 1 (c :: cs)) with [c].
  assert (Hmk : make_select [c] (World s1 tape1)
                = (Ok (<[Z.to_nat c := true]> (replicate 153 false)), World s1 tape1)).
  { unfold make_select. erewrite bind_ok by reflexivity. cbn [self].
    change (indices s1) with (indices s). rewrite Hgs. cbn [TieredLayout.init_grids].
    erewrite bind_ok by reflexivity. unfold lift. now rewrite one_hot_image. }
  erewrite bind_ok by exact Hmk.
  destruct (refill_dw_lst_bounded s1 tape1 rw) as (x & rw' & tape2 & Hrdw & Hbw');
    [cbn; lia | exact Hdw | exact Hbw |].
  erewrite bind_ok by exact Hrdw.
  set (s2 := set_dw_lst _ s1).
  destruct (refill_dh_lst_bounded s2 tape2 rh) as (a & rh' & tape3 & Hrdh & Hbh');
    [cbn; lia | exact Hdh | exact Hbh |].
  erewrite bind_ok by exact Hrdh.
  set (s3 := set_dh_lst _ s2).
  erewrite bind_ok
    by (apply (pop_anchors_spec s3 tape3 x rw' a rh'); reflexivity).
  set (s4 := set_dh_lst _ _). cbv beta iota.
  erewrite bind_ok
    by (apply (build_tiers_blocks s4 tape3 c x a); [exact Hc | cbn; lia | exact Hgs]).
  erewrite bind_ok by reflexivity.
  exists c, cs, a, x, s4, tape3. split; [reflexivity|].
  inversion Hrange as [|? ? _ Hcs]; subst.
  inversion Hbw' as [|? ? Hx Hrw']; subst.
  inversion Hbh' as [|? ? Ha Hrh']; subst.
  split; [|split; [reflexivity|split; [reflexivity|]]].
  - constructor; cbn; eauto.
  - split; [exact Hnew|]. split; [intros Hne; now apply Hold|].
    split; [exact Hc|]. cbn in Hx, Ha. auto.
Qed.

(** A run of unmasked calls of a built sampler: what each call hands back,
    and the images selected, in order. *)
Lemma tiered_calls k : forall s tape bs n h w,
  TieredLayout.built s ->
  exists (picks : list (Z * Z * Z)) s' tape',
    sample_calls k bs n h w (World s tape)
    = (Ok ((fun q : Z * Z * Z => TieredLayout.patch_out (patch_size s) q.1.1 q.1.2 q.2)
             <$> picks), World s' tape')
    /\ length picks = k
    /\ TieredLayout.built s'
    /\ patch_size s' = patch_size s
    /\ Forall (fun q : Z * Z * Z =>
                 0 <= q.1.1 < 153
                 /\ (0 <= q.1.2 /\ q.1.2 + patch_size s < 720)
                 /\ (0 <= q.2 /\ q.2 + patch_size s < 1280)) picks
    /\ ((k <= length (select_idxs s))%nat ->
        (fun q : Z * Z * Z => q.1.1) <$> picks = take k (select_idxs s)).
Proof.
  induction k as [|k IH]; intros s tape bs n h w Hb.
  - exists [], s, tape. split; [reflexivity|]. split; [reflexivity|].
    split; [exact Hb|]. split; [reflexivity|]. split; [constructor|]. intros _. reflexivity.
  - cbn [sample_calls].
    destruct (tiered_call s tape bs n h w false Hb)
      as (c & cs & a & x & s1 & tape1 & Hcall & Hb1 & Hp1 & Hsel1 & _ & Hold & Hc & Ha & Hx).
    rewrite (bind_ok _ _ _ _ _ Hcall).
    destruct (IH s1 tape1 bs n h w Hb1)
      as (picks & s' & tape' & Hrun & Hlen & Hb' & Hp' & Hall & Hsel').
    rewrite (bind_ok _ _ _ _ _ Hrun).
    exists ((c, a, x) :: picks), s', tape'. rewrite Hp1 in *.
    split; [reflexivity|]. split; [cbn; lia|]. split; [exact Hb'|]. split; [exact Hp'|].
    split; [constructor; [cbn; auto | exact Hall]|].
    intros Hk. destruct (select_idxs s) as [|c0 cs0] eqn:E; [cbn in Hk; lia|].
    assert (E1 : c :: cs = c0 :: cs0) by (apply Hold; discriminate).
    injection E1 as -> ->.
    cbn [fmap list_fmap take]. f_equal.
    change ((fun q : Z * Z * Z => q.1.1) <$> picks = take k cs0).
    rewrite <- Hsel1. apply Hsel'. rewrite Hsel1. cbn in Hk. lia.
Qed.

Lemma tiered_init_built nrpb keep p nt fps tape :
  8 <= p <= 360 ->
  exists s0 tape0,
    init nrpb keep p nt fps tape = (Ok s0, tape0)
    /\ TieredLayout.built s0
    /\ patch_size s0 = p
    /\ select_idxs s0 ≡ₚ seqZ 0 153.
Proof.
  intros Hp.
  destruct (tiered_init_ok nrpb keep p nt fps tape ltac:(lia))
    as (sel & rh & rw & tape' & E & Hperm & Hbh & Hbw & _).
  eexists _, tape'. split; [exact E|]. split; [|split; [reflexivity | exact Hperm]].
  constructor; cbn; eauto.
  rewrite Hperm. apply Forall_forall. intros c Hc%elem_of_seqZ. lia.
Qed.
Lemma bind_unit_fmap {A B} (f : A -> B) (l : list A) :
  l ≫= (fun x => [f x]) = f <$> l.
Proof.
  induction l as [|x l IH]; [reflexivity|].
  rewrite bind_cons, IH. reflexivity.
Qed.

Lemma block_unfold c a x d :
  TieredLayout.block c a x d
  = seqZ 0 d ≫= (fun r => (fun k => [c; a + r; x + k]) <$> seqZ 0 d).
Proof.
  unfold TieredLayout.block.
  apply list_bind_ext; [intros r | reflexivity]. apply bind_unit_fmap.
Qed.

Lemma elem_of_block c a x d row :
  row ∈ TieredLayout.block c a x d
  <-> exists r k, row = [c; a + r; x + k] /\ 0 <= r < d /\ 0 <= k < d.
Proof.
  rewrite block_unfold. split.
  - intros (r & (k & -> & Hk%elem_of_seqZ)%list_elem_of_fmap & Hr%elem_of_seqZ)%list_elem_of_bind.
    exists r, k. repeat split; lia.
  - intros (r & k & -> & Hr & Hk).
    apply list_elem_of_bind. exists r. split; [|apply elem_of_seqZ; lia].
    apply list_elem_of_fmap. exists k. split; [reflexivity | apply elem_of_seqZ; lia].
Qed.

Lemma NoDup_block c a x d : NoDup (TieredLayout.block c a x d).
Proof.
  rewrite block_unfold. apply NoDup_bind; [| |apply NoDup_seqZ].
  - intros r1 r2 row _ _ (k1 & -> & _)%list_elem_of_fmap (k2 & E & _)%list_elem_of_fmap.
    injection E as E _. lia.
  - intros r _. apply NoDup_fmap_2; [|apply NoDup_seqZ].
    intros k1 k2 E. injection E as E. lia.
Qed.

(** X6: a TieredFeaturePatchPixelSampler built with a patch size p between
    8 and 360 never raises in an unmasked call, through any number of
    calls and refills of its queues: every call hands back the five-tuple
    (tiers, [dw], [dh], select, p) in which select is true at one image c
    only, and tier j (j = 0..3) is the square of side p // 2^j of image c,
    row by row, whose first row is ceil(dh / 2^j) and first column
    ceil(dw / 2^j). *)
Theorem tiered_calls_return_patches
    (p nrpb nt fps bs n h w : Z) (keep : bool) (tape : Random.tape) (k : nat) :
  8 <= p <= 360 ->
  exists s0 tape0 (picks : list (Z * Z * Z)) w',
    init nrpb keep p nt fps tape = (Ok s0, tape0)
    /\ sample_calls k bs n h w (World s0 tape0)
       = (Ok ((fun q : Z * Z * Z => TieredLayout.patch_out p q.1.1 q.1.2 q.2) <$> picks), w')
    /\ length picks = k
    /\ Forall (fun q : Z * Z * Z => 0 <= q.1.1 < 153) picks.
Proof.
  intros Hp.
  destruct (tiered_init_built nrpb keep p nt fps tape Hp) as (s0 & tape0 & Hinit & Hb & Hps & _).
  destruct (tiered_calls k s0 tape0 bs n h w Hb)
    as (picks & s' & tape' & Hrun & Hlen & _ & _ & Hall & _).
  rewrite Hps in Hrun.
  exists s0, tape0, picks, (World s' tape').
  split; [exact Hinit|]. split; [exact Hrun|]. split; [exact Hlen|].
  eapply Forall_impl; [exact Hall|]. cbn. tauto.
Qed.

Lemma tiered_calls_return_patches_witness :
  exists s0 tape0 (picks : list (Z * Z * Z)) w',
    init 4096 false 8 4 8 [] = (Ok s0, tape0)
    /\ sample_calls 3 4096 153 720 1280 (World s0 tape0)
       = (Ok ((fun q : Z * Z * Z => TieredLayout.patch_out 8 q.1.1 q.1.2 q.2) <$> picks), w')
    /\ length picks = 3%nat
    /\ Forall (fun q : Z * Z * Z => 0 <= q.1.1 < 153) picks.
Proof. apply (tiered_calls_return_patches 8 4096 4 8 4096 153 720 1280 false [] 3). lia. Defined.

(** X7: for a patch size p between 8 and 360, the first tier of every
    unmasked call is p * p distinct pixels [image, row, column] of one
    image, all inside a frame of 720 rows and 1280 columns of 153 images:
    the patch never crosses the border of the frame. *)
Theorem tiered_patch_inside_frame
    (p nrpb nt fps bs n h w : Z) (keep : bool) (tape : Random.tape) (k : nat) :
  8 <= p <= 360 ->
  exists s0 tape0 outs w',
    init nrpb keep p nt fps tape = (Ok s0, tape0)
    /\ sample_calls k bs n h w (World s0 tape0) = (Ok outs, w')
    /\ Forall (fun o =>
         exists c tier0 rest dw_og dh_og select xy_dim,
           o = OutTiers (tier0 :: rest) dw_og dh_og select xy_dim
           /\ 0 <= c < 153
           /\ ncols tier0 = 3%nat
           /\ length (rows tier0) = Z.to_nat (p * p)
           /\ NoDup (rows tier0)
           /\ (forall row, row ∈ rows tier0 ->
                 exists r col, row = [c; r; col] /\ 0 <= r < 720 /\ 0 <= col < 1280)) outs.
Proof.
  intros Hp.
  destruct (tiered_init_built nrpb keep p nt fps tape Hp) as (s0 & tape0 & Hinit & Hb & Hps & _).
  destruct (tiered_calls k s0 tape0 bs n h w Hb)
    as (picks & s' & tape' & Hrun & Hlen & _ & _ & Hall & _).
  rewrite Hps in Hrun, Hall.
  eexists s0, tape0, _, (World s' tape').
  split; [exact Hinit|]. split; [exact Hrun|].
  apply Forall_fmap. eapply Forall_impl; [exact Hall|].
  intros [[c a] x] (Hc & Ha & Hx). cbn in Hc, Ha, Hx. cbn [fst snd].
  unfold TieredLayout.patch_out. cbn [TieredLayout.tier_blocks].
  eexists c, _, _, _, _, _, _. split; [reflexivity|]. split; [exact Hc|].
  cbn [ncols rows]. split; [reflexivity|].
  split; [rewrite length_block; lia|]. split; [apply NoDup_block|].
  intros row (r & col & -> & Hr & Hcol)%elem_of_block.
  exists (a + r), (x + col). split; [reflexivity | lia].
Qed.

Lemma tiered_patch_inside_frame_witness :
  exists s0 tape0 outs w',
    init 4096 false 8 4 8 [] = (Ok s0, tape0)
    /\ sample_calls 3 4096 153 720 1280 (World s0 tape0) = (Ok outs, w')
    /\ Forall (fun o =>
         exists c tier0 rest dw_og dh_og select xy_dim,
           o = OutTiers (tier0 :: rest) dw_og dh_og select xy_dim
           /\ 0 <= c < 153
           /\ ncols tier0 = 3%nat
           /\ length (rows tier0) = Z.to_nat (8 * 8)
           /\ NoDup (rows tier0)
           /\ (forall row, row ∈ rows tier0 ->
                 exists r col, row = [c; r; col] /\ 0 <= r < 720 /\ 0 <= col < 1280)) outs.
Proof. apply (tiered_patch_inside_frame 8 4096 4 8 4096 153 720 1280 false [] 3). lia. Defined.

(** X8: for a patch size between 8 and 360, the first 153 unmasked calls
    after construction select every image 0..152 exactly once (in the
    shuffled order of the rotation built by the constructor). *)
Theorem tiered_image_rotation
    (p nrpb nt fps bs n h w : Z) (keep : bool) (tape : Random.tape) :
  8 <= p <= 360 ->
  exists s0 tape0 (picks : list (Z * Z * Z)) w',
    init nrpb keep p nt fps tape = (Ok s0, tape0)
    /\ sample_calls 153 bs n h w (World s0 tape0)
       = (Ok ((fun q : Z * Z * Z => TieredLayout.patch_out p q.1.1 q.1.2 q.2) <$> picks), w')
    /\ (fun q : Z * Z * Z => q.1.1) <$> picks = select_idxs s0
    /\ (fun q : Z * Z * Z => q.1.1) <$> picks ≡ₚ seqZ 0 153
    /\ NoDup ((fun q : Z * Z * Z => q.1.1) <$> picks).
Proof.
  intros Hp.
  destruct (tiered_init_built nrpb keep p nt fps tape Hp)
    as (s0 & tape0 & Hinit & Hb & Hps & Hperm).
  destruct (tiered_calls 153 s0 tape0 bs n h w Hb)
    as (picks & s' & tape' & Hrun & Hlen & _ & _ & _ & Hsel).
  rewrite Hps in Hrun.
  assert (Hl : length (select_idxs s0) = 153%nat)
    by (now rewrite (Permutation_length Hperm), length_seqZ).
  assert (E : (fun q : Z * Z * Z => q.1.1) <$> picks = select_idxs s0).
  { rewrite Hsel by lia. apply take_ge. lia. }
  exists s0, tape0, picks, (World s' tape').
  split; [exact Hinit|]. split; [exact Hrun|]. split; [exact E|].
  rewrite E. split; [exact Hperm|]. rewrite Hperm. apply NoDup_seqZ.
Qed.

Lemma tiered_image_rotation_witness :
  exists s0 tape0 (picks : list (Z * Z * Z)) w',
    init 4096 false 8 4 8 [] = (Ok s0, tape0)
    /\ sample_calls 153 4096 153 720 1280 (World s0 tape0)
       = (Ok ((fun q : Z * Z * Z => TieredLayout.patch_out 8 q.1.1 q.1.2 q.2) <$> picks), w')
    /\ (fun q : Z * Z * Z => q.1.1) <$> picks = select_idxs s0
    /\ (fun q : Z * Z * Z => q.1.1) <$> picks ≡ₚ seqZ 0 153
    /\ NoDup ((fun q : Z * Z * Z => q.1.1) <$> picks).
Proof. apply (tiered_image_rotation 8 4096 4 8 4096 153 720 1280 false []). lia. Defined.

(** *** The tiered sampler: patch sizes above 360 *)

Lemma refill_dw_lst_any s tape rw :
  1 <= patch_size s -> dw_lst s = [rw] ->
  exists rw' tape', refill_dw_lst (World s tape) = (Ok tt, World (set_dw_lst [rw'] s) tape').
Proof.
  intros Hp Hdw. unfold refill_dw_lst.
  erewrite bind_ok by reflexivity. cbn [self]. rewrite Hdw.
  erewrite bind_ok by reflexivity.
  destruct rw as [|x rw]; cbn [length Nat.eqb].
  - unfold num_to_select.
    destruct (anchor_rows_one 1280 (patch_size s) tape) as (start & row & tape' & Hrow & _);
      [lia|].
    erewrite bind_ok by (apply rnd_ok, Hrow). exists row, tape'. reflexivity.
  - exists (x :: rw), tape. cbn. rewrite <- Hdw. now destruct s.
Qed.

Lemma refill_dh_lst_empty s tape :
  360 < patch_size s -> dh_lst s = [[]] ->
  exists tape', refill_dh_lst (World s tape) = (Ok tt, World (set_dh_lst [[]] s) tape').
Proof.
  intros Hp Hdh.
  destruct (refill_dh_lst_refills s tape ltac:(lia) Hdh) as (start & row & tape' & E & _ & Hperm).
  assert (Hq : 720 / patch_size s <= 1).
  { assert (720 / patch_size s < 2); [|lia]. apply Z.div_lt_upper_bound; lia. }
  rewrite seqZ_nil in Hperm by lia. apply Permutation_nil_r in Hperm. subst row.
  exists tape'. exact E.
Qed.

(** What holds of a sampler built with a patch size above 360. *)
Lemma tiered_call_oversized s tape bs n h w ap :
  360 < patch_size s -> indices s <> [] ->
  Forall (fun c => 0 <= c < 153) (select_idxs s) ->
  (exists rw, dw_lst s = [rw]) -> dh_lst s = [[]] ->
  exists s' tape',
    sample_method bs n h w None ap (World s tape) = (Raise IndexError, World s' tape')
    /\ patch_size s' = patch_size s /\ indices s' = indices s
    /\ Forall (fun c => 0 <= c < 153) (select_idxs s')
    /\ (exists rw, dw_lst s' = [rw]) /\ dh_lst s' = [[]].
Proof.
  intros Hp Hne Hsel [rw Hdw] Hdh. unfold sample_method.
  destruct (refill_select_idxs_rotation s tape Hsel) as (c & cs & tape1 & Hrefill & Hrange & _).
  erewrite bind_ok by exact Hrefill.
  rewrite (bind_ok _ _ _ _ _ (take_select_idxs_spec _ _)).
  cbn [select_idxs set_select_idxs].
  set (s1 := set_select_idxs (drop 1 (c :: cs)) _).
  destruct (make_select_spec s1 tape1 c cs) as (sel & Hmk & _);
    [exact Hne | now inversion Hrange |].
  erewrite bind_ok by exact Hmk.
  destruct (refill_dw_lst_any s1 tape1 rw) as (rw' & tape2 & Hrdw); [cbn; lia | exact Hdw |].
  erewrite bind_ok by exact Hrdw.
  set (s2 := set_dw_lst _ s1).
  destruct (refill_dh_lst_empty s2 tape2) as (tape3 & Hrdh); [cbn; lia | exact Hdh |].
  erewrite bind_ok by exact Hrdh.
  set (s3 := set_dh_lst _ s2).
  assert (Hpop : pop_anchors (World s3 tape3) = (Raise IndexError, World s3 tape3)).
  { unfold pop_anchors. erewrite bind_ok by reflexivity. cbn [self].
    change (dw_lst s3) with [rw']. change (dh_lst s3) with [[] : list Z].
    destruct rw' as [|x rw']; reflexivity. }
  erewrite bind_raise by exact Hpop.
  exists s3, tape3. split; [reflexivity|]. cbn.
  split; [reflexivity|]. split; [reflexivity|].
  split; [now inversion Hrange|]. split; [eauto | reflexivity].
Qed.

(** X9: a TieredFeaturePatchPixelSampler built with a patch size above 360
    is constructed without error, but its queue of row anchors has
    720 // patch_size - 1 = 0 entries, and every unmasked call, the first
    and all later ones, raises IndexError. *)
Theorem tiered_oversized_patch_always_raises
    (p nrpb nt fps bs n h w : Z) (keep : bool) (tape : Random.tape) (k : nat) :
  360 < p ->
  exists s0 tape0,
    init nrpb keep p nt fps tape = (Ok s0, tape0)
    /\ dh_lst s0 = [[]]
    /\ (sample_method bs n h w None false
          (TieredLayout.after_calls k bs n h w (World s0 tape0))).1
       = Raise IndexError.
Proof.
  intros Hp.
  destruct (tiered_init_ok nrpb keep p nt fps tape ltac:(lia))
    as (sel & rh & rw & tape0 & E & Hperm & _ & _ & Hlen & _).
  assert (Hq : 720 / p <= 1).
  { assert (720 / p < 2); [|lia]. apply Z.div_lt_upper_bound; lia. }
  assert (rh = []) as -> by (apply length_zero_iff_nil; lia).
  eexists _, tape0. split; [exact E|]. split; [reflexivity|].
  set (s0 := Make _ _ _ _ _ _ _ _ _).
  assert (Hinv : forall j, exists s tp,
            TieredLayout.after_calls j bs n h w (World s0 tape0) = World s tp
            /\ 360 < patch_size s /\ indices s <> []
            /\ Forall (fun c => 0 <= c < 153) (select_idxs s)
            /\ (exists rw, dw_lst s = [rw]) /\ dh_lst s = [[]]).
  { induction j as [|j (s & tp & Ej & H1 & H2 & H3 & H4 & H5)].
    - exists s0, tape0. split; [reflexivity|]. cbn.
      split; [lia|]. split; [discriminate|].
      split; [|split; [eauto | reflexivity]].
      rewrite Hperm. apply Forall_forall. intros c Hc%elem_of_seqZ. lia.
    - cbn [TieredLayout.after_calls]. rewrite Ej.
      destruct (tiered_call_oversized s tp bs n h w false H1 H2 H3 H4 H5)
        as (s' & tp' & Ecall & Hp' & Hi' & H3' & H4' & H5').
      exists s', tp'. rewrite Ecall. split; [reflexivity|].
      split; [lia|]. split; [congruence | auto]. }
  destruct (Hinv k) as (s & tp & Ek & H1 & H2 & H3 & H4 & H5).
  rewrite Ek.
  destruct (tiered_call_oversized s tp bs n h w false H1 H2 H3 H4 H5) as (s' & tp' & -> & _).
  reflexivity.
Qed.

Lemma tiered_oversized_patch_always_raises_witness :
  exists s0 tape0,
    init 4096 false 400 4 400 [] = (Ok s0, tape0)
    /\ dh_lst s0 = [[]]
    /\ (sample_method 4096 153 720 1280 None false
          (TieredLayout.after_calls 2 4096 153 720 1280 (World s0 tape0))).1
       = Raise IndexError.
Proof.
  apply (tiered_oversized_patch_always_raises 400 4096 4 400 4096 153 720 1280 false [] 2).
  lia.
Defined.

(** *** Collation: the calls that cannot return *)

Section CollateErrors.

Import Objects.
Context {F : Type} {prims : TorchPrims F}.

Lemma dict_has_present (w : world F) d kvs k v :
  heap w !! d = Some (ODict kvs) -> assoc_lookup k kvs = Some v ->
  dict_has d k w = (Ok true, w).
Proof.
  intros Hd Hk. unfold dict_has, load_dict, load.
  unfold mbind, M_bind, Py.bind. rewrite Hd. cbn. now rewrite Hk.
Qed.

Lemma dict_get_missing (w : world F) d kvs k :
  heap w !! d = Some (ODict kvs) -> assoc_lookup k kvs = None ->
  dict_get d k w = (Raise KeyError, w).
Proof.
  intros Hd Hk. unfold dict_get, load_dict, load.
  unfold mbind, M_bind, Py.bind. rewrite Hd. cbn. now rewrite Hk.
Qed.

(** The head of [collate_image_dataset_batch], up to the sampling step. *)
Lemma collate_head (w : world F) batch kvs image t n h wd c nrp keep :
  heap w !! batch = Some (ODict kvs) ->
  assoc_lookup "image" kvs = Some (VRef image) ->
  heap w !! image = Some (OTensor t) ->
  tshape t = [n; h; wd; c] ->
  collate_image_dataset_batch batch nrp keep w
  = ('(indices, sc) ← collate_sample batch (Z.of_nat h * Z.of_nat wd) (Z.of_nat n)
                        (Z.of_nat h) (Z.of_nat wd);
     collate_finish batch keep indices sc) w.
Proof.
  intros Hbatch Himage Ht Hshape. unfold collate_image_dataset_batch.
  rewrite (bind_ok _ _ _ _ _ (dict_get_ok w batch kvs "image" _ Hbatch Himage)).
  rewrite (bind_ok _ _ _ _ _ (tensor_attr_ok w image t Ht)).
  unfold lift at 1, shape4. rewrite Hshape. erewrite bind_ok by reflexivity.
  reflexivity.
Qed.

Lemma collate_sample_masked (w w' : world F) batch kvs v nrp n h wd indices sc :
  heap w !! batch = Some (ODict kvs) ->
  assoc_lookup "mask" kvs = Some v ->
  collate_sample batch nrp n h wd w = (Ok (indices, sc), w') ->
  sc = None.
Proof.
  intros Hbatch Hmask. unfold collate_sample.
  rewrite (bind_ok _ _ _ _ _ (dict_has_present w batch kvs "mask" v Hbatch Hmask)).
  unfold mbind, M_bind, Py.bind.
  destruct (dict_get batch "mask" w) as [[m|e] w1]; [|discriminate].
  destruct (as_mask m w1) as [[m'|e] w2]; [|discriminate].
  destruct (sample_method nrp n h wd m' None w2) as [[i|e] w3]; [|discriminate].
  unfold mret, M_ret, Py.ret. intros [= _ <- _]. reflexivity.
Qed.

Lemma collate_finish_unbound (w : world F) batch indices :
  is_ok (collate_finish batch true indices None w).1 = false.
Proof.
  unfold collate_finish.
  apply bind_never_ok; intros collated_batch w1.
  apply bind_never_ok; intros _ w2. reflexivity.
Qed.

(** X11: when the batch has a "mask" entry and keep_full_image is true,
    collate_image_dataset_batch never returns a collated batch, whatever
    the sampler and the mask: the names select, dh, dw and xy_dim that the
    keep_full_image block reads are bound by the unmasked branch only. *)
Theorem collate_mask_with_full_image_never_returns
    (w : world F) (batch : positive) (kvs : list (string * pyval)) (v : pyval)
    (num_rays_per_batch : Z) :
  heap w !! batch = Some (ODict kvs) ->
  assoc_lookup "mask" kvs = Some v ->
  is_ok (collate_image_dataset_batch batch num_rays_per_batch true w).1 = false.
Proof.
  intros Hbatch Hmask. unfold collate_image_dataset_batch.
  destruct (assoc_lookup "image" kvs) as [vi|] eqn:Himage.
  2:{ now rewrite (bind_raise _ _ _ _ _ (dict_get_missing w batch kvs "image" Hbatch Himage)). }
  rewrite (bind_ok _ _ _ _ _ (dict_get_ok w batch kvs "image" _ Hbatch Himage)).
  unfold mbind, M_bind, Py.bind.
  assert (Hattr : forall r w1, tensor_attr vi w = (r, w1) -> w1 = w).
  { intros r w1. unfold tensor_attr, load, mbind, M_bind, Py.bind.
    destruct vi; try (intros [= _ <-]; reflexivity).
    destruct (heap w !! l) as [[?| |]|]; intros [= _ <-]; reflexivity. }
  destruct (tensor_attr vi w) as [[t|e] w1] eqn:Et; [|reflexivity].
  rewrite (Hattr _ _ eq_refl). clear Hattr Et w1.
  unfold lift. destruct (shape4 t) as [[[[n h] wd] c]|e]; [|reflexivity].
  cbn [fst snd].
  destruct (collate_sample batch (Z.of_nat h * Z.of_nat wd) (Z.of_nat n)
              (Z.of_nat h) (Z.of_nat wd) w) as [[[indices sc]|e] w'] eqn:Es; [|reflexivity].
  rewrite (collate_sample_masked _ _ _ _ _ _ _ _ _ _ _ Hbatch Hmask Es).
  apply collate_finish_unbound.
Qed.

(** X12: EquirectangularPixelSampler.sample on a stacked image batch (an
    "image" tensor of rank 4) without a "mask" entry raises TypeError and
    leaves everything as it was: collate_image_dataset_batch passes
    all_pixels=True, a keyword the sample_method of this class does not
    take. *)
Theorem equirectangular_sample_unmasked_raises
    (w : world F) (image_batch image : positive) (kvs : list (string * pyval))
    (t : tensor F) (n h wd c : nat) (nr : Z) (keep : bool) :
  self w = SEquirectangular nr keep ->
  heap w !! image_batch = Some (ODict kvs) ->
  assoc_lookup "image" kvs = Some (VRef image) ->
  assoc_lookup "mask" kvs = None ->
  heap w !! image = Some (OTensor t) ->
  tshape t = [n; h; wd; c] ->
  sample image_batch w = (Raise TypeError, w).
Proof.
  intros Hself Hbatch Himage Hmask Ht Hshape. unfold sample.
  rewrite (bind_ok _ _ _ _ _ (dict_get_ok w image_batch kvs "image" _ Hbatch Himage)).
  assert (Hk : kind_of (VRef image) w = (Ok KTensor, w)).
  { unfold kind_of, load, mbind, M_bind, Py.bind. now rewrite Ht. }
  rewrite (bind_ok _ _ _ _ _ Hk). erewrite bind_ok by reflexivity.
  rewrite (collate_head w image_batch kvs image t n h wd c _ _ Hbatch Himage Ht Hshape).
  unfold collate_sample, mbind, M_bind, Py.bind.
  rewrite (dict_has_absent w image_batch kvs "mask" Hbatch Hmask).
  unfold sample_method. rewrite Hself. reflexivity.
Qed.

(** X13: PixelSampler.sample raises KeyError when the batch has no "image"
    entry, and ValueError when the entry is neither a list nor a tensor
    (None, a number, a string, a tuple); in both cases nothing is
    modified. *)
Theorem sample_rejects_other_images
    (w : world F) (image_batch : positive) (kvs : list (string * pyval)) :
  heap w !! image_batch = Some (ODict kvs) ->
  (assoc_lookup "image" kvs = None -> sample image_batch w = (Raise KeyError, w))
  /\ (forall v, assoc_lookup "image" kvs = Some v -> (forall l, v <> VRef l) ->
        sample image_batch w = (Raise ValueError, w)).
Proof.
  intros Hbatch. split.
  - intros Hnone. unfold sample.
    now rewrite (bind_raise _ _ _ _ _ (dict_get_missing w image_batch kvs "image" Hbatch Hnone)).
  - intros v Hv Hnot. unfold sample.
    rewrite (bind_ok _ _ _ _ _ (dict_get_ok w image_batch kvs "image" _ Hbatch Hv)).
    destruct v; try reflexivity. now destruct (Hnot l).
Qed.

End CollateErrors.

Lemma collate_mask_with_full_image_never_returns_witness :
  is_ok (Objects.collate_image_dataset_batch (prims := Objects.data_free_prims) 1 32 true
           (Objects.World
              (<[1%positive := Objects.ODict [("image"%string, Objects.VRef 2%positive);
                                             ("mask"%string, Objects.VRef 3%positive)]]>
                 (<[2%positive := Objects.OTensor (Objects.TFloat [1; 2; 2; 3]%nat
                                                    (replicate 12 tt))]>
                    (<[3%positive := Objects.OTensor (Objects.TBool [1; 2; 2; 1]%nat
                                                       (replicate 4 true))]> ∅)))
              (Objects.SPixel 4096 true) [0; 0; 0; 0]%nat)).1 = false.
Proof.
  apply (collate_mask_with_full_image_never_returns (prims := Objects.data_free_prims)
           _ 1 [("image"%string, Objects.VRef 2%positive);
                ("mask"%string, Objects.VRef 3%positive)] (Objects.VRef 3%positive) 32);
    reflexivity.
Defined.

Lemma equirectangular_sample_unmasked_raises_witness :
  Objects.sample (prims := Objects.data_free_prims) 1
    (Objects.World (Objects.heap Objects.two_images_4x4)
       (Objects.SEquirectangular 4096 false) [])
  = (Raise TypeError,
     Objects.World (Objects.heap Objects.two_images_4x4)
       (Objects.SEquirectangular 4096 false) []).
Proof.
  apply (equirectangular_sample_unmasked_raises (prims := Objects.data_free_prims)
           _ 1 2 [("image"%string, Objects.VRef 2)]
           (Objects.TFloat [2; 4; 4; 3]%nat (replicate 96 tt)) 2 4 4 3 4096 false);
    reflexivity.
Defined.

Lemma sample_rejects_other_images_witness :
  (Objects.assoc_lookup "image" [("image"%string, Objects.VNone)] = None ->
   Objects.sample (prims := Objects.data_free_prims) 1
     (Objects.World (<[1%positive := Objects.ODict [("image"%string, Objects.VNone)]]> ∅)
        (Objects.SPixel 4096 false) [])
   = (Raise KeyError,
      Objects.World (<[1%positive := Objects.ODict [("image"%string, Objects.VNone)]]> ∅)
        (Objects.SPixel 4096 false) []))
  /\ (forall v, Objects.assoc_lookup "image" [("image"%string, Objects.VNone)] = Some v ->
        (forall l, v <> Objects.VRef l) ->
        Objects.sample (prims := Objects.data_free_prims) 1
          (Objects.World (<[1%positive := Objects.ODict [("image"%string, Objects.VNone)]]> ∅)
             (Objects.SPixel 4096 false) [])
        = (Raise ValueError,
           Objects.World (<[1%positive := Objects.ODict [("image"%string, Objects.VNone)]]> ∅)
             (Objects.SPixel 4096 false) [])).
Proof.
  apply (sample_rejects_other_images (prims := Objects.data_free_prims)
           (Objects.World (<[1%positive := Objects.ODict [("image"%string, Objects.VNone)]]> ∅)
              (Objects.SPixel 4096 false) []) 1 [("image"%string, Objects.VNone)]).
  reflexivity.
Defined.
(** *** Collation with the base sampler: the five-way unpacking *)

Lemma sample_all_pixels_rows bs n h w t :
  sample_all_pixels bs n h w = Ok t ->
  w <> 0 /\ ncols t = 3%nat /\ length (rows t) = (Z.to_nat (bs / w) * Z.to_nat w)%nat.
Proof.
  unfold sample_all_pixels, arange, repeat_interleave, Torch.repeat, cat_columns.
  destruct (floordiv bs n) as [q1|]; [|discriminate]. cbn [mbind result_bind].
  destruct (Z.ltb n 0); [discriminate|]. cbn [mbind result_bind].
  destruct (Z.ltb q1 0); [discriminate|]. cbn [mbind result_bind].
  destruct (floordiv bs (h * n)) as [q2|]; [|discriminate]. cbn [mbind result_bind].
  destruct (Z.ltb h 0); [discriminate|]. cbn [mbind result_bind].
  destruct (Z.ltb q2 0); [discriminate|]. cbn [mbind result_bind].
  unfold floordiv. destruct (Z.eqb_spec w 0) as [|Hw]; [discriminate|].
  cbn [mbind result_bind].
  destruct (Z.ltb w 0); [discriminate|]. cbn [mbind result_bind].
  destruct (Z.ltb (bs / w) 0); [discriminate|]. cbn [mbind result_bind].
  set (a := mjoin ((fun x => replicate (Z.to_nat q1) x) <$> seqZ 0 n)).
  set (b := mjoin (replicate (Z.to_nat n) _)).
  set (c := mjoin (replicate (Z.to_nat (bs / w)) (seqZ 0 w))).
  destruct (Nat.eqb_spec (length a) (length b)) as [Hab|]; [|discriminate].
  destruct (Nat.eqb_spec (length b) (length c)) as [Hbc|]; [|discriminate].
  cbn [andb]. intros [= <-]. cbn [ncols rows].
  split; [exact Hw|]. split; [reflexivity|].
  rewrite length_zip3, Hab, Hbc by assumption.
  unfold c. rewrite length_join_replicate, length_seqZ. reflexivity.
Qed.

Lemma length_chunks {A} k n : forall l : list A, length (Objects.chunks k n l) = n.
Proof. induction n as [|n IH]; intros l; [reflexivity|]. cbn. now rewrite IH. Qed.

Section UnpackErrors.

Import Objects.
Context {F : Type} {prims : TorchPrims F}.

Lemma mapM_alloc_tensor_length (ts : list (tensor F)) : forall w : world F,
  exists vs w', mapM alloc_tensor ts w = (Ok vs, w') /\ length vs = length ts.
Proof.
  induction ts as [|t ts IH]; intros w.
  - exists [], w. split; reflexivity.
  - cbn [mapM]. erewrite bind_ok by reflexivity.
    destruct (IH (World (<[fresh (dom (heap w)) := OTensor t]> (heap w)) (self w) (rng w)))
      as (vs & w' & E & Hlen).
    erewrite bind_ok by exact E.
    eexists _, w'. split; [reflexivity|]. cbn. now rewrite Hlen.
Qed.

Lemma unpack5_rows (w : world F) l (t : int2d) :
  heap w !! l = Some (OTensor (tensor_of_int2d t)) ->
  length (rows t) <> 5%nat ->
  exists w', unpack5 (VRef l) w = (Raise ValueError, w').
Proof.
  intros Hl Hlen.
  assert (Hload : load l w = (Ok (OTensor (tensor_of_int2d t)), w))
    by (unfold load; now rewrite Hl).
  set (ts := TInt [ncols t]
             <$> chunks (numel [ncols t]) (length (rows t)) (mjoin (rows t)) : list (tensor F)).
  assert (Hrows : tensor_rows (tensor_of_int2d t) = Ok ts) by reflexivity.
  destruct (mapM_alloc_tensor_length ts w) as (vs & w' & E & Hvs).
  assert (Hit : iterate (VRef l) w = (Ok vs, w')).
  { unfold iterate. rewrite (bind_ok _ _ _ _ _ Hload). unfold lift. rewrite Hrows.
    erewrite bind_ok by reflexivity. exact E. }
  unfold unpack5. rewrite (bind_ok _ _ _ _ _ Hit).
  unfold ts in Hvs. rewrite length_fmap, length_chunks in Hvs.
  exists w'. destruct vs as [|? [|? [|? [|? [|? [|? ?]]]]]]; cbn in Hvs; try reflexivity.
  lia.
Qed.

Lemma sample_method_pixel_all (w : world F) bs n h wd nr kp :
  self w = SPixel nr kp ->
  sample_method bs n h wd None (Some true) w
  = match sample_all_pixels bs n h wd with
    | Ok idx =>
        (Ok (VRef (fresh (dom (heap w)))),
         World (<[fresh (dom (heap w)) := OTensor (tensor_of_int2d idx)]> (heap w))
           (self w) (rng w))
    | Raise e => (Raise e, w)
    end.
Proof.
  intros Hself. destruct w as [hp sf rg]. cbn [self] in Hself. subst sf.
  unfold sample_method. cbn [self heap rng].
  unfold mbind, M_bind, Py.bind, rnd, zoom, PixelSampler.sample_method, lift.
  destruct (sample_all_pixels bs n h wd); reflexivity.
Qed.

(** X14: with the base PixelSampler, collate_image_dataset_batch on a
    stacked batch (an "image" tensor of shape [N, H, W, C]) without a
    "mask" entry never returns a collated batch unless H * W = 5:
    sample_method hands back one tensor of H * W rows, and the five-way
    unpacking (indices, dw, dh, select, xy_dim) of it raises. *)
Theorem pixel_sampler_collate_unmasked_never_returns
    (w : world F) (batch image : positive) (kvs : list (string * pyval))
    (t : tensor F) (n h wd c : nat) (nr num_rays_per_batch : Z) (kp keep_full_image : bool) :
  self w = SPixel nr kp ->
  heap w !! batch = Some (ODict kvs) ->
  assoc_lookup "image" kvs = Some (VRef image) ->
  assoc_lookup "mask" kvs = None ->
  heap w !! image = Some (OTensor t) ->
  tshape t = [n; h; wd; c] ->
  (h * wd)%nat <> 5%nat ->
  is_ok (collate_image_dataset_batch batch num_rays_per_batch keep_full_image w).1 = false.
Proof.
  intros Hself Hbatch Himage Hmask Ht Hshape Hhw.
  rewrite (collate_head w batch kvs image t n h wd c _ _ Hbatch Himage Ht Hshape).
  unfold collate_sample, mbind, M_bind, Py.bind.
  rewrite (dict_has_absent w batch kvs "mask" Hbatch Hmask).
  rewrite (sample_method_pixel_all w _ _ _ _ _ _ Hself).
  destruct (sample_all_pixels (Z.of_nat h * Z.of_nat wd) (Z.of_nat n) (Z.of_nat h)
              (Z.of_nat wd)) as [idx|e] eqn:Eidx; [|reflexivity].
  destruct (sample_all_pixels_rows _ _ _ _ _ Eidx) as (Hw0 & _ & Hrows).
  rewrite Z.div_mul in Hrows by exact Hw0. rewrite !Nat2Z.id in Hrows.
  destruct (unpack5_rows
              (World (<[fresh (dom (heap w)) := OTensor (tensor_of_int2d idx)]> (heap w))
                 (self w) (rng w))
              (fresh (dom (heap w))) idx) as (w' & ->);
    [apply lookup_insert_eq | lia |].
  reflexivity.
Qed.

End UnpackErrors.

Lemma pixel_sampler_collate_unmasked_never_returns_witness :
  is_ok (Objects.collate_image_dataset_batch (prims := Objects.data_free_prims) 1 32 false
           Objects.two_images_4x4).1 = false.
Proof.
  apply (pixel_sampler_collate_unmasked_never_returns (prims := Objects.data_free_prims)
           Objects.two_images_4x4 1 2 [("image"%string, Objects.VRef 2)]
           (Objects.TFloat [2; 4; 4; 3]%nat (replicate 96 tt)) 2 4 4 3 4096 32 true false);
    try reflexivity.
  cbn. lia.
Defined.

(** *** The row-anchor queue over the refills *)



Lemma row_anchors_app o1 o2 : row_anchors (o1 ++ o2) = row_anchors o1 ++ row_anchors o2.
Proof. unfold row_anchors. apply bind_app. Qed.






